(** * numba/hsa/compiler.py: the HSA kernel dispatch layer

    A shallow embedding of the launch-configuration protocol
    ([HSAKernelBase]), the argument marshaller ([_unpack_argument],
    [_calc_padding_for_alignment]), the finalized-program cache
    ([_CachedProgram]), the kernel object ([HSAKernel]) and the
    specialization table ([AutoJitHSAKernel]).

    Python objects live in a store and are named by their index; the
    device driver, the type resolver and the compiler pipeline are
    collaborators whose answers are taken from a [Collaborators]
    instance and whose calls are recorded in a trace. *)

From stdpp Require Import base option list gmap strings countable.
From Stdlib Require Import ZArith Lia SpecFloat.

Local Open Scope Z_scope.

(* ------------------------------------------------------------------ *)
(** ** numba types and Python values                                    *)
(* ------------------------------------------------------------------ *)

Inductive bitwidth := W8 | W16 | W32 | W64.

Definition bitwidth_bits (w : bitwidth) : Z :=
  match w with W8 => 8 | W16 => 16 | W32 => 32 | W64 => 64 end.

Definition bitwidth_bytes (w : bitwidth) : Z :=
  match w with W8 => 1 | W16 => 2 | W32 => 4 | W64 => 8 end.

(** The numba types an argument can be declared with.  [Array] and
    [Integer] are the classes tested with [isinstance]; the five
    constants are the singletons compared with [==]; [OtherType] is any
    remaining numba type (tuples, records, ...), named by its [str]. *)
Inductive argtype :=
| Array (dtype : argtype) (ndim : nat) (layout : string)
| Integer (signed : bool) (width : bitwidth)
| float32
| float64
| boolean
| complex64
| complex128
| OtherType (name : string).

Global Instance bitwidth_eq_dec : EqDecision bitwidth.
Proof. solve_decision. Defined.

Global Instance argtype_eq_dec : EqDecision argtype.
Proof. solve_decision. Defined.

(** Signatures are dictionary keys: types are hashable. *)
Definition bitwidth_code (w : bitwidth) : nat :=
  match w with W8 => 0 | W16 => 1 | W32 => 2 | W64 => 3 end%nat.

Definition bitwidth_of_code (n : nat) : bitwidth :=
  match n with
  | O => W8
  | S O => W16
  | S (S O) => W32
  | _ => W64
  end.

Fixpoint argtype_encode (t : argtype) : gen_tree (nat + string) :=
  match t with
  | Array d n l =>
      GenNode 0 [argtype_encode d; GenLeaf (inl n); GenLeaf (inr l)]
  | Integer s w =>
      GenNode 1 [GenLeaf (inl (if s then 1 else 0)%nat);
                 GenLeaf (inl (bitwidth_code w))]
  | float32 => GenNode 2 []
  | float64 => GenNode 3 []
  | boolean => GenNode 4 []
  | complex64 => GenNode 5 []
  | complex128 => GenNode 6 []
  | OtherType name => GenNode 7 [GenLeaf (inr name)]
  end.

Fixpoint argtype_decode (t : gen_tree (nat + string)) : option argtype :=
  match t with
  | GenNode 0 [d; GenLeaf (inl n); GenLeaf (inr l)] =>
      match argtype_decode d with
      | Some d' => Some (Array d' n l)
      | None => None
      end
  | GenNode 1 [GenLeaf (inl s); GenLeaf (inl w)] =>
      Some (Integer (match s with O => false | _ => true end)
                    (bitwidth_of_code w))
  | GenNode 2 [] => Some float32
  | GenNode 3 [] => Some float64
  | GenNode 4 [] => Some boolean
  | GenNode 5 [] => Some complex64
  | GenNode 6 [] => Some complex128
  | GenNode 7 [GenLeaf (inr name)] => Some (OtherType name)
  | _ => None
  end.

Global Instance argtype_countable : Countable argtype.
Proof.
  refine (inj_countable argtype_encode argtype_decode _).
  abstract (intros t; induction t as [d IH n l|s w| | | | | |name]; simpl;
            [now rewrite IH | now destruct s, w | reflexivity ..]).
Defined.

(** A Python [float]: an IEEE-754 binary64, kept as its bit pattern. *)
Record pyfloat := PyFloatBits { float_bits : Z }.

(** The attributes of a numpy array that the marshaller reads:
    [val.size], [val.dtype.itemsize], [val.ctypes.data], [val.ndim],
    [val.shape] and [val.strides]. *)
Record ndarray := NdArray {
  nd_size : Z;
  nd_itemsize : Z;
  nd_data : Z;
  nd_ndim : nat;
  nd_shape : list Z;
  nd_strides : list Z
}.

(** numpy keeps one extent and one stride per axis. *)
Definition ndarray_wf (a : ndarray) : Prop :=
  length (nd_shape a) = nd_ndim a ∧ length (nd_strides a) = nd_ndim a.

(** The values handed to a kernel: a numpy array, a Python [int],
    [float], [bool] or [complex], or an object of another class that
    takes part in no numeric conversion and has none of the attributes
    read below ([None], a tuple, a plain object), named by its [repr]. *)
Inductive pyval :=
| PyArray (a : ndarray)
| PyInt (n : Z)
| PyFloat (x : pyfloat)
| PyBool (b : bool)
| PyComplex (re im : pyfloat)
| PyOther (repr : string).

(* ------------------------------------------------------------------ *)
(** ** Exceptions and results                                           *)
(* ------------------------------------------------------------------ *)

Inductive exception :=
| NotImplementedError (ty : argtype) (val : pyval)
| AssertionError (msg : string)
| IndexError
| ZeroDivisionError
| TypeError (msg : string)
| ValueError (msg : string)
| AttributeError (name : string)
| OverflowError (msg : string)
(** the conversion of a one-element ndarray to a Python scalar: numpy
    answers from the element and its dtype, which the model of an array
    does not hold *)
| ArrayScalarConversion (a : ndarray)
(** a fault raised by a collaborator and propagated unchanged *)
| CollaboratorFault (msg : string)
(** a name of the model that denotes no object of the store; a Python
    reference always denotes one *)
| ReferenceError.

Inductive result (A : Type) :=
| Ok (a : A)
| Raise (e : exception).
Arguments Ok {A} a.
Arguments Raise {A} e.

Definition is_ok {A} (r : result A) : bool :=
  match r with Ok _ => true | Raise _ => false end.

(* ------------------------------------------------------------------ *)
(** ** ctypes scalars                                                   *)
(* ------------------------------------------------------------------ *)

Inductive ctype :=
| CVoidP
| CSsizeT
| CInteger (signed : bool) (width : bitwidth)
| CFloat
| CDouble.

(** What a ctypes scalar holds: an integer already reduced to the range
    of its C type, a C [double] (a binary64, as a Python float is), or a
    C [float] as its binary32 bit pattern. *)
Inductive cdata :=
| CWord (z : Z)
| CReal (x : pyfloat)
| CSingle (bits : Z).

Record cell := Cell { cell_type : ctype; cell_data : cdata }.

(** [ctypes.sizeof(ctypes.c_void_p)] on the 64-bit hosts HSA runs on. *)
Definition sizeof_void_p : Z := 8.

Definition sizeof_ctype (t : ctype) : Z :=
  match t with
  | CVoidP => sizeof_void_p
  | CSsizeT => sizeof_void_p
  | CInteger _ w => bitwidth_bytes w
  | CFloat => 4
  | CDouble => 8
  end.

(** [ctypes.sizeof(av)] *)
Definition sizeof (av : cell) : Z := sizeof_ctype (cell_type av).

(** ctypes integers do no overflow checking: the value wraps. *)
Definition wrap_unsigned (bits v : Z) : Z := v mod 2 ^ bits.
Definition wrap_signed (bits v : Z) : Z :=
  (v + 2 ^ (bits - 1)) mod 2 ^ bits - 2 ^ (bits - 1).

Definition c_void_p (addr : Z) : cell :=
  Cell CVoidP (CWord (wrap_unsigned (8 * sizeof_void_p) addr)).
Definition c_ssize_t (v : Z) : cell :=
  Cell CSsizeT (CWord (wrap_signed (8 * sizeof_void_p) v)).
Definition c_integer (signed : bool) (w : bitwidth) (v : Z) : cell :=
  Cell (CInteger signed w)
       (CWord (if signed then wrap_signed (bitwidth_bits w) v
               else wrap_unsigned (bitwidth_bits w) v)).
Definition c_uint8 (v : Z) : cell := c_integer false W8 v.

(** The number a binary64 bit pattern denotes: bit 63 is the sign, bits
    52 to 62 the biased exponent, bits 0 to 51 the fraction. *)
Definition float_decode (x : pyfloat) : spec_float :=
  let bits := float_bits x mod 2 ^ 64 in
  let s := Z.testbit bits 63 in
  let e := (bits / 2 ^ 52) mod 2 ^ 11 in
  let m := bits mod 2 ^ 52 in
  if e =? 0 then
    match m with
    | Zpos p => S754_finite s p (-1074)
    | _ => S754_zero s
    end
  else if e =? 2047 then
    if m =? 0 then S754_infinity s else S754_nan
  else
    match m + 2 ^ 52 with
    | Zpos p => S754_finite s p (e - 1075)
    | _ => S754_nan
    end.

(** The bit pattern of a number in the format with [prec] significant
    bits and infinities at exponent [emax]; a NaN is the quiet one. *)
Definition float_encode (prec emax : Z) (x : spec_float) : Z :=
  let mbits := prec - 1 in
  let top := 2 * emax - 1 in
  let sign (s : bool) := if s then 2 * emax * 2 ^ mbits else 0 in
  match x with
  | S754_zero s => sign s
  | S754_infinity s => sign s + top * 2 ^ mbits
  | S754_nan => top * 2 ^ mbits + 2 ^ (mbits - 1)
  | S754_finite s m e =>
      if Zpos m <? 2 ^ mbits then sign s + Zpos m
      else sign s + (e + emax + prec - 2) * 2 ^ mbits + (Zpos m - 2 ^ mbits)
  end.

(** The C conversion from [double] to [float]: round to the nearest
    binary32, ties to even, overflowing to an infinity; a NaN keeps its
    sign and the upper bits of its payload and is made quiet. *)
Definition double_to_single (x : pyfloat) : Z :=
  match float_decode x with
  | S754_finite s m e =>
      float_encode 24 128
        (binary_normalize 24 128 (if s then Zneg m else Zpos m) e s)
  | S754_nan =>
      let bits := float_bits x mod 2 ^ 64 in
      (bits / 2 ^ 63) * 2 ^ 31 + 255 * 2 ^ 23 +
      Z.lor (2 ^ 22) ((bits mod 2 ^ 52) / 2 ^ 29)
  | y => float_encode 24 128 y
  end.

(** [ctypes.c_float(x)] and [ctypes.c_double(x)] for a Python float. *)
Definition c_float (x : pyfloat) : cell :=
  Cell CFloat (CSingle (double_to_single x)).
Definition c_double (x : pyfloat) : cell := Cell CDouble (CReal x).

(* ------------------------------------------------------------------ *)
(** ** Python's conversions between numbers                             *)
(* ------------------------------------------------------------------ *)

(** [float(n)] for an [int]: the nearest binary64, ties to even; an
    integer that rounds beyond the largest one is refused. *)
Definition float_of_int (n : Z) : result pyfloat :=
  match binary_normalize 53 1024 n 0 false with
  | S754_infinity _ => Raise (OverflowError "int too large to convert to float")
  | y => Ok (PyFloatBits (float_encode 53 1024 y))
  end.

(** [int(x)] for a [float]: truncation towards zero. *)
Definition int_of_float (x : pyfloat) : result Z :=
  match float_decode x with
  | S754_zero _ => Ok 0
  | S754_finite s m e =>
      let a := if 0 <=? e then Zpos m * 2 ^ e else Zpos m / 2 ^ (- e) in
      Ok (if s then - a else a)
  | S754_infinity _ =>
      Raise (OverflowError "cannot convert float infinity to integer")
  | S754_nan => Raise (ValueError "cannot convert float NaN to integer")
  end.

(** numpy converts an array to a scalar only when it has one element,
    and refuses with [msg] otherwise. *)
Definition array_scalar {A} (a : ndarray) (msg : string) : result A :=
  if nd_size a =? 1 then Raise (ArrayScalarConversion a)
  else Raise (TypeError msg).

(** What a ctypes integer type accepts as its initial value: an [int]
    (a [bool] is one), or an object that gives one as its index.  The
    messages here and below are CPython's; they name the class of the
    operand, which is left out where the model does not hold it. *)
Definition as_index (val : pyval) : result Z :=
  match val with
  | PyInt n => Ok n
  | PyBool b => Ok (if b then 1 else 0)
  | PyArray a =>
      array_scalar a
        "only integer scalar arrays can be converted to a scalar index"
  | PyFloat _ =>
      Raise (TypeError "'float' object cannot be interpreted as an integer")
  | PyComplex _ _ =>
      Raise (TypeError "'complex' object cannot be interpreted as an integer")
  | PyOther _ =>
      Raise (TypeError "object cannot be interpreted as an integer")
  end.

(** What [ctypes.c_float] and [ctypes.c_double] accept: a real number,
    converted to a Python float first. *)
Definition as_float (val : pyval) : result pyfloat :=
  match val with
  | PyFloat x => Ok x
  | PyInt n => float_of_int n
  | PyBool b => float_of_int (if b then 1 else 0)
  | PyArray a =>
      array_scalar a "only size-1 arrays can be converted to Python scalars"
  | PyComplex _ _ => Raise (TypeError "must be real number, not complex")
  | PyOther _ => Raise (TypeError "must be real number")
  end.

(** [int(val)] *)
Definition py_int (val : pyval) : result Z :=
  match val with
  | PyInt n => Ok n
  | PyBool b => Ok (if b then 1 else 0)
  | PyFloat x => int_of_float x
  | PyArray a =>
      array_scalar a "only size-1 arrays can be converted to Python scalars"
  | PyComplex _ _ =>
      Raise (TypeError "int() argument must be a string, a bytes-like object or a real number, not 'complex'")
  | PyOther _ =>
      Raise (TypeError "int() argument must be a string, a bytes-like object or a real number")
  end.

(** [val.real] and [val.imag]: every number has both; an array answers
    with an array of the same extent. *)
Definition py_real (val : pyval) : result pyval :=
  match val with
  | PyComplex re _ => Ok (PyFloat re)
  | PyFloat x => Ok (PyFloat x)
  | PyInt n => Ok (PyInt n)
  | PyBool b => Ok (PyInt (if b then 1 else 0))
  | PyArray a => Ok (PyArray a)
  | PyOther _ => Raise (AttributeError "real")
  end.

Definition py_imag (val : pyval) : result pyval :=
  match val with
  | PyComplex _ im => Ok (PyFloat im)
  | PyFloat _ => Ok (PyFloat (PyFloatBits 0))
  | PyInt _ => Ok (PyInt 0)
  | PyBool _ => Ok (PyInt 0)
  | PyArray a => Ok (PyArray a)
  | PyOther _ => Raise (AttributeError "imag")
  end.

(** [ctypes.c_float(val)] and [ctypes.c_double(val)] for any value. *)
Definition ctypes_c_float (val : pyval) : result cell :=
  match as_float val with
  | Ok x => Ok (c_float x)
  | Raise e => Raise e
  end.

Definition ctypes_c_double (val : pyval) : result cell :=
  match as_float val with
  | Ok x => Ok (c_double x)
  | Raise e => Raise e
  end.

(* ------------------------------------------------------------------ *)
(** ** The argument marshaller                                          *)
(* ------------------------------------------------------------------ *)

(** [for ax in range(val.ndim): kernelargs.append(c_intp(dims[ax]))],
    with [axes] the remaining values of [ax]. *)
Fixpoint append_axes (dims : list Z) (axes : list nat)
    (kernelargs : list cell) : result (list cell) :=
  match axes with
  | [] => Ok kernelargs
  | ax :: axes' =>
      match dims !! ax with
      | Some d => append_axes dims axes' (kernelargs ++ [c_ssize_t d])
      | None => Raise IndexError
      end
  end.

(** [range(n)] *)
Definition range (n : nat) : list nat := seq 0 n.

(** [_unpack_argument(ty, val, kernelargs)]: the branch is chosen by the
    type alone; the result is [kernelargs] after the appends.  A value
    of another class than the type stands for is converted where ctypes
    or Python converts it, and refused where they refuse it. *)
Definition _unpack_argument (ty : argtype) (val : pyval)
    (kernelargs : list cell) : result (list cell) :=
  match ty with
  | Array _ _ _ =>
      match val with
      | PyArray a =>
          let c_intp := c_ssize_t in
          let parent := c_void_p 0 in
          let nitems := c_intp (nd_size a) in
          let itemsize := c_intp (nd_itemsize a) in
          let data := c_void_p (nd_data a) in
          let kernelargs := kernelargs ++ [parent] in
          let kernelargs := kernelargs ++ [nitems] in
          let kernelargs := kernelargs ++ [itemsize] in
          let kernelargs := kernelargs ++ [data] in
          match append_axes (nd_shape a) (range (nd_ndim a)) kernelargs with
          | Ok kernelargs =>
              append_axes (nd_strides a) (range (nd_ndim a)) kernelargs
          | Raise e => Raise e
          end
      | _ => Raise (AttributeError "size")
      end
  | Integer signed w =>
      match as_index val with
      | Ok n => Ok (kernelargs ++ [c_integer signed w n])
      | Raise e => Raise e
      end
  | float64 =>
      match ctypes_c_double val with
      | Ok cval => Ok (kernelargs ++ [cval])
      | Raise e => Raise e
      end
  | float32 =>
      match ctypes_c_float val with
      | Ok cval => Ok (kernelargs ++ [cval])
      | Raise e => Raise e
      end
  | boolean =>
      match py_int val with
      | Ok n => Ok (kernelargs ++ [c_uint8 n])
      | Raise e => Raise e
      end
  | complex64 =>
      match py_real val with
      | Ok re =>
          match ctypes_c_float re with
          | Ok cre =>
              match py_imag val with
              | Ok im =>
                  match ctypes_c_float im with
                  | Ok cim => Ok (kernelargs ++ [cre] ++ [cim])
                  | Raise e => Raise e
                  end
              | Raise e => Raise e
              end
          | Raise e => Raise e
          end
      | Raise e => Raise e
      end
  | complex128 =>
      match py_real val with
      | Ok re =>
          match ctypes_c_double re with
          | Ok cre =>
              match py_imag val with
              | Ok im =>
                  match ctypes_c_double im with
                  | Ok cim => Ok (kernelargs ++ [cre] ++ [cim])
                  | Raise e => Raise e
                  end
              | Raise e => Raise e
              end
          | Raise e => Raise e
          end
      | Raise e => Raise e
      end
  | OtherType _ => Raise (NotImplementedError ty val)
  end.

(** The types [_unpack_argument] has a branch for. *)
Definition supported (ty : argtype) : bool :=
  match ty with
  | OtherType _ => false
  | _ => true
  end.

(** [val] is an instance of the Python class that [ty] is the type of. *)
Definition instance_of (ty : argtype) (val : pyval) : Prop :=
  match ty, val with
  | Array _ ndim _, PyArray a => ndarray_wf a ∧ nd_ndim a = ndim
  | Integer _ _, PyInt _ => True
  | float32, PyFloat _ => True
  | float64, PyFloat _ => True
  | boolean, PyBool _ => True
  | complex64, PyComplex _ _ => True
  | complex128, PyComplex _ _ => True
  | _, _ => False
  end.

(** [_calc_padding_for_alignment(align, base)]: Python's [%] takes the
    sign of the divisor, as [Z.modulo] does, and raises on a zero one. *)
Definition _calc_padding_for_alignment (align base : Z) : result Z :=
  if align =? 0 then Raise ZeroDivisionError
  else
    let rmdr := base mod align in
    if rmdr =? 0 then Ok 0
    else Ok (align - rmdr).

(* ------------------------------------------------------------------ *)
(** ** The store, the collaborators and the trace                       *)
(* ------------------------------------------------------------------ *)

(** A device context is compared by identity only; [ctx.agent] is named
    by the context it belongs to. *)
Definition Context := nat.
Definition Stream := nat.
Definition Binary := list Byte.byte.

Record Region := { region_id : nat; supports_kernargs : bool }.

(** [code_desc], with [code_desc._id.kernarg_segment_byte_size]. *)
Record CodeDesc := {
  cd_program : nat;
  cd_symbol_offset : Z;
  kernarg_segment_byte_size : Z
}.

(** [_CacheEntry = namedtuple(code_desc, program, kernarg_region)] *)
Record _CacheEntry := {
  code_desc : CodeDesc;
  program : nat;
  kernarg_region : Region
}.

(** A [_CachedProgram] object. *)
Record _CachedProgram := {
  _entry_name : string;
  _binary : Binary;
  _cache : gmap Context _CacheEntry
}.

(** The attributes a subclass adds to [HSAKernelBase]; [_cacheprog] and
    [definitions] are references into the store. *)
Inductive kernel_impl :=
| HSAKernel (entry_name : string) (binary : Binary)
    (argument_types : list argtype) (_injectedargsize : Z) (_cacheprog : nat)
| AutoJitHSAKernel (py_func : nat) (definitions : nat).

Record kernel_obj := {
  global_size : list Z;
  local_size : option (list Z);
  stream : option Stream;
  impl : kernel_impl
}.

(** An argument buffer handed out by a kernarg region: its size in
    bytes and the scalars stored into it, each with its byte offset. *)
Record buffer := {
  buf_id : nat;
  buf_size : Z;
  buf_cells : list (Z * cell)
}.

(** What the code asks of its collaborators, in call order. *)
Inductive event :=
| EvLoadModule (binary : Binary)
| EvFindSymbol (symbol : string)
| EvCreateProgram (ctx : Context) (prog : nat)
| EvAddModule (prog : nat)
| EvFinalize (ctx : Context) (prog : nat) (symbol_offset : Z)
| EvKernargRegion (ctx : Context) (r : Region)
| EvAllocate (r : Region) (size : Z) (buf : nat)
| EvDispatch (ctx : Context) (cd : CodeDesc) (kernargs : buffer)
    (workgroup_size : option (list Z)) (grid_size : list Z)
| EvFree (r : Region) (buf : nat)
| EvCompile (py_func : nat) (args : list argtype).

(** The result of the compiler pipeline for one signature. *)
Record CompileResult := {
  cres_name : string;
  cres_llvm_module : string;
  cres_signature_args : list argtype
}.

(** The collaborators: device topology and finalizer, the loader that
    lowers LLVM to the portable binary, the type resolver and the
    compiler pipeline.  Driver calls answer; the resolver and the
    compiler may raise. *)
Class Collaborators := {
  agent_regions : Context → list Region;
  find_symbol_offset : Binary → string → Z;
  finalize_kernarg_size : Binary → Z → Z;
  hlc_finalize : string → string * Binary;
  resolve_argument_type : pyval → result argtype;
  compile_hsa : nat → list argtype → result CompileResult
}.

Record World := {
  objects : list kernel_obj;
  cached_programs : list _CachedProgram;
  tables : list (gmap (list argtype) nat);
  current_context : Context;
  next_handle : nat;
  trace : list event
}.

(** Stateful, fallible code: the store survives a raised exception. *)
Definition M (A : Type) : Type := World → result A * World.

Definition ret {A} (a : A) : M A := fun w => (Ok a, w).
Definition raise {A} (e : exception) : M A := fun w => (Raise e, w).
Definition bind {A B} (m : M A) (k : A → M B) : M B :=
  fun w => match m w with
           | (Ok a, w') => k a w'
           | (Raise e, w') => (Raise e, w')
           end.
Definition lift {A} (r : result A) : M A := fun w => (r, w).

Notation "'let*' x ':=' m 'in' k" := (bind m (fun x => k))
  (at level 10, x pattern, m at level 100, k at level 200).
Notation "m ';;' k" := (bind m (fun _ => k))
  (at level 100, k at level 200, right associativity).

(** A name that denotes no object of the store. *)
Definition unbound {A} : M A := raise ReferenceError.

Definition emit (e : event) : M unit := fun w =>
  (Ok tt, {| objects := objects w; cached_programs := cached_programs w;
             tables := tables w; current_context := current_context w;
             next_handle := next_handle w; trace := trace w ++ [e] |}).

(** A handle the driver has not given out before. *)
Definition fresh_handle : M nat := fun w =>
  (Ok (next_handle w),
   {| objects := objects w; cached_programs := cached_programs w;
      tables := tables w; current_context := current_context w;
      next_handle := S (next_handle w); trace := trace w |}).

Definition get_object (o : nat) : M kernel_obj := fun w =>
  match objects w !! o with
  | Some k => (Ok k, w)
  | None => unbound w
  end.

Definition with_objects (objs : list kernel_obj) (w : World) : World :=
  {| objects := objs; cached_programs := cached_programs w;
     tables := tables w; current_context := current_context w;
     next_handle := next_handle w; trace := trace w |}.

(** Create a new object; its name is the next free index. *)
Definition new_object (k : kernel_obj) : M nat := fun w =>
  (Ok (length (objects w)), with_objects (objects w ++ [k]) w).

(** [o.attr = v], as an update of the object named [o]. *)
Definition update_object (o : nat) (f : kernel_obj → kernel_obj) : M unit :=
  fun w =>
    match objects w !! o with
    | Some k => (Ok tt, with_objects (<[o := f k]> (objects w)) w)
    | None => unbound w
    end.

Definition set_global_size (v : list Z) (k : kernel_obj) : kernel_obj :=
  {| global_size := v; local_size := local_size k; stream := stream k;
     impl := impl k |}.
Definition set_local_size (v : option (list Z)) (k : kernel_obj) : kernel_obj :=
  {| global_size := global_size k; local_size := v; stream := stream k;
     impl := impl k |}.
Definition set_stream (v : option Stream) (k : kernel_obj) : kernel_obj :=
  {| global_size := global_size k; local_size := local_size k; stream := v;
     impl := impl k |}.

(* ------------------------------------------------------------------ *)
(** ** HSAKernelBase: the configuration protocol                        *)
(* ------------------------------------------------------------------ *)

(** A size is given as one number or as a tuple or list of numbers. *)
Inductive size_arg :=
| Scalar (n : Z)
| Sequence (l : list Z).

(** [_ensure_list(val)]: always a list of its own. *)
Definition _ensure_list (val : size_arg) : list Z :=
  match val with
  | Scalar n => [n]
  | Sequence l => l
  end.

(** [range(n, size)] *)
Definition range_from (n size : nat) : list nat := seq n (size - n).

(** [_ensure_size_or_append(val, size)]: the list after the appends. *)
Definition _ensure_size_or_append (val : list Z) (size : nat) : list Z :=
  let n := length val in
  fold_left (fun val _ => val ++ [1]) (range_from n size) val.

Module HSAKernelBase.

(** [HSAKernelBase.__init__], for an object with subclass attributes [i] *)
Definition __init__ (i : kernel_impl) : kernel_obj :=
  {| global_size := [1]; local_size := Some [1]; stream := None; impl := i |}.

(** [self.copy()]: [copy.copy], a new object with the same attribute
    values; what an attribute refers to is shared. *)
Definition copy (self : nat) : M nat :=
  let* k := get_object self in
  new_object k.

(** [tuple(local_size) if local_size else None] *)
Definition tuple_or_None (local_size : option (list Z)) : option (list Z) :=
  match local_size with
  | Some (x :: l) => Some (x :: l)
  | Some [] => None
  | None => None
  end.

(** [self.configure(global_size, local_size=None, stream=None)] *)
Definition configure (self : nat) (global_size : size_arg)
    (local_size : option size_arg) (stream : option Stream) : M nat :=
  let global_size := _ensure_list global_size in
  let '(global_size, local_size) :=
    match local_size with
    | Some local_size =>
        let local_size := _ensure_list local_size in
        let size := Nat.max (length global_size) (length local_size) in
        (_ensure_size_or_append global_size size,
         Some (_ensure_size_or_append local_size size))
    | None => (global_size, None)
    end in
  let* clone := copy self in
  update_object clone (set_global_size global_size) ;;
  update_object clone (set_local_size (tuple_or_None local_size)) ;;
  update_object clone (set_stream stream) ;;
  ret clone.

(** [self.configure(gs, blockdim, *rest)]: [rest] fills [stream]; there
    is no fifth positional parameter. *)
Definition configure_star (self : nat) (gs blockdim : list Z)
    (rest : list (option Stream)) : M nat :=
  match rest with
  | [] => configure self (Sequence gs) (Some (Sequence blockdim)) None
  | [s] => configure self (Sequence gs) (Some (Sequence blockdim)) s
  | _ => raise (TypeError "configure() takes at most 4 positional arguments")
  end.

(** [self[args]] with [args = (griddim, blockdim) + rest]. *)
Definition __getitem__ (self : nat) (griddim blockdim : size_arg)
    (rest : list (option Stream)) : M nat :=
  let griddim := _ensure_list griddim in
  let blockdim := _ensure_list blockdim in
  let size := Nat.max (length griddim) (length blockdim) in
  let griddim := _ensure_size_or_append griddim size in
  let blockdim := _ensure_size_or_append blockdim size in
  let gs := zip_with Z.mul griddim blockdim in
  configure_star self gs blockdim rest.

End HSAKernelBase.

(* ------------------------------------------------------------------ *)
(** ** _CachedProgram: the finalized-program cache                      *)
(* ------------------------------------------------------------------ *)

(** [devices.get_context()]: the context that is active now. *)
Definition get_context : M Context := fun w => (Ok (current_context w), w).

(** The driver makes [ctx] the active context. *)
Definition set_context (ctx : Context) (w : World) : World :=
  {| objects := objects w; cached_programs := cached_programs w;
     tables := tables w; current_context := ctx;
     next_handle := next_handle w; trace := trace w |}.

Definition with_cached_programs (cps : list _CachedProgram) (w : World)
    : World :=
  {| objects := objects w; cached_programs := cps;
     tables := tables w; current_context := current_context w;
     next_handle := next_handle w; trace := trace w |}.

Definition get_cached_program (c : nat) : M _CachedProgram := fun w =>
  match cached_programs w !! c with
  | Some cp => (Ok cp, w)
  | None => unbound w
  end.

Module _CachedProgram.

(** [_CachedProgram(entry_name, binary)] *)
Definition __init__ (entry_name : string) (binary : Binary) : M nat :=
  fun w =>
    (Ok (length (cached_programs w)),
     with_cached_programs
       (cached_programs w ++
        [{| _entry_name := entry_name; _binary := binary; _cache := ∅ |}]) w).

(** [self._cache[ctx] = result] *)
Definition cache_store (self : nat) (ctx : Context) (result : _CacheEntry)
    : M unit :=
  fun w =>
    match cached_programs w !! self with
    | Some cp =>
        (Ok tt,
         with_cached_programs
           (<[self := {| _entry_name := _entry_name cp;
                         _binary := _binary cp;
                         _cache := <[ctx := result]> (_cache cp) |}]>
              (cached_programs w)) w)
    | None => unbound w
    end.

(** [self.get()] *)
Definition get `{Collaborators} (self : nat) : M (Context * _CacheEntry) :=
  let* ctx := get_context in
  let* cp := get_cached_program self in
  match _cache cp !! ctx with
  | Some result => ret (ctx, result)
  | None =>
      let symbol := "&" +:+ _entry_name cp in
      emit (EvLoadModule (_binary cp)) ;;
      emit (EvFindSymbol symbol) ;;
      let symbol_offset := find_symbol_offset (_binary cp) symbol in
      let* program := fresh_handle in
      emit (EvCreateProgram ctx program) ;;
      emit (EvAddModule program) ;;
      emit (EvFinalize ctx program symbol_offset) ;;
      let code_desc :=
        {| cd_program := program; cd_symbol_offset := symbol_offset;
           kernarg_segment_byte_size :=
             finalize_kernarg_size (_binary cp) symbol_offset |} in
      match List.filter supports_kernargs (agent_regions ctx) with
      | kernarg_region :: _ =>
          emit (EvKernargRegion ctx kernarg_region) ;;
          let result :=
            {| code_desc := code_desc; program := program;
               kernarg_region := kernarg_region |} in
          cache_store self ctx result ;;
          ret (ctx, result)
      | [] => raise IndexError
      end
  end.

End _CachedProgram.

(* ------------------------------------------------------------------ *)
(** ** HSAKernel: bind, marshal, dispatch                               *)
(* ------------------------------------------------------------------ *)

(** [asptr[0] = av] at byte offset [offset] of the buffer; ctypes checks
    no bound. *)
Definition buffer_write (kernargs : buffer) (offset : Z) (av : cell)
    : buffer :=
  {| buf_id := buf_id kernargs; buf_size := buf_size kernargs;
     buf_cells := buf_cells kernargs ++ [(offset, av)] |}.

(** [region.allocate(ctypes.c_byte * size)] *)
Definition allocate (r : Region) (size : Z) : M buffer :=
  if size <? 0 then raise (ValueError "Array length must be >= 0")
  else
    let* id := fresh_handle in
    emit (EvAllocate r size id) ;;
    ret {| buf_id := id; buf_size := size; buf_cells := [] |}.

(** The loop of [__call__] that expands the arguments:
    [for ty, val in zip(self.argument_types, args)]. *)
Fixpoint unpack_arguments (typed_args : list (argtype * pyval))
    (expanded_values : list cell) : result (list cell) :=
  match typed_args with
  | [] => Ok expanded_values
  | (ty, val) :: typed_args' =>
      match _unpack_argument ty val expanded_values with
      | Ok expanded_values => unpack_arguments typed_args' expanded_values
      | Raise e => Raise e
      end
  end.

(** The loop of [__call__] that stores the scalars: the offset reached
    and the buffer after the stores. *)
Fixpoint insert_arguments (expanded_values : list cell) (base : Z)
    (kernargs : buffer) : result (Z * buffer) :=
  match expanded_values with
  | [] => Ok (base, kernargs)
  | av :: expanded_values' =>
      let align := sizeof av in
      match _calc_padding_for_alignment align base with
      | Ok pad =>
          let base := base + pad in
          let kernargs := buffer_write kernargs base av in
          let base := base + align in
          insert_arguments expanded_values' base kernargs
      | Raise e => Raise e
      end
  end.

Module HSAKernel.

Definition INJECTED_NARG : nat := 6.

(** [HSAKernel(llvm_module, name, argtypes)] *)
Definition __init__ `{Collaborators} (llvm_module name : string)
    (argtypes : list argtype) : M nat :=
  let '(assembly, binary) := hlc_finalize llvm_module in
  let _injectedargsize := Z.of_nat INJECTED_NARG * sizeof_void_p in
  let* _cacheprog := _CachedProgram.__init__ name binary in
  new_object
    (HSAKernelBase.__init__
       (HSAKernel name binary argtypes _injectedargsize _cacheprog)).

(** [for i in range(self.INJECTED_NARG): injectargs[i] = 0] *)
Definition inject_header (kernargs : buffer) : buffer :=
  fold_left
    (fun kernargs i =>
       buffer_write kernargs (Z.of_nat i * sizeof_void_p) (c_void_p 0))
    (range INJECTED_NARG) kernargs.

(** [self.bind()] *)
Definition bind `{Collaborators} (self : nat)
    : M (Context * CodeDesc * buffer * Region) :=
  let* k := get_object self in
  match impl k with
  | HSAKernel _ _ _ _ _cacheprog =>
      let* (ctx, entry) := _CachedProgram.get _cacheprog in
      let* kernargs :=
        allocate (kernarg_region entry)
                 (kernarg_segment_byte_size (code_desc entry)) in
      let kernargs := inject_header kernargs in
      ret (ctx, code_desc entry, kernargs, kernarg_region entry)
  | AutoJitHSAKernel _ _ => raise (AttributeError "bind")
  end.

(** [self.__call__(args)] *)
Definition __call__ `{Collaborators} (self : nat) (args : list pyval)
    : M unit :=
  let* k := get_object self in
  match impl k with
  | HSAKernel _ _ argument_types _injectedargsize _ =>
      let* (ctx, code_desc, kernargs, kernarg_region) := bind self in
      let* expanded_values :=
        lift (unpack_arguments (zip argument_types args) []) in
      let base := _injectedargsize in
      let* (base, kernargs) :=
        lift (insert_arguments expanded_values base kernargs) in
      if base =? buf_size kernargs then
        emit (EvDispatch ctx code_desc kernargs (local_size k)
                (global_size k)) ;;
        emit (EvFree kernarg_region (buf_id kernargs))
      else raise (AssertionError "Kernel argument size is invalid")
  | AutoJitHSAKernel _ _ => raise (AttributeError "bind")
  end.

End HSAKernel.

(** [compile_kernel(pyfunc, args)] *)
Definition compile_kernel `{Collaborators} (pyfunc : nat)
    (args : list argtype) : M nat :=
  emit (EvCompile pyfunc args) ;;
  let* cres := lift (compile_hsa pyfunc args) in
  HSAKernel.__init__ (cres_llvm_module cres) (cres_name cres)
    (cres_signature_args cres).

(* ------------------------------------------------------------------ *)
(** ** AutoJitHSAKernel: the specialization table                       *)
(* ------------------------------------------------------------------ *)

Definition with_tables (ts : list (gmap (list argtype) nat)) (w : World)
    : World :=
  {| objects := objects w; cached_programs := cached_programs w;
     tables := ts; current_context := current_context w;
     next_handle := next_handle w; trace := trace w |}.

Definition get_table (d : nat) : M (gmap (list argtype) nat) := fun w =>
  match tables w !! d with
  | Some t => (Ok t, w)
  | None => unbound w
  end.

(** [[self.typingctx.resolve_argument_type(a) for a in args]] *)
Fixpoint resolve_argument_types `{Collaborators} (args : list pyval)
    : result (list argtype) :=
  match args with
  | [] => Ok []
  | a :: args' =>
      match resolve_argument_type a with
      | Ok ty =>
          match resolve_argument_types args' with
          | Ok tys => Ok (ty :: tys)
          | Raise e => Raise e
          end
      | Raise e => Raise e
      end
  end.

Module AutoJitHSAKernel.

(** [AutoJitHSAKernel(func)] *)
Definition __init__ (func : nat) : M nat :=
  let* definitions :=
    (fun w => (Ok (length (tables w)), with_tables (tables w ++ [∅]) w)) in
  new_object (HSAKernelBase.__init__ (AutoJitHSAKernel func definitions)).

(** [self.definitions[argtypes] = kernel] *)
Definition definitions_store (definitions : nat) (argtypes : list argtype)
    (kernel : nat) : M unit :=
  fun w =>
    match tables w !! definitions with
    | Some t =>
        (Ok tt,
         with_tables (<[definitions := <[argtypes := kernel]> t]> (tables w))
                     w)
    | None => unbound w
    end.

(** [self.specialize(args)] *)
Definition specialize `{Collaborators} (self : nat) (args : list pyval)
    : M nat :=
  let* k := get_object self in
  match impl k with
  | AutoJitHSAKernel py_func definitions =>
      let* argtypes := lift (resolve_argument_types args) in
      let* table := get_table definitions in
      match table !! argtypes with
      | Some kernel => ret kernel
      | None =>
          let* kernel := compile_kernel py_func argtypes in
          definitions_store definitions argtypes kernel ;;
          ret kernel
      end
  | HSAKernel _ _ _ _ _ => raise (AttributeError "specialize")
  end.

(** [self.__call__(args)] *)
Definition __call__ `{Collaborators} (self : nat) (args : list pyval)
    : M unit :=
  let* kernel := specialize self args in
  let* k := get_object self in
  let* cfg :=
    HSAKernelBase.configure kernel (Sequence (global_size k))
      (Sequence <$> local_size k) (stream k) in
  HSAKernel.__call__ cfg args.

End AutoJitHSAKernel.

(* ------------------------------------------------------------------ *)
(** ** Runs and observations                                            *)
(* ------------------------------------------------------------------ *)

(** Right-padding with ones up to [size] entries. *)
Definition pad_ones (val : list Z) (size : nat) : list Z :=
  val ++ replicate (size - length val) 1.

(** The scalars an array argument expands to. *)
Definition array_cells (a : ndarray) : list cell :=
  [c_void_p 0; c_ssize_t (nd_size a); c_ssize_t (nd_itemsize a);
   c_void_p (nd_data a)]
  ++ (c_ssize_t <$> nd_shape a) ++ (c_ssize_t <$> nd_strides a).

(** A reconfiguration request, made on any object of the store. *)
Inductive config_op :=
| OpConfigure (target : nat) (global_size : size_arg)
    (local_size : option size_arg) (stream : option Stream)
| OpGetitem (target : nat) (griddim blockdim : size_arg)
    (rest : list (option Stream)).

Definition run_config_op (op : config_op) : M nat :=
  match op with
  | OpConfigure target gs ls st => HSAKernelBase.configure target gs ls st
  | OpGetitem target g b rest => HSAKernelBase.__getitem__ target g b rest
  end.

(** The requests are made one after the other; a request that raises
    does not stop the caller from making the next one. *)
Fixpoint run_config_ops (ops : list config_op) (w : World) : World :=
  match ops with
  | [] => w
  | op :: ops' => run_config_ops ops' (run_config_op op w).2
  end.

(** The attribute values of the clone that [configure] hands back when
    called on an object with attribute values [k]. *)
Definition configured (k : kernel_obj) (global_size : size_arg)
    (local_size : option size_arg) (stream : option Stream) : kernel_obj :=
  let gs := _ensure_list global_size in
  match local_size with
  | Some local_size =>
      let ls := _ensure_list local_size in
      let size := Nat.max (length gs) (length ls) in
      {| global_size := pad_ones gs size;
         local_size := HSAKernelBase.tuple_or_None (Some (pad_ones ls size));
         stream := stream; impl := impl k |}
  | None =>
      {| global_size := gs; local_size := None; stream := stream;
         impl := impl k |}
  end.

(** What C6 asks of one call with both sizes given: the clone stores
    both sizes padded with ones to the larger rank. *)
Definition stores_both_padded (w : World) (self : nat)
    (gsize lsize : size_arg) (st : option Stream) : Prop :=
  let gs := _ensure_list gsize in
  let ls := _ensure_list lsize in
  let size := Nat.max (length gs) (length ls) in
  ∀ clone w',
    HSAKernelBase.configure self gsize (Some lsize) st w = (Ok clone, w') →
    ∃ k, objects w' !! clone = Some k ∧
         global_size k = pad_ones gs size ∧
         local_size k = Some (pad_ones ls size).

(** A store holding one freshly built kernel object. *)
Definition one_kernel_world : World :=
  {| objects :=
       [HSAKernelBase.__init__ (HSAKernel "k" [] [float64] 48 0)];
     cached_programs :=
       [{| _entry_name := "k"; _binary := []; _cache := ∅ |}];
     tables := []; current_context := 1%nat; next_handle := 0;
     trace := [] |}.

(** The entry a [_CachedProgram] object holds for a context. *)
Definition cache_entry (w : World) (c : nat) (ctx : Context)
    : option _CacheEntry :=
  match cached_programs w !! c with
  | Some cp => _cache cp !! ctx
  | None => None
  end.

(** [program.finalize] called for the agent of [ctx]. *)
Definition is_finalize (ctx : Context) (e : event) : bool :=
  match e with
  | EvFinalize ctx' _ _ => Nat.eqb ctx' ctx
  | _ => false
  end.

(** The last step of the finalization sequence done for [ctx]. *)
Definition is_kernarg_region (ctx : Context) (e : event) : bool :=
  match e with
  | EvKernargRegion ctx' _ => Nat.eqb ctx' ctx
  | _ => false
  end.

Definition is_dispatch (e : event) : bool :=
  match e with
  | EvDispatch _ _ _ _ _ => true
  | _ => false
  end.

Definition count_events (p : event → bool) (tr : list event) : nat :=
  length (List.filter p tr).

(** How often [program.finalize] was called for [ctx], and how often
    the finalization sequence was carried through for [ctx]. *)
Definition finalize_calls (ctx : Context) (tr : list event) : nat :=
  count_events (is_finalize ctx) tr.
Definition completed_finalizations (ctx : Context) (tr : list event) : nat :=
  count_events (is_kernarg_region ctx) tr.

(** What was added to the trace between [w] and [w']. *)
Definition new_events (w w' : World) : list event :=
  drop (length (trace w)) (trace w').

Definition has_kernarg_region `{Collaborators} (ctx : Context) : bool :=
  existsb supports_kernargs (agent_regions ctx).

(** [self.get()] called again and again, the driver having made the
    listed contexts active in turn; a call that raises does not stop
    the caller from calling again. *)
Fixpoint run_gets `{Collaborators} (self : nat) (ctxs : list Context)
    (w : World) : World :=
  match ctxs with
  | [] => w
  | ctx :: ctxs' =>
      run_gets self ctxs' (_CachedProgram.get self (set_context ctx w)).2
  end.

(** What C2 asks of any number of [get] calls: [program.finalize] has
    run at most once for each context. *)
Definition finalizes_at_most_once `{Collaborators} (self : nat)
    (ctxs : list Context) (w : World) : Prop :=
  ∀ ctx,
    (finalize_calls ctx (new_events w (run_gets self ctxs w)) ≤ 1)%nat.

(** The trace grew by [new] between [w] and [w'], and over that stretch
    the cache [c] finalized each context at most once: entries are kept,
    a context that had an entry was not finalized again, and a context
    that was finalized has an entry afterwards. *)
Record at_most_once `{Collaborators} (c : nat) (w w' : World)
    (new : list event) : Prop := {
  amo_trace : trace w' = trace w ++ new;
  amo_keep : ∀ ctx e,
    cache_entry w c ctx = Some e → cache_entry w' c ctx = Some e;
  amo_hit : ∀ ctx,
    is_Some (cache_entry w c ctx) →
    completed_finalizations ctx new = 0%nat ∧ finalize_calls ctx new = 0%nat;
  amo_completed : ∀ ctx,
    (completed_finalizations ctx new ≤ 1)%nat ∧
    (completed_finalizations ctx new = 1%nat →
     is_Some (cache_entry w' c ctx));
  amo_finalize : ∀ ctx,
    has_kernarg_region ctx = true →
    (finalize_calls ctx new ≤ 1)%nat ∧
    (finalize_calls ctx new = 1%nat → is_Some (cache_entry w' c ctx))
}.

(** The driver calls of one finalization, up to [program.finalize]. *)
Definition finalization_events (cp : _CachedProgram) (ctx : Context)
    (prog : nat) (symbol_offset : Z) : list event :=
  [EvLoadModule (_binary cp); EvFindSymbol ("&" +:+ _entry_name cp);
   EvCreateProgram ctx prog; EvAddModule prog;
   EvFinalize ctx prog symbol_offset].

(** The entry that finalizing [cp] yields when the driver hands out
    program handle [prog] and [r] is the kernarg region chosen. *)
Definition finalized_entry `{Collaborators} (cp : _CachedProgram)
    (prog : nat) (r : Region) : _CacheEntry :=
  let symbol_offset :=
    find_symbol_offset (_binary cp) ("&" +:+ _entry_name cp) in
  {| code_desc :=
       {| cd_program := prog; cd_symbol_offset := symbol_offset;
          kernarg_segment_byte_size :=
            finalize_kernarg_size (_binary cp) symbol_offset |};
     program := prog; kernarg_region := r |}.

(** [cp] with [entry] stored for [ctx]. *)
Definition with_entry (cp : _CachedProgram) (ctx : Context)
    (entry : _CacheEntry) : _CachedProgram :=
  {| _entry_name := _entry_name cp; _binary := _binary cp;
     _cache := <[ctx := entry]> (_cache cp) |}.

(** Sample collaborators: context [0] has an agent without a kernarg
    region, any other context an agent whose second region takes kernel
    arguments; every kernel reports a 56-byte argument segment (the
    48-byte header and one 8-byte scalar). *)
Definition sample_collaborators : Collaborators := {|
  agent_regions := fun ctx =>
    match ctx with
    | O => [{| region_id := 0; supports_kernargs := false |}]
    | _ => [{| region_id := 0; supports_kernargs := false |};
            {| region_id := 1; supports_kernargs := true |}]
    end;
  find_symbol_offset := fun _ _ => 16;
  finalize_kernarg_size := fun _ _ => 56;
  hlc_finalize := fun _ => ("", []);
  resolve_argument_type := fun v =>
    match v with
    | PyInt _ => Ok (Integer true W64)
    | PyFloat _ => Ok float64
    | PyBool _ => Ok boolean
    | _ => Raise (CollaboratorFault "UnresolvedType")
    end;
  compile_hsa := fun _ args =>
    Ok {| cres_name := "k"; cres_llvm_module := "";
          cres_signature_args := args |}
|}.

(** The world after [region.allocate] handed out the next handle. *)
Definition after_allocate (r : Region) (size : Z) (w : World) : World :=
  {| objects := objects w; cached_programs := cached_programs w;
     tables := tables w; current_context := current_context w;
     next_handle := S (next_handle w);
     trace := trace w ++ [EvAllocate r size (next_handle w)] |}.

(** The buffer [bind] returns: fresh, with the header zeroed. *)
Definition bound_buffer (id : nat) (size : Z) : buffer :=
  HSAKernel.inject_header {| buf_id := id; buf_size := size; buf_cells := [] |}.

(** The injected header: [INJECTED_NARG] zeroed pointers, one after the
    other from byte 0 on. *)
Definition header_cells : list (Z * cell) :=
  (λ i : nat, (Z.of_nat i * sizeof_void_p, c_void_p 0))
    <$> range HSAKernel.INJECTED_NARG.

(** The world after a successful launch made from [w]. *)
Definition after_dispatch (ctx : Context) (cd : CodeDesc) (kernargs : buffer)
    (k : kernel_obj) (r : Region) (w : World) : World :=
  {| objects := objects w; cached_programs := cached_programs w;
     tables := tables w; current_context := current_context w;
     next_handle := next_handle w;
     trace := trace w
              ++ [EvDispatch ctx cd kernargs (local_size k) (global_size k);
                  EvFree r (buf_id kernargs)] |}.

(** What is done with one kernel and its clones: the [member]-th object
    of the family (the kernel itself is member [0], every clone made on
    the way joins at the end) is reconfigured, bound or called, the
    driver having made [ctx] the active context. *)
Inductive kernel_op :=
| KConfigure (member : nat) (global_size : size_arg)
    (local_size : option size_arg) (stream : option Stream)
| KGetitem (member : nat) (griddim blockdim : size_arg)
    (rest : list (option Stream))
| KBind (member : nat) (ctx : Context)
| KCall (member : nat) (ctx : Context) (args : list pyval).

(** A reconfiguration that returns adds its clone to the family. *)
Definition join (family : list nat) (r : result nat * World)
    : list nat * World :=
  match r with
  | (Ok clone, w') => (family ++ [clone], w')
  | (Raise _, w') => (family, w')
  end.

Definition run_kernel_op `{Collaborators} (op : kernel_op)
    (family : list nat) (w : World) : list nat * World :=
  match op with
  | KConfigure m gs ls st =>
      match family !! m with
      | Some o => join family (HSAKernelBase.configure o gs ls st w)
      | None => (family, w)
      end
  | KGetitem m g b rest =>
      match family !! m with
      | Some o => join family (HSAKernelBase.__getitem__ o g b rest w)
      | None => (family, w)
      end
  | KBind m ctx =>
      match family !! m with
      | Some o => (family, (HSAKernel.bind o (set_context ctx w)).2)
      | None => (family, w)
      end
  | KCall m ctx args =>
      match family !! m with
      | Some o => (family, (HSAKernel.__call__ o args (set_context ctx w)).2)
      | None => (family, w)
      end
  end.

Fixpoint run_kernel_ops `{Collaborators} (ops : list kernel_op)
    (family : list nat) (w : World) : list nat * World :=
  match ops with
  | [] => (family, w)
  | op :: ops' =>
      let '(family', w') := run_kernel_op op family w in
      run_kernel_ops ops' family' w'
  end.

(** What C10 asks of a kernel and its clones: whatever is done with
    them, [program.finalize] has run at most once for each context. *)
Definition family_finalizes_at_most_once `{Collaborators} (self : nat)
    (ops : list kernel_op) (w : World) : Prop :=
  ∀ ctx,
    (finalize_calls ctx (new_events w (run_kernel_ops ops [self] w).2)
     ≤ 1)%nat.

(** The object named [o] is a kernel object holding the cache [c]. *)
Definition holds_cache (w : World) (c : nat) (o : nat) : Prop :=
  ∃ k n b tys inj,
    objects w !! o = Some k ∧ impl k = HSAKernel n b tys inj c.

(** The kernel object the specialization table [d] holds for a
    signature. *)
Definition table_lookup (w : World) (d : nat) (sig : list argtype)
    : option nat :=
  match tables w !! d with
  | Some t => t !! sig
  | None => None
  end.

(** The table holds objects of the store, and holds none of them under
    two signatures. *)
Definition table_wf (w : World) (d : nat) : Prop :=
  is_Some (tables w !! d) ∧
  (∀ sig k, table_lookup w d sig = Some k → (k < length (objects w))%nat) ∧
  (∀ sig1 sig2 k,
     table_lookup w d sig1 = Some k → table_lookup w d sig2 = Some k →
     sig1 = sig2).

(** The compiler pipeline was asked for signature [sig]. *)
Definition is_compile (sig : list argtype) (e : event) : bool :=
  match e with
  | EvCompile _ args => bool_decide (args = sig)
  | _ => false
  end.

(** [self.specialize] called with one argument list after the other. *)
Fixpoint run_specialize `{Collaborators} (self : nat)
    (calls : list (list pyval)) (w : World) : World :=
  match calls with
  | [] => w
  | args :: calls' =>
      run_specialize self calls' (AutoJitHSAKernel.specialize self args w).2
  end.

(** The world after [compile_kernel] has built a kernel object from
    [cres] and [specialize] has entered it in table [d] under [sig]. *)
Definition after_compile `{Collaborators} (f d : nat) (sig : list argtype)
    (t : gmap (list argtype) nat) (cres : CompileResult) (w : World)
    : World :=
  {| objects :=
       objects w ++
       [HSAKernelBase.__init__
          (HSAKernel (cres_name cres)
             (hlc_finalize (cres_llvm_module cres)).2
             (cres_signature_args cres)
             (Z.of_nat HSAKernel.INJECTED_NARG * sizeof_void_p)
             (length (cached_programs w)))];
     cached_programs :=
       cached_programs w ++
       [{| _entry_name := cres_name cres;
           _binary := (hlc_finalize (cres_llvm_module cres)).2;
           _cache := ∅ |}];
     tables := <[d := <[sig := length (objects w)]> t]> (tables w);
     current_context := current_context w;
     next_handle := next_handle w;
     trace := trace w ++ [EvCompile f sig] |}.

Definition is_allocate (e : event) : bool :=
  match e with
  | EvAllocate _ _ _ => true
  | _ => false
  end.

(** What C5 asks of a call that stops at an argument without a packing
    rule: no argument buffer was allocated on the way. *)
Definition unsupported_call_allocates_nothing `{Collaborators} (w : World)
    (self : nat) (args : list pyval) : Prop :=
  ∀ ty val,
    (HSAKernel.__call__ self args w).1 = Raise (NotImplementedError ty val) →
    count_events is_allocate
      (new_events w (HSAKernel.__call__ self args w).2) = 0%nat.

(** A store holding one kernel object declared with a tuple argument. *)
Definition tuple_kernel_world : World :=
  with_objects
    [HSAKernelBase.__init__
       (HSAKernel "k" [] [OtherType "UniTuple(int64 x 2)"] 48 0)]
    one_kernel_world.

(* ------------------------------------------------------------------ *)
(** ** Teardown, and further observations                               *)
(* ------------------------------------------------------------------ *)

(** What [__del__] asks of the driver. *)
Inductive teardown_event :=
| EvRelease (prog : nat).

(** [_CachedProgram.__del__]:
    [for ent in self._cache.values(): ent.program.release()].  The
    entries are visited in the order of the dictionary, which is taken
    to be the order of [map_to_list]. *)
Definition _CachedProgram__del__ (self : nat) (w : World)
    : result (list teardown_event) :=
  match cached_programs w !! self with
  | Some cp => Ok ((λ ent, EvRelease (program ent.2)) <$> map_to_list (_cache cp))
  | None => Raise ReferenceError
  end.

Definition is_free (e : event) : bool :=
  match e with
  | EvFree _ _ => true
  | _ => false
  end.

Definition is_create_program (e : event) : bool :=
  match e with
  | EvCreateProgram _ _ => true
  | _ => false
  end.

(** The bytes a list of scalars occupies without padding. *)
Definition total_size (cells : list cell) : Z :=
  foldr (λ av acc, sizeof av + acc) 0 cells.

(** Scalars stored one after the other from [start] on: each begins at
    the first multiple of its size at or after the end of the one
    before, and [stop] is the end of the last. *)
Fixpoint well_placed (start : Z) (stored : list (Z * cell)) (stop : Z)
    : Prop :=
  match stored with
  | [] => stop = start
  | (offset, av) :: stored' =>
      start ≤ offset < start + sizeof av ∧
      offset mod sizeof av = 0 ∧
      well_placed (offset + sizeof av) stored' stop
  end.

(** How many scalars, and how many bytes of scalars, an argument of a
    supported type expands to. *)
Definition packed_count (ty : argtype) : nat :=
  match ty with
  | Array _ ndim _ => 4 + 2 * ndim
  | complex64 | complex128 => 2
  | OtherType _ => 0
  | _ => 1
  end%nat.

Definition packed_bytes (ty : argtype) : Z :=
  match ty with
  | Array _ ndim _ => sizeof_void_p * Z.of_nat (4 + 2 * ndim)
  | Integer _ w => bitwidth_bytes w
  | float32 => 4
  | float64 => 8
  | boolean => 1
  | complex64 => 8
  | complex128 => 16
  | OtherType _ => 0
  end.

(** The entries of the cache [c] come from finalizations made by the
    driver of this world: each holds a program handle the driver has
    given out, the code descriptor of that program, and the first
    region of the context's agent that takes kernel arguments; no
    program serves two contexts. *)
Definition cache_wf `{Collaborators} (w : World) (c : nat) : Prop :=
  (∀ ctx e,
     cache_entry w c ctx = Some e →
     (program e < next_handle w)%nat ∧
     cd_program (code_desc e) = program e ∧
     head (List.filter supports_kernargs (agent_regions ctx)) =
       Some (kernarg_region e)) ∧
  (∀ ctx1 ctx2 e1 e2,
     cache_entry w c ctx1 = Some e1 → cache_entry w c ctx2 = Some e2 →
     program e1 = program e2 → ctx1 = ctx2).

(** Events that neither allocate, nor free, nor dispatch. *)
Definition quiet (tr : list event) : Prop :=
  Forall (λ e, is_allocate e = false ∧ is_free e = false ∧
               is_dispatch e = false) tr.

(** The kernel object [compile_kernel] builds from the pipeline's result
    when [c] is the name of its new cache. *)
Definition compiled_kernel `{Collaborators} (cres : CompileResult) (c : nat)
    : kernel_obj :=
  HSAKernelBase.__init__
    (HSAKernel (cres_name cres) (hlc_finalize (cres_llvm_module cres)).2
       (cres_signature_args cres)
       (Z.of_nat HSAKernel.INJECTED_NARG * sizeof_void_p) c).

(** The world after [compile_kernel] returned. *)
Definition after_compile_kernel `{Collaborators} (f : nat)
    (sig : list argtype) (cres : CompileResult) (w : World) : World :=
  {| objects :=
       objects w ++ [compiled_kernel cres (length (cached_programs w))];
     cached_programs :=
       cached_programs w ++
       [{| _entry_name := cres_name cres;
           _binary := (hlc_finalize (cres_llvm_module cres)).2;
           _cache := ∅ |}];
     tables := tables w;
     current_context := current_context w;
     next_handle := next_handle w;
     trace := trace w ++ [EvCompile f sig] |}.

(** The pipeline was asked to compile. *)
Definition is_compile_request (e : event) : bool :=
  match e with
  | EvCompile _ _ => true
  | _ => false
  end.

(** Collaborators like the sample ones, except that the compiler
    pipeline rejects a kernel with a boolean first argument. *)
Definition rejecting_collaborators : Collaborators := {|
  agent_regions := agent_regions (Collaborators := sample_collaborators);
  find_symbol_offset :=
    find_symbol_offset (Collaborators := sample_collaborators);
  finalize_kernarg_size :=
    finalize_kernarg_size (Collaborators := sample_collaborators);
  hlc_finalize := hlc_finalize (Collaborators := sample_collaborators);
  resolve_argument_type :=
    resolve_argument_type (Collaborators := sample_collaborators);
  compile_hsa := fun f args =>
    match args with
    | boolean :: _ => Raise (CollaboratorFault "TypingError")
    | _ => compile_hsa (Collaborators := sample_collaborators) f args
    end
|}.

(* ------------------------------------------------------------------ *)
(** ** The padding function                                             *)
(* ------------------------------------------------------------------ *)

Lemma calc_padding_nonzero (align base : Z) :
  align ≠ 0 →
  _calc_padding_for_alignment align base =
    Ok (if base mod align =? 0 then 0 else align - base mod align).
Proof.
  intros Ha. unfold _calc_padding_for_alignment.
  destruct (Z.eqb_spec align 0) as [->|_]; [contradiction|].
  now destruct (base mod align =? 0).
Qed.

(** The padded offset is a multiple of the alignment, and the padding is
    the least one that achieves it. *)
Lemma calc_padding_aligns (align base pad : Z) :
  0 < align →
  _calc_padding_for_alignment align base = Ok pad →
  (base + pad) mod align = 0 ∧ 0 ≤ pad < align.
Proof.
  intros Ha. rewrite calc_padding_nonzero by lia.
  pose proof (Z.mod_pos_bound base align Ha) as Hb.
  destruct (Z.eqb_spec (base mod align) 0) as [E|E]; intros [= <-].
  - rewrite Z.add_0_r. split; [exact E | lia].
  - split; [|lia].
    replace (base + (align - base mod align))
      with (base - base mod align + 1 * align) by lia.
    rewrite Z.mod_add by lia.
    rewrite Zminus_mod, Zmod_mod, Z.sub_diag. apply Zmod_0_l.
Qed.

(** C3: for a positive alignment [a] and a non-negative offset [b] the
    padding is [0] when [b mod a = 0] and [a - b mod a] otherwise; so
    [pad(8, 3) = 5], [pad(4, 8) = 0], and [pad(1, x) = 0] for every [x]. *)
Theorem calc_padding_for_alignment_spec (a b : Z) :
  0 < a → 0 ≤ b →
  _calc_padding_for_alignment a b =
    Ok (if b mod a =? 0 then 0 else a - b mod a)
  ∧ _calc_padding_for_alignment 8 3 = Ok 5
  ∧ _calc_padding_for_alignment 4 8 = Ok 0
  ∧ ∀ x, _calc_padding_for_alignment 1 x = Ok 0.
Proof.
  intros Ha _. split; [apply calc_padding_nonzero; lia|].
  split; [reflexivity|]. split; [reflexivity|].
  intros x. rewrite calc_padding_nonzero by lia.
  now rewrite Z.mod_1_r.
Qed.

Lemma calc_padding_for_alignment_spec_witness :
  0 < 8 ∧ 0 ≤ 11 ∧ _calc_padding_for_alignment 8 11 = Ok 5.
Proof.
  split; [lia|]. split; [lia|].
  destruct (calc_padding_for_alignment_spec 8 11) as [H _]; [lia|lia|].
  exact H.
Defined.

(* ------------------------------------------------------------------ *)
(** ** The argument marshaller                                          *)
(* ------------------------------------------------------------------ *)

(** The loop over the axes copies the extents from axis [i] on. *)
Lemma append_axes_seq (dims : list Z) (n i : nat) (kernelargs : list cell) :
  (i + n)%nat = length dims →
  append_axes dims (seq i n) kernelargs =
    Ok (kernelargs ++ (c_ssize_t <$> drop i dims)).
Proof.
  revert i kernelargs.
  induction n as [|n IH]; intros i kernelargs Hlen; simpl.
  - rewrite drop_ge by lia. now rewrite app_nil_r.
  - destruct (lookup_lt_is_Some_2 dims i) as [d Hd]; [lia|].
    rewrite Hd, IH by lia.
    rewrite (drop_S _ _ _ Hd), fmap_cons, <- app_assoc. reflexivity.
Qed.

Lemma append_axes_range (dims : list Z) (kernelargs : list cell) :
  append_axes dims (range (length dims)) kernelargs =
    Ok (kernelargs ++ (c_ssize_t <$> dims)).
Proof. unfold range. now rewrite append_axes_seq. Qed.

Lemma unpack_array (dtype : argtype) (r : nat) (layout : string)
    (a : ndarray) (kernelargs : list cell) :
  ndarray_wf a →
  _unpack_argument (Array dtype r layout) (PyArray a) kernelargs =
    Ok (kernelargs ++ array_cells a).
Proof.
  intros [Hshape Hstrides]. simpl.
  rewrite <- Hshape at 1. rewrite append_axes_range.
  rewrite <- Hstrides. rewrite append_axes_range.
  unfold array_cells. now rewrite <- !app_assoc.
Qed.

(** C4: an array argument whose descriptor has rank [r] expands to
    exactly [4 + 2r] scalars in the order parent (null), item count, item
    size, data pointer, the [r] extents, the [r] strides; for rank 2 that
    is parent, count, itemsize, dataptr, shape0, shape1, stride0,
    stride1.  The rank is read off the value, which is an array of the
    declared rank. *)
Theorem unpack_array_cells (dtype : argtype) (r : nat) (layout : string)
    (a : ndarray) (kernelargs : list cell) :
  ndarray_wf a → nd_ndim a = r →
  _unpack_argument (Array dtype r layout) (PyArray a) kernelargs =
    Ok (kernelargs
        ++ [c_void_p 0; c_ssize_t (nd_size a); c_ssize_t (nd_itemsize a);
            c_void_p (nd_data a)]
        ++ (c_ssize_t <$> nd_shape a) ++ (c_ssize_t <$> nd_strides a))
  ∧ length (array_cells a) = (4 + 2 * r)%nat
  ∧ (r = 2%nat →
     ∃ shape0 shape1 stride0 stride1,
       nd_shape a = [shape0; shape1] ∧ nd_strides a = [stride0; stride1] ∧
       _unpack_argument (Array dtype r layout) (PyArray a) kernelargs =
         Ok (kernelargs
             ++ [c_void_p 0; c_ssize_t (nd_size a);
                 c_ssize_t (nd_itemsize a); c_void_p (nd_data a);
                 c_ssize_t shape0; c_ssize_t shape1;
                 c_ssize_t stride0; c_ssize_t stride1])).
Proof.
  intros Hwf Hr. pose proof Hwf as [Hshape Hstrides].
  split; [exact (unpack_array dtype r layout a kernelargs Hwf)|].
  split.
  - unfold array_cells. rewrite !length_app, !length_fmap. simpl. lia.
  - intros ->. rewrite Hr in Hshape, Hstrides.
    destruct (nd_shape a) as [|shape0 [|shape1 [|? ?]]] eqn:Es;
      try discriminate Hshape.
    destruct (nd_strides a) as [|stride0 [|stride1 [|? ?]]] eqn:Et;
      try discriminate Hstrides.
    exists shape0, shape1, stride0, stride1.
    split; [reflexivity|]. split; [reflexivity|].
    rewrite unpack_array by exact Hwf.
    unfold array_cells. now rewrite Es, Et.
Qed.

Lemma unpack_array_cells_witness :
  let a := {| nd_size := 6; nd_itemsize := 4; nd_data := 4096;
              nd_ndim := 2; nd_shape := [2; 3]; nd_strides := [12; 4] |} in
  ndarray_wf a ∧ nd_ndim a = 2%nat ∧
  _unpack_argument (Array float32 2 "C") (PyArray a) [] =
    Ok [c_void_p 0; c_ssize_t 6; c_ssize_t 4; c_void_p 4096;
        c_ssize_t 2; c_ssize_t 3; c_ssize_t 12; c_ssize_t 4].
Proof.
  intros a.
  assert (Hwf : ndarray_wf a) by (split; reflexivity).
  split; [exact Hwf|]. split; [reflexivity|].
  destruct (unpack_array_cells float32 2 "C" a [] Hwf eq_refl) as [H _].
  exact H.
Defined.

Lemma unpack_arguments_app (pre post : list (argtype * pyval))
    (acc cells : list cell) :
  unpack_arguments pre acc = Ok cells →
  unpack_arguments (pre ++ post) acc = unpack_arguments post cells.
Proof.
  revert acc. induction pre as [|[ty val] pre IH]; intros acc; simpl.
  - now intros [= ->].
  - destruct (_unpack_argument ty val acc); [apply IH | discriminate].
Qed.

(* ------------------------------------------------------------------ *)
(** ** The configuration protocol                                       *)
(* ------------------------------------------------------------------ *)

Lemma fold_append_ones (steps : list nat) (val : list Z) :
  fold_left (fun val _ => val ++ [1]) steps val =
    val ++ replicate (length steps) 1.
Proof.
  revert val. induction steps as [|s steps IH]; intros val; simpl.
  - now rewrite app_nil_r.
  - rewrite IH, <- app_assoc. reflexivity.
Qed.

Lemma ensure_size_or_append_pad (val : list Z) (size : nat) :
  _ensure_size_or_append val size = pad_ones val size.
Proof.
  unfold _ensure_size_or_append, range_from, pad_ones.
  now rewrite fold_append_ones, length_seq.
Qed.

Lemma length_pad_ones (val : list Z) (size : nat) :
  length (pad_ones val size) = Nat.max (length val) size.
Proof. unfold pad_ones. rewrite length_app, length_replicate. lia. Qed.

Lemma pad_ones_id (val : list Z) (size : nat) :
  (size ≤ length val)%nat → pad_ones val size = val.
Proof.
  intros H. unfold pad_ones.
  replace (size - length val)%nat with 0%nat by lia.
  apply app_nil_r.
Qed.

Lemma copy_bound (self : nat) (k : kernel_obj) (w : World) :
  objects w !! self = Some k →
  HSAKernelBase.copy self w =
    (Ok (length (objects w)), with_objects (objects w ++ [k]) w).
Proof.
  intros H. unfold HSAKernelBase.copy, bind, get_object. now rewrite H.
Qed.

Lemma update_object_last (objs : list kernel_obj) (k : kernel_obj)
    (f : kernel_obj → kernel_obj) (w : World) :
  update_object (length objs) f (with_objects (objs ++ [k]) w) =
    (Ok tt, with_objects (objs ++ [f k]) w).
Proof.
  unfold update_object. simpl.
  rewrite list_lookup_middle by reflexivity.
  rewrite insert_app_r_alt by lia.
  now rewrite Nat.sub_diag.
Qed.

(** [configure] on a bound name: one object is added, with the values
    of [configured]; nothing else in the world moves. *)
Lemma configure_bound (self : nat) (k : kernel_obj) (gs : size_arg)
    (ls : option size_arg) (st : option Stream) (w : World) :
  objects w !! self = Some k →
  HSAKernelBase.configure self gs ls st w =
    (Ok (length (objects w)),
     with_objects (objects w ++ [configured k gs ls st]) w).
Proof.
  intros H. unfold HSAKernelBase.configure.
  destruct ls as [ls|]; unfold bind;
    rewrite (copy_bound _ _ _ H), !update_object_last;
    unfold configured, ret; simpl;
    rewrite ?ensure_size_or_append_pad; reflexivity.
Qed.

Lemma configure_unbound (self : nat) (gs : size_arg)
    (ls : option size_arg) (st : option Stream) (w : World) :
  objects w !! self = None →
  HSAKernelBase.configure self gs ls st w =
    (Raise (ReferenceError), w).
Proof.
  intros H. unfold HSAKernelBase.configure.
  destruct ls as [ls|]; unfold bind, HSAKernelBase.copy, bind, get_object;
    now rewrite H.
Qed.

(** C6, as the claim states it, fails when both sizes are given as empty
    sequences: the padded [local_size] is an empty list, which Python
    counts as false, so the clone stores [None]. *)
Lemma configure_empty_sizes_counterexample :
  ¬ stores_both_padded one_kernel_world 0 (Sequence []) (Sequence []) None.
Proof.
  intros H.
  destruct (H 1%nat _ eq_refl) as (k & Hk & _ & Hl).
  simpl in Hk. injection Hk as <-. discriminate Hl.
Qed.

(** C6, amended: with both sizes given, the clone stores [global_size]
    right-padded with ones to the larger of the two ranks, and stores
    [local_size] padded to that same rank unless that rank is zero (both
    given empty), in which case it stores [None]; with [local_size]
    absent, [global_size] is stored as given, unpadded, and [local_size]
    is [None]. *)
Theorem configure_pads_sizes (self : nat) (k : kernel_obj)
    (gsize lsize : size_arg) (st : option Stream) (w : World) :
  objects w !! self = Some k →
  let gs := _ensure_list gsize in
  let ls := _ensure_list lsize in
  let size := Nat.max (length gs) (length ls) in
  (∃ w' c,
     HSAKernelBase.configure self gsize (Some lsize) st w =
       (Ok (length (objects w)), w') ∧
     objects w' !! length (objects w) = Some c ∧
     global_size c = gs ++ replicate (size - length gs) 1 ∧
     length (global_size c) = size ∧
     (size ≠ 0%nat →
      local_size c = Some (ls ++ replicate (size - length ls) 1) ∧
      length (ls ++ replicate (size - length ls) 1) = size) ∧
     (size = 0%nat → local_size c = None))
  ∧ (∃ w' c,
       HSAKernelBase.configure self gsize None st w =
         (Ok (length (objects w)), w') ∧
       objects w' !! length (objects w) = Some c ∧
       global_size c = gs ∧ local_size c = None).
Proof.
  intros H gs ls size. split.
  - eexists _, _. split; [apply (configure_bound _ _ _ _ _ _ H)|].
    split; [simpl; now rewrite list_lookup_middle|].
    simpl. fold gs ls size. unfold pad_ones.
    split; [reflexivity|].
    split; [rewrite length_app, length_replicate; lia|].
    split.
    + intros Hsize.
      assert (Hlen : length (ls ++ replicate (size - length ls) 1) = size)
        by (rewrite length_app, length_replicate; lia).
      split; [|exact Hlen].
      destruct (ls ++ replicate (size - length ls) 1); [|reflexivity].
      simpl in Hlen. congruence.
    + intros Hsize.
      assert (Hlen : length (ls ++ replicate (size - length ls) 1) = 0%nat)
        by (rewrite length_app, length_replicate; lia).
      destruct (ls ++ replicate (size - length ls) 1); [reflexivity|].
      discriminate Hlen.
  - eexists _, _. split; [apply (configure_bound _ _ _ _ _ _ H)|].
    split; [simpl; now rewrite list_lookup_middle|].
    split; reflexivity.
Qed.

Lemma configure_pads_sizes_witness :
  objects one_kernel_world !! 0%nat =
    Some (HSAKernelBase.__init__ (HSAKernel "k" [] [float64] 48 0)) ∧
  ∃ w' c,
    HSAKernelBase.configure 0 (Sequence [2; 3; 4]) (Some (Scalar 8)) None
      one_kernel_world = (Ok 1%nat, w') ∧
    objects w' !! 1%nat = Some c ∧
    global_size c = [2; 3; 4] ∧ local_size c = Some [8; 1; 1].
Proof.
  split; [reflexivity|].
  destruct (configure_pads_sizes 0 _ (Sequence [2; 3; 4]) (Scalar 8) None
              one_kernel_world eq_refl)
    as [(w' & c & Hcall & Hc & Hg & _ & Hl & _) _].
  exists w', c. split; [exact Hcall|]. split; [exact Hc|].
  split; [exact Hg|]. apply Hl. discriminate.
Defined.

(** One request adds at most one object and rewrites none. *)
Lemma configure_extends (self : nat) (gs : size_arg) (ls : option size_arg)
    (st : option Stream) (w : World) :
  ∃ clones,
    (HSAKernelBase.configure self gs ls st w).2 =
      with_objects (objects w ++ clones) w.
Proof.
  destruct (objects w !! self) as [k|] eqn:H.
  - exists [configured k gs ls st]. now rewrite (configure_bound _ _ _ _ _ _ H).
  - exists []. rewrite (configure_unbound _ _ _ _ _ H). simpl.
    rewrite app_nil_r. now destruct w.
Qed.

Lemma run_config_op_extends (op : config_op) (w : World) :
  ∃ clones,
    (run_config_op op w).2 = with_objects (objects w ++ clones) w.
Proof.
  destruct op as [target gs ls st|target g b rest]; simpl.
  - apply configure_extends.
  - unfold HSAKernelBase.__getitem__, HSAKernelBase.configure_star.
    destruct rest as [|s [|s' rest]]; try apply configure_extends.
    exists []. simpl. rewrite app_nil_r. now destruct w.
Qed.

Lemma run_config_ops_extends (ops : list config_op) (w : World) :
  ∃ clones,
    run_config_ops ops w = with_objects (objects w ++ clones) w.
Proof.
  revert w. induction ops as [|op ops IH]; intros w; simpl.
  - exists []. rewrite app_nil_r. now destruct w.
  - destruct (run_config_op_extends op w) as [c1 ->].
    destruct (IH (with_objects (objects w ++ c1) w)) as [c2 ->].
    exists (c1 ++ c2). simpl. now rewrite app_assoc.
Qed.

(** C7: [configure] hands back a new object and never writes to the one
    it was called on: after any sequence of [configure] (or indexing)
    calls, made on any objects including the clones made on the way,
    every object that existed before has the [global_size], [local_size]
    and [stream] it had. *)
Theorem configure_never_mutates (ops : list config_op) (w : World) :
  (∃ clones, objects (run_config_ops ops w) = objects w ++ clones)
  ∧ (∀ o k,
       objects w !! o = Some k →
       ∃ k', objects (run_config_ops ops w) !! o = Some k' ∧ k' = k ∧
             global_size k' = global_size k ∧
             local_size k' = local_size k ∧
             stream k' = stream k)
  ∧ (∀ self gs ls st clone w',
       HSAKernelBase.configure self gs ls st w = (Ok clone, w') →
       objects w !! clone = None ∧ clone ≠ self ∧
       is_Some (objects w' !! clone)).
Proof.
  destruct (run_config_ops_extends ops w) as [clones E].
  split; [exists clones; now rewrite E|]. split.
  - intros o k H. exists k. rewrite E. simpl.
    split; [now apply lookup_app_l_Some|]. repeat split.
  - intros self gs ls st clone w' Hcall.
    destruct (objects w !! self) as [k|] eqn:H.
    + rewrite (configure_bound _ _ _ _ _ _ H) in Hcall.
      injection Hcall as <- <-.
      split; [apply lookup_ge_None_2; lia|].
      split.
      * apply lookup_lt_Some in H. lia.
      * simpl. rewrite list_lookup_middle by reflexivity. eauto.
    + rewrite (configure_unbound _ _ _ _ _ H) in Hcall. discriminate.
Qed.

Lemma configure_never_mutates_witness :
  let ops := [OpConfigure 0 (Sequence [64; 2]) (Some (Scalar 8)) (Some 3%nat);
              OpGetitem 1 (Scalar 4) (Sequence [2; 2]) [];
              OpConfigure 0 (Scalar 5) None None] in
  objects one_kernel_world !! 0%nat =
    Some (HSAKernelBase.__init__ (HSAKernel "k" [] [float64] 48 0)) ∧
  ∃ k', objects (run_config_ops ops one_kernel_world) !! 0%nat = Some k' ∧
        global_size k' = [1] ∧ local_size k' = Some [1] ∧ stream k' = None.
Proof.
  intros ops. split; [reflexivity|].
  destruct (configure_never_mutates ops one_kernel_world) as (_ & H & _).
  destruct (H 0%nat _ eq_refl) as (k' & Hk & _ & Hg & Hl & Hs).
  exists k'. split; [exact Hk|]. split; [exact Hg|]. split; [exact Hl|exact Hs].
Defined.

Lemma configured_blockdim (k : kernel_obj) (g b : list Z)
    (blockdim : size_arg) (st : option Stream) :
  _ensure_list blockdim = b →
  let size := Nat.max (length g) (length b) in
  let gs := zip_with Z.mul (pad_ones g size) (pad_ones b size) in
  configured k (Sequence gs) (Some (Sequence (pad_ones b size))) st =
    configured k (Sequence gs) (Some blockdim) st.
Proof.
  intros Hb size gs. unfold configured. simpl. rewrite Hb.
  assert (Hgs : length gs = size).
  { unfold gs. rewrite length_zip_with, !length_pad_ones. lia. }
  rewrite Hgs, length_pad_ones.
  replace (Nat.max size (Nat.max (length b) size)) with size by lia.
  replace (Nat.max size (length b)) with size by lia.
  rewrite (pad_ones_id (pad_ones b size)) by (rewrite length_pad_ones; lia).
  reflexivity.
Qed.

Lemma configure_blockdim (self : nat) (g : list Z) (blockdim : size_arg)
    (st : option Stream) (w : World) :
  let b := _ensure_list blockdim in
  let size := Nat.max (length g) (length b) in
  let gs := zip_with Z.mul (pad_ones g size) (pad_ones b size) in
  HSAKernelBase.configure self (Sequence gs)
    (Some (Sequence (pad_ones b size))) st w =
  HSAKernelBase.configure self (Sequence gs) (Some blockdim) st w.
Proof.
  intros b size gs.
  destruct (objects w !! self) as [k|] eqn:H.
  - rewrite !(configure_bound _ _ _ _ _ _ H).
    pose proof (configured_blockdim k g b blockdim st eq_refl) as E.
    cbv zeta in E. fold size gs in E. now rewrite E.
  - now rewrite !(configure_unbound _ _ _ _ _ H).
Qed.

(** C8: [kernel[griddim, blockdim, stream?]] pads both to the larger
    rank with ones, multiplies them entry by entry, and is
    [configure(global_size, blockdim, stream)] for that product; so
    [kernel[(8,), (4,)]] is [kernel.configure((32,), (4,))]. *)
Theorem getitem_is_configure (self : nat) (griddim blockdim : size_arg)
    (st : option Stream) (w : World) :
  let g := _ensure_list griddim in
  let b := _ensure_list blockdim in
  let size := Nat.max (length g) (length b) in
  let gs := zip_with Z.mul (pad_ones g size) (pad_ones b size) in
  HSAKernelBase.__getitem__ self griddim blockdim [st] w =
    HSAKernelBase.configure self (Sequence gs) (Some blockdim) st w
  ∧ HSAKernelBase.__getitem__ self griddim blockdim [] w =
      HSAKernelBase.configure self (Sequence gs) (Some blockdim) None w
  ∧ length gs = size
  ∧ (∀ i x y,
       pad_ones g size !! i = Some x → pad_ones b size !! i = Some y →
       gs !! i = Some (x * y))
  ∧ HSAKernelBase.__getitem__ self (Sequence [8]) (Sequence [4]) [] w =
      HSAKernelBase.configure self (Sequence [32]) (Some (Sequence [4]))
        None w.
Proof.
  intros g b size gs.
  assert (Hget : ∀ s,
    HSAKernelBase.configure self
      (Sequence (zip_with Z.mul (_ensure_size_or_append g size)
                                (_ensure_size_or_append b size)))
      (Some (Sequence (_ensure_size_or_append b size))) s w =
    HSAKernelBase.configure self (Sequence gs) (Some blockdim) s w).
  { intros s. rewrite !ensure_size_or_append_pad.
    apply (configure_blockdim self g blockdim s w). }
  split; [apply Hget|]. split; [apply Hget|]. split.
  - unfold gs. rewrite length_zip_with, !length_pad_ones. lia.
  - split.
    + intros i x y Hx Hy. unfold gs.
      rewrite lookup_zip_with, Hx. simpl. now rewrite Hy.
    + reflexivity.
Qed.

Lemma getitem_is_configure_witness :
  HSAKernelBase.__getitem__ 0 (Sequence [8; 2]) (Scalar 4) [Some 5%nat]
    one_kernel_world =
  HSAKernelBase.configure 0 (Sequence [32; 2]) (Some (Scalar 4)) (Some 5%nat)
    one_kernel_world
  ∧ HSAKernelBase.__getitem__ 0 (Sequence [8]) (Sequence [4]) []
      one_kernel_world =
    HSAKernelBase.configure 0 (Sequence [32]) (Some (Sequence [4])) None
      one_kernel_world.
Proof.
  destruct (getitem_is_configure 0 (Sequence [8; 2]) (Scalar 4) (Some 5%nat)
              one_kernel_world) as (H1 & _ & _ & _ & H2).
  split; [exact H1 | exact H2].
Defined.

(* ------------------------------------------------------------------ *)
(** ** The finalized-program cache                                      *)
(* ------------------------------------------------------------------ *)

Lemma count_events_app (p : event → bool) (tr1 tr2 : list event) :
  count_events p (tr1 ++ tr2) = (count_events p tr1 + count_events p tr2)%nat.
Proof. unfold count_events. now rewrite List.filter_app, length_app. Qed.

Lemma new_events_app (w w' : World) (new : list event) :
  trace w' = trace w ++ new → new_events w w' = new.
Proof. intros E. unfold new_events. rewrite E. apply drop_app_length. Qed.

Section AtMostOnce.
Context `{Collaborators}.

Lemma at_most_once_refl (c : nat) (w : World) : at_most_once c w w [].
Proof.
  split.
  - now rewrite app_nil_r.
  - auto.
  - intros ctx _. split; reflexivity.
  - intros ctx. split; [apply Nat.le_0_l | discriminate].
  - intros ctx _. split; [apply Nat.le_0_l | discriminate].
Qed.

Lemma at_most_once_trans (c : nat) (w1 w2 w3 : World)
    (new1 new2 : list event) :
  at_most_once c w1 w2 new1 → at_most_once c w2 w3 new2 →
  at_most_once c w1 w3 (new1 ++ new2).
Proof.
  intros [T1 K1 H1 C1 F1] [T2 K2 H2 C2 F2]. split.
  - now rewrite T2, T1, app_assoc.
  - auto.
  - intros ctx [e He].
    destruct (H1 ctx) as [a1 b1]; [eauto|].
    destruct (H2 ctx) as [a2 b2]; [eauto|].
    unfold completed_finalizations, finalize_calls in *.
    rewrite !count_events_app. lia.
  - intros ctx. destruct (C1 ctx) as [a1 b1], (C2 ctx) as [a2 b2].
    unfold completed_finalizations in *. rewrite count_events_app.
    destruct (count_events (is_kernarg_region ctx) new1) as [|[|n]] eqn:E1;
      [simpl; auto| |lia].
    destruct (b1 eq_refl) as [e He].
    destruct (H2 ctx) as [a3 _]; [eauto|].
    unfold completed_finalizations in a3. rewrite a3.
    split; [lia|]. intros _. eauto.
  - intros ctx Hr.
    destruct (F1 ctx Hr) as [a1 b1], (F2 ctx Hr) as [a2 b2].
    unfold finalize_calls in *. rewrite count_events_app.
    destruct (count_events (is_finalize ctx) new1) as [|[|n]] eqn:E1;
      [simpl; auto| |lia].
    destruct (b1 eq_refl) as [e He].
    destruct (H2 ctx) as [_ a3]; [eauto|].
    unfold finalize_calls in a3. rewrite a3.
    split; [lia|]. intros _. eauto.
Qed.

(** Making another context active moves neither cache nor trace. *)
Lemma at_most_once_set_context (c : nat) (ctx : Context) (w w' : World)
    (new : list event) :
  at_most_once c (set_context ctx w) w' new → at_most_once c w w' new.
Proof. intros [T K Hh C F]. split; auto. Qed.

End AtMostOnce.

Section CachedProgram.
Context `{Collaborators}.

Lemma get_unbound (self : nat) (w : World) :
  cached_programs w !! self = None →
  _CachedProgram.get self w = (Raise (ReferenceError), w).
Proof.
  intros E. unfold _CachedProgram.get, bind, get_context, get_cached_program.
  now rewrite E.
Qed.

(** A hit: the stored entry is returned, nothing else happens. *)
Lemma get_hit (self : nat) (cp : _CachedProgram) (e : _CacheEntry)
    (w : World) :
  cached_programs w !! self = Some cp →
  _cache cp !! current_context w = Some e →
  _CachedProgram.get self w = (Ok (current_context w, e), w).
Proof.
  intros E1 E2.
  unfold _CachedProgram.get, bind, get_context, get_cached_program.
  now rewrite E1, E2.
Qed.

(** A miss on a context whose agent has a kernarg region: the whole
    sequence runs and its result is stored. *)
Lemma get_miss (self : nat) (cp : _CachedProgram) (r : Region)
    (rs : list Region) (w : World) :
  cached_programs w !! self = Some cp →
  _cache cp !! current_context w = None →
  List.filter supports_kernargs (agent_regions (current_context w))
    = r :: rs →
  let ctx := current_context w in
  let entry := finalized_entry cp (next_handle w) r in
  _CachedProgram.get self w =
    (Ok (ctx, entry),
     {| objects := objects w;
        cached_programs :=
          <[self := with_entry cp ctx entry]> (cached_programs w);
        tables := tables w; current_context := ctx;
        next_handle := S (next_handle w);
        trace :=
          trace w
          ++ finalization_events cp ctx (next_handle w)
               (cd_symbol_offset (code_desc entry))
          ++ [EvKernargRegion ctx r] |}).
Proof.
  intros E1 E2 E3 ctx entry.
  unfold _CachedProgram.get, bind, get_context, get_cached_program.
  rewrite E1, E2. simpl. rewrite E3. simpl.
  unfold _CachedProgram.cache_store. simpl. rewrite E1. simpl.
  unfold with_cached_programs, ret. simpl.
  rewrite <- !app_assoc. reflexivity.
Qed.

(** A miss on a context whose agent has no kernarg region: the driver
    is called, then picking the first region raises and nothing is
    stored. *)
Lemma get_miss_no_region (self : nat) (cp : _CachedProgram) (w : World) :
  cached_programs w !! self = Some cp →
  _cache cp !! current_context w = None →
  List.filter supports_kernargs (agent_regions (current_context w)) = [] →
  let ctx := current_context w in
  _CachedProgram.get self w =
    (Raise IndexError,
     {| objects := objects w; cached_programs := cached_programs w;
        tables := tables w; current_context := ctx;
        next_handle := S (next_handle w);
        trace :=
          trace w
          ++ finalization_events cp ctx (next_handle w)
               (find_symbol_offset (_binary cp)
                  ("&" +:+ _entry_name cp)) |}).
Proof.
  intros E1 E2 E3 ctx.
  unfold _CachedProgram.get, bind, get_context, get_cached_program.
  rewrite E1, E2. simpl. rewrite E3. simpl.
  unfold raise. rewrite <- !app_assoc. reflexivity.
Qed.

Lemma has_kernarg_region_filter (ctx : Context) :
  has_kernarg_region ctx = true →
  List.filter supports_kernargs (agent_regions ctx) ≠ [].
Proof.
  unfold has_kernarg_region. intros Hex Hnil.
  apply existsb_exists in Hex as (r & Hin & Hr).
  assert (Hf : In r (List.filter supports_kernargs (agent_regions ctx)))
    by (apply filter_In; auto).
  rewrite Hnil in Hf. exact Hf.
Qed.

End CachedProgram.

Lemma finalize_calls_finalization (cp : _CachedProgram) (ctx ctx' : Context)
    (prog : nat) (off : Z) :
  finalize_calls ctx' (finalization_events cp ctx prog off) =
    (if Nat.eqb ctx ctx' then 1 else 0)%nat.
Proof.
  unfold finalize_calls, count_events. simpl.
  now destruct (Nat.eqb ctx ctx').
Qed.

Lemma completed_finalization (cp : _CachedProgram) (ctx ctx' : Context)
    (prog : nat) (off : Z) :
  completed_finalizations ctx' (finalization_events cp ctx prog off) = 0%nat.
Proof. reflexivity. Qed.

Lemma cache_entry_lookup (w : World) (c : nat) (cp : _CachedProgram)
    (ctx : Context) :
  cached_programs w !! c = Some cp → cache_entry w c ctx = _cache cp !! ctx.
Proof. intros E. unfold cache_entry. now rewrite E. Qed.

Section GetAtMostOnce.
Context `{Collaborators}.

(** One call of [get] keeps the at-most-once discipline. *)
Lemma get_at_most_once (self : nat) (w : World) :
  ∃ new, at_most_once self w (_CachedProgram.get self w).2 new.
Proof.
  destruct (cached_programs w !! self) as [cp|] eqn:E1.
  2:{ exists []. rewrite (get_unbound _ _ E1). apply at_most_once_refl. }
  destruct (_cache cp !! current_context w) as [e|] eqn:E2.
  { exists []. rewrite (get_hit _ _ _ _ E1 E2). apply at_most_once_refl. }
  assert (Hother : ∀ ctx, is_Some (cache_entry w self ctx) →
                          Nat.eqb (current_context w) ctx = false).
  { intros ctx [e He]. apply Nat.eqb_neq. intros <-.
    rewrite (cache_entry_lookup _ _ _ _ E1) in He. congruence. }
  destruct (List.filter supports_kernargs (agent_regions (current_context w)))
    as [|r rs] eqn:E3.
  - eexists. rewrite (get_miss_no_region _ _ _ E1 E2 E3). simpl.
    split; simpl.
    + reflexivity.
    + auto.
    + intros ctx Hs. rewrite finalize_calls_finalization, (Hother _ Hs).
      split; reflexivity.
    + intros ctx. rewrite completed_finalization.
      split; [lia | discriminate].
    + intros ctx Hr. rewrite finalize_calls_finalization.
      destruct (Nat.eqb_spec (current_context w) ctx) as [<-|_].
      * now destruct (has_kernarg_region_filter _ Hr).
      * split; [lia | discriminate].
  - eexists. rewrite (get_miss _ _ _ _ _ E1 E2 E3). simpl.
    split; simpl.
    + reflexivity.
    + intros ctx e He. unfold cache_entry in *. simpl.
      rewrite E1 in He.
      rewrite list_lookup_insert_eq by now apply lookup_lt_Some in E1.
      simpl. rewrite lookup_insert_ne; [exact He|]. congruence.
    + intros ctx Hs.
      unfold completed_finalizations, finalize_calls, count_events. simpl.
      rewrite (Hother _ Hs). split; reflexivity.
    + intros ctx. unfold completed_finalizations, count_events. simpl.
      destruct (Nat.eqb_spec (current_context w) ctx) as [<-|_]; simpl.
      * split; [lia|]. intros _.
        unfold cache_entry. simpl.
        rewrite list_lookup_insert_eq by now apply lookup_lt_Some in E1.
        simpl. rewrite lookup_insert_eq. eauto.
      * split; [lia | discriminate].
    + intros ctx _. unfold finalize_calls, count_events. simpl.
      destruct (Nat.eqb_spec (current_context w) ctx) as [<-|_]; simpl.
      * split; [lia|]. intros _.
        unfold cache_entry. simpl.
        rewrite list_lookup_insert_eq by now apply lookup_lt_Some in E1.
        simpl. rewrite lookup_insert_eq. eauto.
      * split; [lia | discriminate].
Qed.

Lemma run_gets_at_most_once (self : nat) (ctxs : list Context) (w : World) :
  ∃ new, at_most_once self w (run_gets self ctxs w) new.
Proof.
  revert w. induction ctxs as [|ctx ctxs IH]; intros w; simpl.
  - exists []. apply at_most_once_refl.
  - destruct (get_at_most_once self (set_context ctx w)) as [new1 H1].
    destruct (IH (_CachedProgram.get self (set_context ctx w)).2)
      as [new2 H2].
    exists (new1 ++ new2).
    apply at_most_once_set_context in H1.
    exact (at_most_once_trans _ _ _ _ _ _ H1 H2).
Qed.

End GetAtMostOnce.

(** C2, as the claim states it, fails: the kernarg region is selected
    after [program.finalize] has run and before the entry is stored, and
    for an agent without such a region the selection raises
    [IndexError]; nothing is stored, and the next [get] under that
    context runs the sequence up to [program.finalize] again. *)
Lemma get_refinalizes_counterexample :
  ¬ finalizes_at_most_once (H := sample_collaborators) 0 [0; 0]%nat
      one_kernel_world.
Proof.
  intros Hclaim. specialize (Hclaim 0%nat).
  apply Nat.leb_le in Hclaim. vm_compute in Hclaim. discriminate Hclaim.
Qed.

(** C2, amended: over any number of [get] calls on one [_CachedProgram],
    whatever context is active at each call, [program.finalize] is
    called at most once for every context whose agent has a region
    that supports kernel arguments, and for every context the sequence
    is carried through to the selection of that region at most once;
    once an entry is stored for a context, no later call made under
    that context finalizes again: each returns that very entry and
    leaves the world as it is. *)
Theorem cached_program_finalizes_once `{Collaborators} (self : nat)
    (ctxs : list Context) (w : World) :
  let w' := run_gets self ctxs w in
  (∀ ctx, (completed_finalizations ctx (new_events w w') ≤ 1)%nat)
  ∧ (∀ ctx, has_kernarg_region ctx = true →
            (finalize_calls ctx (new_events w w') ≤ 1)%nat)
  ∧ (∀ ctx e,
       cache_entry w self ctx = Some e →
       finalize_calls ctx (new_events w w') = 0%nat ∧
       completed_finalizations ctx (new_events w w') = 0%nat ∧
       cache_entry w' self ctx = Some e ∧
       _CachedProgram.get self (set_context ctx w') =
         (Ok (ctx, e), set_context ctx w')).
Proof.
  intros w'. destruct (run_gets_at_most_once self ctxs w) as [new Hrun].
  fold w' in Hrun. destruct Hrun as [T K Hh C F].
  rewrite (new_events_app _ _ _ T).
  split; [intros ctx; apply C|]. split; [intros ctx Hr; now apply F|].
  intros ctx e He. destruct (Hh ctx) as [Hc Hf]; [eauto|].
  split; [exact Hf|]. split; [exact Hc|]. split; [now apply K|].
  specialize (K _ _ He). unfold cache_entry in K.
  destruct (cached_programs w' !! self) as [cp|] eqn:E; [|discriminate].
  now apply get_hit with (cp := cp).
Qed.

Lemma cached_program_finalizes_once_witness :
  let w := run_gets (H := sample_collaborators) 0 [1%nat] one_kernel_world in
  let w' := run_gets (H := sample_collaborators) 0 [1; 2; 1]%nat w in
  let e := {| code_desc := {| cd_program := 0; cd_symbol_offset := 16;
                              kernarg_segment_byte_size := 56 |};
              program := 0;
              kernarg_region :=
                {| region_id := 1; supports_kernargs := true |} |} in
  has_kernarg_region (H := sample_collaborators) 1%nat = true ∧
  cache_entry w 0 1%nat = Some e ∧
  (finalize_calls 1%nat (new_events one_kernel_world w) ≤ 1)%nat ∧
  finalize_calls 1%nat (new_events w w') = 0%nat ∧
  cache_entry w' 0 1%nat = Some e.
Proof.
  intros w w' e.
  assert (Hr : has_kernarg_region (H := sample_collaborators) 1%nat = true)
    by reflexivity.
  assert (He : cache_entry w 0 1%nat = Some e) by reflexivity.
  split; [exact Hr|]. split; [exact He|].
  destruct (cached_program_finalizes_once (H := sample_collaborators)
              0 [1%nat] one_kernel_world) as (_ & Hf & _).
  destruct (cached_program_finalizes_once (H := sample_collaborators)
              0 [1; 2; 1]%nat w) as (_ & _ & Hs).
  destruct (Hs 1%nat e He) as (H0 & _ & Hk & _).
  split; [exact (Hf 1%nat Hr)|]. split; [exact H0 | exact Hk].
Defined.

(** When the agent has no kernarg region nothing is ever stored, and
    each call runs the driver part of the sequence again. *)
Example get_without_kernarg_region :
  let w' := run_gets (H := sample_collaborators) 0 [0; 0]%nat
              one_kernel_world in
  finalize_calls 0%nat (trace w') = 2%nat ∧
  completed_finalizations 0%nat (trace w') = 0%nat ∧
  cache_entry w' 0 0%nat = None.
Proof. repeat split. Qed.

(* ------------------------------------------------------------------ *)
(** ** The kernel object                                                *)
(* ------------------------------------------------------------------ *)

Section Bind.
Context `{Collaborators}.

(** [get] writes to its own cache and to the trace only, and launches
    nothing. *)
Lemma get_frame (self : nat) (w : World) :
  ∃ new,
    trace (_CachedProgram.get self w).2 = trace w ++ new ∧
    count_events is_dispatch new = 0%nat ∧
    objects (_CachedProgram.get self w).2 = objects w ∧
    tables (_CachedProgram.get self w).2 = tables w ∧
    current_context (_CachedProgram.get self w).2 = current_context w ∧
    length (cached_programs (_CachedProgram.get self w).2) =
      length (cached_programs w) ∧
    ∀ c, c ≠ self →
         cached_programs (_CachedProgram.get self w).2 !! c =
           cached_programs w !! c.
Proof.
  destruct (cached_programs w !! self) as [cp|] eqn:E1.
  2:{ exists []. rewrite (get_unbound _ _ E1). simpl.
      rewrite app_nil_r. repeat split. }
  destruct (_cache cp !! current_context w) as [e|] eqn:E2.
  { exists []. rewrite (get_hit _ _ _ _ E1 E2). simpl.
    rewrite app_nil_r. repeat split. }
  destruct (List.filter supports_kernargs (agent_regions (current_context w)))
    as [|r rs] eqn:E3.
  - eexists. rewrite (get_miss_no_region _ _ _ E1 E2 E3). simpl.
    repeat split.
  - eexists. rewrite (get_miss _ _ _ _ _ E1 E2 E3). simpl.
    split; [reflexivity|]. split; [reflexivity|].
    split; [reflexivity|]. split; [reflexivity|]. split; [reflexivity|].
    split; [apply length_insert|].
    intros c Hc. now apply list_lookup_insert_ne.
Qed.

(** [bind] on a kernel object, step by step. *)
Lemma bind_unfold (self : nat) (k : kernel_obj) (n : string) (b : Binary)
    (tys : list argtype) (inj : Z) (c : nat) (w : World) :
  objects w !! self = Some k → impl k = HSAKernel n b tys inj c →
  HSAKernel.bind self w =
    match _CachedProgram.get c w with
    | (Raise e, w1) => (Raise e, w1)
    | (Ok (ctx, entry), w1) =>
        let size := kernarg_segment_byte_size (code_desc entry) in
        if size <? 0 then (Raise (ValueError "Array length must be >= 0"), w1)
        else
          (Ok (ctx, code_desc entry, bound_buffer (next_handle w1) size,
               kernarg_region entry),
           after_allocate (kernarg_region entry) size w1)
    end.
Proof.
  intros Hk Hi. unfold HSAKernel.bind, bind, get_object.
  rewrite Hk, Hi.
  destruct (_CachedProgram.get c w) as [[[ctx entry]|e] w1]; [|reflexivity].
  unfold allocate.
  destruct (kernarg_segment_byte_size (code_desc entry) <? 0); reflexivity.
Qed.

Lemma bind_not_kernel (self : nat) (w : World) :
  (∀ k n b tys inj c,
     objects w !! self = Some k → impl k ≠ HSAKernel n b tys inj c) →
  ∃ e, HSAKernel.bind self w = (Raise e, w).
Proof.
  intros Hnot. unfold HSAKernel.bind, bind, get_object.
  destruct (objects w !! self) as [k|] eqn:Hk; [|eexists; reflexivity].
  destruct (impl k) as [n b tys inj c|f d] eqn:Hi.
  - now destruct (Hnot k n b tys inj c).
  - eexists; reflexivity.
Qed.

(** [bind] keeps the at-most-once discipline of the kernel's cache,
    launches nothing, and creates neither objects nor caches. *)
Lemma bind_effect (self : nat) (k : kernel_obj) (n : string) (b : Binary)
    (tys : list argtype) (inj : Z) (c : nat) (w : World) :
  objects w !! self = Some k → impl k = HSAKernel n b tys inj c →
  ∃ new,
    at_most_once c w (HSAKernel.bind self w).2 new ∧
    count_events is_dispatch new = 0%nat ∧
    objects (HSAKernel.bind self w).2 = objects w ∧
    length (cached_programs (HSAKernel.bind self w).2) =
      length (cached_programs w).
Proof.
  intros Hk Hi. rewrite (bind_unfold _ _ _ _ _ _ _ _ Hk Hi).
  destruct (get_at_most_once c w) as [new1 Hamo].
  destruct (get_frame c w) as (new1' & T & D & O & _ & _ & L & _).
  assert (new1' = new1) as ->.
  { destruct Hamo as [T' _ _ _ _]. rewrite T' in T.
    now apply app_inv_head in T. }
  destruct (_CachedProgram.get c w) as [[[ctx entry]|e] w1]; simpl in *.
  2:{ exists new1. auto. }
  destruct (kernarg_segment_byte_size (code_desc entry) <? 0); simpl.
  { exists new1. auto. }
  exists (new1 ++
          [EvAllocate (kernarg_region entry)
             (kernarg_segment_byte_size (code_desc entry)) (next_handle w1)]).
  split.
  - apply (at_most_once_trans _ _ _ _ _ _ Hamo).
    split.
    + reflexivity.
    + intros ctx' e' He. exact He.
    + intros ctx' _. split; reflexivity.
    + intros ctx'. split; [apply Nat.le_0_l | discriminate].
    + intros ctx' _. split; [apply Nat.le_0_l | discriminate].
  - rewrite count_events_app, D. auto.
Qed.

End Bind.

Lemma sizeof_pos (av : cell) : 0 < sizeof av.
Proof.
  unfold sizeof. destruct (cell_type av) as [| |s []| |]; simpl;
    unfold sizeof_void_p; lia.
Qed.

(** The store loop never raises, keeps the buffer's size, and puts every
    scalar at a multiple of its own size, at or after the running
    offset. *)
Lemma insert_arguments_ok (cells : list cell) (base : Z) (kernargs : buffer) :
  ∃ base' stored,
    insert_arguments cells base kernargs =
      Ok (base',
          {| buf_id := buf_id kernargs; buf_size := buf_size kernargs;
             buf_cells := buf_cells kernargs ++ stored |}) ∧
    base ≤ base' ∧
    stored.*2 = cells ∧
    Forall (λ oc, base ≤ oc.1 ∧ oc.1 mod sizeof oc.2 = 0) stored.
Proof.
  revert base kernargs.
  induction cells as [|av cells IH]; intros base kernargs; simpl.
  - exists base, []. rewrite app_nil_r. destruct kernargs.
    repeat split; [lia | constructor].
  - pose proof (sizeof_pos av) as Hpos.
    destruct (_calc_padding_for_alignment (sizeof av) base) as [pad|e] eqn:Ep.
    2:{ rewrite calc_padding_nonzero in Ep by lia. discriminate. }
    destruct (calc_padding_aligns _ _ _ Hpos Ep) as [Hal Hpad].
    destruct (IH (base + pad + sizeof av)
                 (buffer_write kernargs (base + pad) av))
      as (base' & stored & -> & Hle & Hcells & Hst).
    exists base', ((base + pad, av) :: stored).
    split; [simpl; rewrite <- app_assoc; reflexivity|].
    split; [lia|]. split; [rewrite fmap_cons; simpl; now f_equal|].
    constructor; simpl; [split; [lia | exact Hal]|].
    eapply List.Forall_impl; [|exact Hst].
    simpl. intros oc [? ?]. split; [lia|auto].
Qed.

(** The store loop never raises and places the scalars one after the
    other. *)
Lemma insert_arguments_placed (cells : list cell) (base : Z)
    (kernargs : buffer) :
  ∃ base' stored,
    insert_arguments cells base kernargs =
      Ok (base',
          {| buf_id := buf_id kernargs; buf_size := buf_size kernargs;
             buf_cells := buf_cells kernargs ++ stored |}) ∧
    stored.*2 = cells ∧
    well_placed base stored base'.
Proof.
  revert base kernargs.
  induction cells as [|av cells IH]; intros base kernargs; simpl.
  - exists base, []. rewrite app_nil_r. destruct kernargs. simpl.
    repeat split.
  - pose proof (sizeof_pos av) as Hpos.
    destruct (_calc_padding_for_alignment (sizeof av) base) as [pad|e] eqn:Ep.
    2:{ rewrite calc_padding_nonzero in Ep by lia. discriminate. }
    destruct (calc_padding_aligns _ _ _ Hpos Ep) as [Hal Hpad].
    destruct (IH (base + pad + sizeof av)
                 (buffer_write kernargs (base + pad) av))
      as (base' & stored & -> & Hcells & Hplaced).
    exists base', ((base + pad, av) :: stored).
    split; [simpl; rewrite <- app_assoc; reflexivity|].
    split; [rewrite fmap_cons; simpl; now f_equal|].
    simpl. repeat split; [lia | lia | exact Hal | exact Hplaced].
Qed.

Lemma well_placed_app (l1 l2 : list (Z * cell)) (a b c : Z) :
  well_placed a l1 b → well_placed b l2 c → well_placed a (l1 ++ l2) c.
Proof.
  revert a. induction l1 as [|[o av] l1 IH]; intros a; simpl.
  - intros ->. auto.
  - intros (H1 & H2 & H3) H4. split; [exact H1|]. split; [exact H2|].
    now apply IH.
Qed.

(** The header ends at byte [INJECTED_NARG * sizeof(c_void_p)]. *)
Lemma header_placed :
  well_placed 0 header_cells (Z.of_nat HSAKernel.INJECTED_NARG * sizeof_void_p).
Proof.
  cbn. unfold sizeof_void_p. repeat split; try lia; reflexivity.
Qed.

Lemma instance_unpack (ty : argtype) (val : pyval) :
  instance_of ty val →
  ∃ cells, ∀ acc, _unpack_argument ty val acc = Ok (acc ++ cells).
Proof.
  destruct ty as [d r l|s bw| | | | | |name], val as [a|z|x|bl|re im|s'];
    simpl; try contradiction; intros Hi.
  - destruct Hi as [Hwf _]. exists (array_cells a). intros acc.
    exact (unpack_array d r l a acc Hwf).
  - eexists. intros acc. reflexivity.
  - eexists. intros acc. reflexivity.
  - eexists. intros acc. reflexivity.
  - eexists. intros acc. reflexivity.
  - exists [c_float re; c_float im]. intros acc. reflexivity.
  - exists [c_double re; c_double im]. intros acc. reflexivity.
Qed.

(** Conforming values for supported types always pack. *)
Lemma unpack_arguments_instances (tys : list argtype) (args : list pyval)
    (acc : list cell) :
  Forall2 instance_of tys args →
  ∃ cells, unpack_arguments (zip tys args) acc = Ok (acc ++ cells).
Proof.
  intros Hall. revert acc.
  induction Hall as [|ty val tys args Hi _ IH]; intros acc; simpl.
  - exists []. now rewrite app_nil_r.
  - destruct (instance_unpack ty val Hi) as [cells1 ->].
    destruct (IH (acc ++ cells1)) as [cells2 ->].
    exists (cells1 ++ cells2). now rewrite app_assoc.
Qed.

(** So do the pairs that [zip] makes of them, when the two lists differ
    in length. *)
Lemma unpack_arguments_zipped (typed_args : list (argtype * pyval))
    (acc : list cell) :
  Forall (λ p, instance_of p.1 p.2) typed_args →
  ∃ cells, unpack_arguments typed_args acc = Ok (acc ++ cells).
Proof.
  intros Hall. revert acc.
  induction Hall as [|[ty val] typed_args Hi _ IH]; intros acc; simpl.
  - exists []. now rewrite app_nil_r.
  - destruct (instance_unpack ty val Hi) as [cells1 ->].
    destruct (IH (acc ++ cells1)) as [cells2 ->].
    exists (cells1 ++ cells2). now rewrite app_assoc.
Qed.

Section Call.
Context `{Collaborators}.

(** [__call__] on a kernel object, step by step. *)
Lemma call_unfold (self : nat) (k : kernel_obj) (n : string) (b : Binary)
    (tys : list argtype) (inj : Z) (c : nat) (args : list pyval) (w : World) :
  objects w !! self = Some k → impl k = HSAKernel n b tys inj c →
  HSAKernel.__call__ self args w =
    match HSAKernel.bind self w with
    | (Raise e, w_b) => (Raise e, w_b)
    | (Ok (ctx, cd, kernargs, region), w_b) =>
        match unpack_arguments (zip tys args) [] with
        | Raise e => (Raise e, w_b)
        | Ok cells =>
            match insert_arguments cells inj kernargs with
            | Raise e => (Raise e, w_b)
            | Ok (base, kernargs') =>
                if base =? buf_size kernargs' then
                  (Ok tt, after_dispatch ctx cd kernargs' k region w_b)
                else
                  (Raise (AssertionError "Kernel argument size is invalid"),
                   w_b)
            end
        end
    end.
Proof.
  intros Hk Hi. unfold HSAKernel.__call__, bind at 1, get_object.
  rewrite Hk, Hi. unfold bind at 1.
  destruct (HSAKernel.bind self w) as [[[[[ctx cd] kernargs] region]|e] w_b];
    [|reflexivity].
  unfold bind, lift.
  destruct (unpack_arguments (zip tys args) []) as [cells|e]; [|reflexivity].
  destruct (insert_arguments cells inj kernargs) as [[base kernargs']|e];
    [|reflexivity].
  destruct (base =? buf_size kernargs'); [|reflexivity].
  unfold emit, after_dispatch. simpl. rewrite <- app_assoc. reflexivity.
Qed.

(** Whatever stops [__call__] after [bind] returned, the world is left as
    [bind] made it: the buffer is allocated, nothing is launched, nothing
    is freed. *)
Lemma call_raises_after_bind (self : nat) (k : kernel_obj) (n : string)
    (b : Binary) (tys : list argtype) (inj : Z) (c : nat)
    (args : list pyval) (w w_b : World) (r : Context * CodeDesc * buffer * Region)
    (e : exception) :
  objects w !! self = Some k → impl k = HSAKernel n b tys inj c →
  HSAKernel.bind self w = (Ok r, w_b) →
  unpack_arguments (zip tys args) [] = Raise e →
  HSAKernel.__call__ self args w = (Raise e, w_b).
Proof.
  intros Hk Hi Hb Hu. rewrite (call_unfold _ _ _ _ _ _ _ _ _ Hk Hi), Hb.
  destruct r as [[[ctx cd] kernargs] region]. now rewrite Hu.
Qed.

End Call.

(** C5, as the claim states it, fails for a call: [__call__] binds, and
    so takes the argument buffer from the region, before it packs; when
    packing then raises, one buffer has been allocated. *)
Lemma unsupported_call_allocates_counterexample :
  ¬ unsupported_call_allocates_nothing (H := sample_collaborators)
      tuple_kernel_world 0 [PyOther "(1, 2)"].
Proof.
  intros Hclaim.
  specialize (Hclaim (OtherType "UniTuple(int64 x 2)") (PyOther "(1, 2)")).
  assert (Hraise :
    (HSAKernel.__call__ (H := sample_collaborators) 0 [PyOther "(1, 2)"]
       tuple_kernel_world).1 =
    Raise (NotImplementedError (OtherType "UniTuple(int64 x 2)")
             (PyOther "(1, 2)"))) by (vm_compute; reflexivity).
  specialize (Hclaim Hraise).
  vm_compute in Hclaim. discriminate Hclaim.
Qed.

(** C5, amended: packing an argument whose type has no packing rule
    raises [NotImplementedError] carrying that type and that value, and
    so does the packing loop when it reaches such an argument; packing
    itself allocates nothing, but in a call the argument buffer has been
    allocated by [bind] before packing starts: the call raises the same
    exception, the allocation is in the trace, and nothing was
    dispatched. *)
Theorem unpack_unsupported (ty : argtype) (val : pyval) :
  supported ty = false →
  (∀ kernelargs,
     _unpack_argument ty val kernelargs = Raise (NotImplementedError ty val))
  ∧ (∀ pre post cells,
       unpack_arguments pre [] = Ok cells →
       unpack_arguments (pre ++ (ty, val) :: post) [] =
         Raise (NotImplementedError ty val))
  ∧ (∀ (H : Collaborators) self k n b tys inj c args w w_b ctx cd kernargs
       region,
       objects w !! self = Some k → impl k = HSAKernel n b tys inj c →
       HSAKernel.bind self w = (Ok (ctx, cd, kernargs, region), w_b) →
       unpack_arguments (zip tys args) [] =
         Raise (NotImplementedError ty val) →
       HSAKernel.__call__ self args w =
         (Raise (NotImplementedError ty val), w_b) ∧
       EvAllocate region (buf_size kernargs) (buf_id kernargs)
         ∈ new_events w w_b ∧
       count_events is_dispatch (new_events w w_b) = 0%nat).
Proof.
  intros Hty.
  assert (Hraise : ∀ acc, _unpack_argument ty val acc =
                          Raise (NotImplementedError ty val)).
  { intros acc. destruct ty; try discriminate Hty. reflexivity. }
  split; [exact Hraise|]. split.
  - intros pre post cells Hpre.
    rewrite (unpack_arguments_app pre _ _ _ Hpre). simpl. now rewrite Hraise.
  - intros H self k n b tys inj c args w w_b ctx cd kernargs region
      Hk Hi Hb Hu.
    split; [exact (call_raises_after_bind _ _ _ _ _ _ _ _ _ _ _ _ Hk Hi Hb Hu)|].
    destruct (bind_effect _ _ _ _ _ _ _ _ Hk Hi) as (new & [T _ _ _ _] & D & _).
    rewrite Hb in T. simpl in T. rewrite (new_events_app _ _ _ T).
    split; [|exact D].
    rewrite (bind_unfold _ _ _ _ _ _ _ _ Hk Hi) in Hb.
    destruct (get_frame c w) as (new1 & T1 & _).
    destruct (_CachedProgram.get c w) as [[[ctx' entry]|e] w1];
      [|discriminate].
    simpl in Hb, T1.
    destruct (kernarg_segment_byte_size (code_desc entry) <? 0);
      [discriminate|].
    injection Hb as <- <- <- <- <-. simpl in T.
    rewrite T1, <- app_assoc in T. apply app_inv_head in T. subst new.
    apply elem_of_app. right. constructor.
Qed.

Lemma unpack_unsupported_witness :
  let ty := OtherType "UniTuple(int64 x 2)" in
  let val := PyOther "(1, 2)" in
  let r := {| region_id := 1; supports_kernargs := true |} in
  let cd := {| cd_program := 0; cd_symbol_offset := 16;
               kernarg_segment_byte_size := 56 |} in
  let w_b := (HSAKernel.bind (H := sample_collaborators) 0
                tuple_kernel_world).2 in
  supported ty = false ∧
  unpack_arguments [(float64, PyFloat (PyFloatBits 0)); (ty, val)] [] =
    Raise (NotImplementedError ty val) ∧
  HSAKernel.bind (H := sample_collaborators) 0 tuple_kernel_world =
    (Ok (1%nat, cd, bound_buffer 1 56, r), w_b) ∧
  HSAKernel.__call__ (H := sample_collaborators) 0 [val] tuple_kernel_world =
    (Raise (NotImplementedError ty val), w_b) ∧
  EvAllocate r (buf_size (bound_buffer 1 56)) (buf_id (bound_buffer 1 56))
    ∈ new_events tuple_kernel_world w_b.
Proof.
  intros ty val r cd w_b.
  destruct (unpack_unsupported ty val eq_refl) as (_ & Hloop & Hcall).
  split; [reflexivity|].
  split; [exact (Hloop [(float64, PyFloat (PyFloatBits 0))] [] _ eq_refl)|].
  assert (Hb : HSAKernel.bind (H := sample_collaborators) 0
                 tuple_kernel_world =
               (Ok (1%nat, cd, bound_buffer 1 56, r), w_b))
    by (vm_compute; reflexivity).
  split; [exact Hb|].
  destruct (Hcall sample_collaborators 0%nat
              (HSAKernelBase.__init__ (HSAKernel "k" [] [ty] 48 0))
              "k" [] [ty] 48 0%nat [val]
              tuple_kernel_world w_b 1%nat cd (bound_buffer 1 56) r
              eq_refl eq_refl Hb eq_refl)
    as (E & Hin & _).
  split; [exact E | exact Hin].
Defined.

(** C1: when [bind] has returned and the arguments have been expanded
    (as they are for supported types and conforming values, and also
    for values ctypes converts and for fewer values than types), the
    store loop writes exactly the expanded scalars, in order, after the
    header: the first at the first multiple of its size at or after
    [_injectedargsize], each next one at the first multiple of its size
    at or after the end of the one before.  [_injectedargsize] is, for
    a kernel as [__init__] builds it, the end of the six-pointer header
    that [bind] wrote, so that header and scalars form one such layout
    from byte 0 on.  The offset at which the last scalar ends is
    compared with the size of the buffer, which is the segment size the
    code descriptor reports: if they are equal the launch is submitted
    with that buffer; if not, the call raises the assertion failure,
    the world is as [bind] left it and the queue has seen no
    dispatch. *)
Theorem call_checks_layout `{Collaborators} (self : nat) (k : kernel_obj)
    (n : string) (b : Binary) (tys : list argtype) (inj : Z) (c : nat)
    (args : list pyval) (w w_b : World) (ctx : Context) (cd : CodeDesc)
    (kernargs : buffer) (region : Region) :
  objects w !! self = Some k → impl k = HSAKernel n b tys inj c →
  HSAKernel.bind self w = (Ok (ctx, cd, kernargs, region), w_b) →
  buf_cells kernargs = header_cells
  ∧ buf_size kernargs = kernarg_segment_byte_size cd
  ∧ (Forall (λ p, instance_of p.1 p.2) (zip tys args) →
     ∃ cells, unpack_arguments (zip tys args) [] = Ok cells)
  ∧ (∀ llvm_module name argtypes w0,
       ∃ binary cacheprog,
         (HSAKernel.__init__ llvm_module name argtypes w0).1 =
           Ok (length (objects w0)) ∧
         objects (HSAKernel.__init__ llvm_module name argtypes w0).2
           !! length (objects w0) =
           Some (HSAKernelBase.__init__
                   (HSAKernel name binary argtypes
                      (Z.of_nat HSAKernel.INJECTED_NARG * sizeof_void_p)
                      cacheprog)))
  ∧ ∀ cells,
      unpack_arguments (zip tys args) [] = Ok cells →
      ∃ stored base,
        let kernargs' :=
          {| buf_id := buf_id kernargs; buf_size := buf_size kernargs;
             buf_cells := header_cells ++ stored |} in
        insert_arguments cells inj kernargs = Ok (base, kernargs') ∧
        stored.*2 = cells ∧
        well_placed inj stored base ∧
        (inj = Z.of_nat HSAKernel.INJECTED_NARG * sizeof_void_p →
         well_placed 0 (header_cells ++ stored) base) ∧
        (base = kernarg_segment_byte_size cd →
         HSAKernel.__call__ self args w =
           (Ok tt, after_dispatch ctx cd kernargs' k region w_b) ∧
         count_events is_dispatch
           (new_events w (HSAKernel.__call__ self args w).2) = 1%nat) ∧
        (base ≠ kernarg_segment_byte_size cd →
         HSAKernel.__call__ self args w =
           (Raise (AssertionError "Kernel argument size is invalid"), w_b) ∧
         count_events is_dispatch
           (new_events w (HSAKernel.__call__ self args w).2) = 0%nat).
Proof.
  intros Hk Hi Hb.
  destruct (bind_effect _ _ _ _ _ _ _ _ Hk Hi) as (new & [T _ _ _ _] & D & _).
  rewrite Hb in T. simpl in T.
  assert (Hbuf : buf_size kernargs = kernarg_segment_byte_size cd ∧
                 buf_cells kernargs = header_cells).
  { rewrite (bind_unfold _ _ _ _ _ _ _ _ Hk Hi) in Hb.
    destruct (_CachedProgram.get c w) as [[[ctx' entry]|e] w1];
      [|discriminate].
    simpl in Hb.
    destruct (kernarg_segment_byte_size (code_desc entry) <? 0);
      [discriminate|].
    injection Hb as _ <- <- _ _. split; reflexivity. }
  destruct Hbuf as [Hsize Hhead].
  split; [exact Hhead|]. split; [exact Hsize|]. split; [|split].
  - intros Hinst.
    destruct (unpack_arguments_zipped (zip tys args) [] Hinst) as [cells E].
    exists cells. exact E.
  - intros llvm_module name argtypes w0. unfold HSAKernel.__init__.
    destruct (hlc_finalize llvm_module) as [assembly binary].
    exists binary, (length (cached_programs w0)).
    split; [reflexivity|]. simpl. now rewrite list_lookup_middle.
  - intros cells Hcells.
    destruct (insert_arguments_placed cells inj kernargs)
      as (base & stored & Hins & Hst & Hpl).
    rewrite Hhead in Hins.
    exists stored, base. intros kernargs'.
    split; [exact Hins|]. split; [exact Hst|]. split; [exact Hpl|].
    split.
    { intros ->. exact (well_placed_app _ _ _ _ _ header_placed Hpl). }
    rewrite (call_unfold _ _ _ _ _ _ _ _ _ Hk Hi), Hb, Hcells, Hins.
    fold kernargs'. change (buf_size kernargs') with (buf_size kernargs).
    rewrite Hsize. split.
    + intros ->. rewrite Z.eqb_refl. split; [reflexivity|]. simpl.
      erewrite new_events_app by (simpl; rewrite T, <- app_assoc; reflexivity).
      rewrite count_events_app, D. reflexivity.
    + intros Hne. apply Z.eqb_neq in Hne. rewrite Hne.
      split; [reflexivity|]. simpl.
      now rewrite (new_events_app _ _ _ T).
Qed.

Lemma call_checks_layout_witness :
  let w := one_kernel_world in
  let args := [PyFloat (PyFloatBits 0)] in
  let r := {| region_id := 1; supports_kernargs := true |} in
  let cd := {| cd_program := 0; cd_symbol_offset := 16;
               kernarg_segment_byte_size := 56 |} in
  let w_b := (HSAKernel.bind (H := sample_collaborators) 0 w).2 in
  HSAKernel.bind (H := sample_collaborators) 0 w =
    (Ok (1%nat, cd, bound_buffer 1 56, r), w_b) ∧
  unpack_arguments (zip [float64] args) [] = Ok [c_double (PyFloatBits 0)] ∧
  insert_arguments [c_double (PyFloatBits 0)] 48 (bound_buffer 1 56) =
    Ok (56, {| buf_id := 1; buf_size := 56;
               buf_cells := header_cells
                            ++ [(48, c_double (PyFloatBits 0))] |}) ∧
  well_placed 0 (header_cells ++ [(48, c_double (PyFloatBits 0))]) 56 ∧
  (HSAKernel.__call__ (H := sample_collaborators) 0 args w).1 = Ok tt ∧
  count_events is_dispatch
    (new_events w (HSAKernel.__call__ (H := sample_collaborators) 0 args w).2)
    = 1%nat.
Proof.
  intros w args r cd w_b.
  assert (Hb : HSAKernel.bind (H := sample_collaborators) 0 w =
               (Ok (1%nat, cd, bound_buffer 1 56, r), w_b))
    by (vm_compute; reflexivity).
  assert (Hcells : unpack_arguments (zip [float64] args) [] =
                   Ok [c_double (PyFloatBits 0)]) by reflexivity.
  split; [exact Hb|]. split; [exact Hcells|].
  destruct (call_checks_layout (H := sample_collaborators) 0
              (HSAKernelBase.__init__ (HSAKernel "k" [] [float64] 48 0))
              "k" [] [float64] 48 0 args w w_b 1%nat cd (bound_buffer 1 56) r
              eq_refl eq_refl Hb)
    as (_ & _ & _ & _ & Hlayout).
  destruct (Hlayout _ Hcells)
    as (stored & base & Hins & _ & _ & Hwhole & Hok & _).
  assert (Hrun : insert_arguments [c_double (PyFloatBits 0)] 48
                   (bound_buffer 1 56) =
                 Ok (56, {| buf_id := 1; buf_size := 56;
                            buf_cells := header_cells
                              ++ [(48, c_double (PyFloatBits 0))] |}))
    by (vm_compute; reflexivity).
  split; [exact Hrun|].
  rewrite Hrun in Hins. injection Hins as <- <-.
  split; [exact (Hwhole eq_refl)|].
  destruct (Hok eq_refl) as [-> Hcount]. split; [reflexivity | exact Hcount].
Defined.

(** An [int] handed over for a [float64] is converted as ctypes converts
    it and the launch goes through; a [float] handed over for an
    integer type is refused; with no argument at all nothing is stored,
    the layout ends where the header ends, and the call raises. *)
Example call_converts_and_checks :
  let call := HSAKernel.__call__ (H := sample_collaborators) 0 in
  unpack_arguments [(float64, PyInt 3)] [] =
    Ok [c_double (PyFloatBits 0x4008000000000000)] ∧
  unpack_arguments [(float32, PyFloat (PyFloatBits 0x3fb999999999999a))] [] =
    Ok [Cell CFloat (CSingle 0x3dcccccd)] ∧
  unpack_arguments [(Integer true W32, PyFloat (PyFloatBits 0))] [] =
    Raise (TypeError "'float' object cannot be interpreted as an integer") ∧
  (call [PyInt 3] one_kernel_world).1 = Ok tt ∧
  (call [] one_kernel_world).1 =
    Raise (AssertionError "Kernel argument size is invalid").
Proof.
  split; [vm_compute; reflexivity|]. split; [vm_compute; reflexivity|].
  split; [vm_compute; reflexivity|]. split; vm_compute; reflexivity.
Qed.

(** A kernel whose single argument is a [float32]: the layout ends at
    byte 52 of a 56-byte segment, the call raises, nothing is launched. *)
Example call_layout_mismatch :
  let w := with_objects
             [HSAKernelBase.__init__ (HSAKernel "k" [] [float32] 48 0)]
             one_kernel_world in
  let r := HSAKernel.__call__ (H := sample_collaborators) 0
             [PyFloat (PyFloatBits 0)] w in
  r.1 = Raise (AssertionError "Kernel argument size is invalid") ∧
  count_events is_dispatch (trace r.2) = 0%nat.
Proof. split; reflexivity. Qed.

Section CallEffect.
Context `{Collaborators}.

Lemma at_most_once_quiet (c : nat) (w w' : World) (new : list event) :
  trace w' = trace w ++ new →
  cached_programs w' = cached_programs w →
  (∀ ctx, completed_finalizations ctx new = 0%nat ∧
          finalize_calls ctx new = 0%nat) →
  at_most_once c w w' new.
Proof.
  intros T P Z. split.
  - exact T.
  - intros ctx e. unfold cache_entry. now rewrite P.
  - intros ctx _. apply Z.
  - intros ctx. destruct (Z ctx) as [-> _].
    split; [apply Nat.le_0_l | discriminate].
  - intros ctx _. destruct (Z ctx) as [_ ->].
    split; [apply Nat.le_0_l | discriminate].
Qed.

(** [__call__] keeps the at-most-once discipline of the kernel's cache
    and creates neither objects nor caches. *)
Lemma call_effect (self : nat) (k : kernel_obj) (n : string) (b : Binary)
    (tys : list argtype) (inj : Z) (c : nat) (args : list pyval) (w : World) :
  objects w !! self = Some k → impl k = HSAKernel n b tys inj c →
  ∃ new,
    at_most_once c w (HSAKernel.__call__ self args w).2 new ∧
    objects (HSAKernel.__call__ self args w).2 = objects w ∧
    length (cached_programs (HSAKernel.__call__ self args w).2) =
      length (cached_programs w).
Proof.
  intros Hk Hi.
  destruct (bind_effect _ _ _ _ _ _ _ _ Hk Hi) as (new & Hamo & _ & O & L).
  rewrite (call_unfold _ _ _ _ _ _ _ _ _ Hk Hi).
  destruct (HSAKernel.bind self w) as [[[[[ctx cd] kernargs] region]|e] w_b];
    simpl in *; [|eauto].
  destruct (unpack_arguments (zip tys args) []) as [cells|e]; [|eauto].
  destruct (insert_arguments cells inj kernargs) as [[base kernargs']|e];
    [|eauto].
  destruct (base =? buf_size kernargs'); [|eauto].
  exists (new ++ [EvDispatch ctx cd kernargs' (local_size k) (global_size k);
                  EvFree region (buf_id kernargs')]).
  split; [|split; [exact O | exact L]].
  apply (at_most_once_trans _ _ _ _ _ _ Hamo).
  apply at_most_once_quiet;
    [reflexivity | reflexivity | intros ctx'; split; reflexivity].
Qed.

End CallEffect.

(* ------------------------------------------------------------------ *)
(** ** Clones and the shared cache                                      *)
(* ------------------------------------------------------------------ *)

Lemma holds_cache_grow (w : World) (c o : nat) (more : list kernel_obj) :
  holds_cache w c o → holds_cache (with_objects (objects w ++ more) w) c o.
Proof.
  intros (k & n & b & tys & inj & Hk & Hi).
  exists k, n, b, tys, inj. split; [|exact Hi].
  simpl. now apply lookup_app_l_Some.
Qed.

(** The clone holds the cache of the object it was copied from; no
    cache is created and nothing is finalized. *)
Lemma configure_shares_cache (o c : nat) (gs : size_arg)
    (ls : option size_arg) (st : option Stream) (w : World) :
  holds_cache w c o →
  ∃ clone w',
    HSAKernelBase.configure o gs ls st w = (Ok clone, w') ∧
    holds_cache w' c clone ∧
    (∀ o', holds_cache w c o' → holds_cache w' c o') ∧
    cached_programs w' = cached_programs w ∧ trace w' = trace w.
Proof.
  intros (k & n & b & tys & inj & Hk & Hi).
  eexists _, _. split; [apply (configure_bound _ _ _ _ _ _ Hk)|].
  split; [|split; [intros o'; apply holds_cache_grow | split; reflexivity]].
  exists (configured k gs ls st), n, b, tys, inj. split.
  - simpl. now rewrite list_lookup_middle.
  - rewrite <- Hi. unfold configured. now destruct ls.
Qed.

Section Family.
Context `{Collaborators}.

Lemma join_configure_inv (c o : nat) (family : list nat) (gs : size_arg)
    (ls : option size_arg) (st : option Stream) (w : World) :
  Forall (holds_cache w c) family → holds_cache w c o →
  let fw := join family (HSAKernelBase.configure o gs ls st w) in
  Forall (holds_cache fw.2 c) fw.1 ∧
  length (cached_programs fw.2) = length (cached_programs w) ∧
  at_most_once c w fw.2 [].
Proof.
  intros Hfam Ho.
  destruct (configure_shares_cache o c gs ls st w Ho)
    as (clone & w' & -> & Hclone & Hold & P & T).
  simpl. split; [|split].
  - apply Forall_app. split; [|repeat constructor; exact Hclone].
    eapply List.Forall_impl; [|exact Hfam]. exact Hold.
  - now rewrite P.
  - apply at_most_once_quiet;
      [now rewrite T, app_nil_r | exact P | intros; split; reflexivity].
Qed.

Lemma run_kernel_op_inv (c : nat) (op : kernel_op) (family : list nat)
    (w : World) :
  Forall (holds_cache w c) family →
  let fw := run_kernel_op op family w in
  Forall (holds_cache fw.2 c) fw.1 ∧
  length (cached_programs fw.2) = length (cached_programs w) ∧
  ∃ new, at_most_once c w fw.2 new.
Proof.
  intros Hfam.
  assert (Hskip : Forall (holds_cache w c) family ∧
                  length (cached_programs w) = length (cached_programs w) ∧
                  ∃ new, at_most_once c w w new).
  { split; [exact Hfam|]. split; [reflexivity|].
    exists []. apply at_most_once_refl. }
  destruct op as [m gs ls st|m g b rest|m ctx|m ctx args]; simpl;
    destruct (family !! m) as [o|] eqn:Hm; try exact Hskip;
    pose proof (proj1 (Forall_lookup _ _) Hfam _ _ Hm) as Ho.
  - destruct (join_configure_inv c o family gs ls st w Hfam Ho)
      as (F & L & A). eauto.
  - unfold HSAKernelBase.__getitem__, HSAKernelBase.configure_star.
    destruct rest as [|s [|s' rest]]; try exact Hskip.
    + destruct (join_configure_inv c o family
                  (Sequence (zip_with Z.mul
                     (_ensure_size_or_append (_ensure_list g)
                        (Nat.max (length (_ensure_list g))
                                 (length (_ensure_list b))))
                     (_ensure_size_or_append (_ensure_list b)
                        (Nat.max (length (_ensure_list g))
                                 (length (_ensure_list b))))))
                  (Some (Sequence
                     (_ensure_size_or_append (_ensure_list b)
                        (Nat.max (length (_ensure_list g))
                                 (length (_ensure_list b))))))
                  None w Hfam Ho) as (F & L & A). eauto.
    + destruct (join_configure_inv c o family
                  (Sequence (zip_with Z.mul
                     (_ensure_size_or_append (_ensure_list g)
                        (Nat.max (length (_ensure_list g))
                                 (length (_ensure_list b))))
                     (_ensure_size_or_append (_ensure_list b)
                        (Nat.max (length (_ensure_list g))
                                 (length (_ensure_list b))))))
                  (Some (Sequence
                     (_ensure_size_or_append (_ensure_list b)
                        (Nat.max (length (_ensure_list g))
                                 (length (_ensure_list b))))))
                  s w Hfam Ho) as (F & L & A). eauto.
  - destruct Ho as (k & n & b & tys & inj & Hk & Hi).
    destruct (bind_effect o k n b tys inj c (set_context ctx w) Hk Hi)
      as (new & A & _ & O & L).
    apply at_most_once_set_context in A. cbn [fst snd].
    split; [|split; [exact L | exists new; exact A]].
    eapply List.Forall_impl; [|exact Hfam].
    intros o' (k' & n' & b' & tys' & inj' & Hk' & Hi').
    exists k', n', b', tys', inj'. split; [|exact Hi'].
    rewrite O. exact Hk'.
  - destruct Ho as (k & n & b & tys & inj & Hk & Hi).
    destruct (call_effect o k n b tys inj c args (set_context ctx w) Hk Hi)
      as (new & A & O & L).
    apply at_most_once_set_context in A. cbn [fst snd].
    split; [|split; [exact L | exists new; exact A]].
    eapply List.Forall_impl; [|exact Hfam].
    intros o' (k' & n' & b' & tys' & inj' & Hk' & Hi').
    exists k', n', b', tys', inj'. split; [|exact Hi'].
    rewrite O. exact Hk'.
Qed.

Lemma run_kernel_ops_inv (c : nat) (ops : list kernel_op)
    (family : list nat) (w : World) :
  Forall (holds_cache w c) family →
  let fw := run_kernel_ops ops family w in
  Forall (holds_cache fw.2 c) fw.1 ∧
  length (cached_programs fw.2) = length (cached_programs w) ∧
  ∃ new, at_most_once c w fw.2 new.
Proof.
  revert family w. induction ops as [|op ops IH]; intros family w Hfam; simpl.
  - split; [exact Hfam|]. split; [reflexivity|].
    exists []. apply at_most_once_refl.
  - destruct (run_kernel_op_inv c op family w Hfam) as (F1 & L1 & new1 & A1).
    destruct (run_kernel_op op family w) as [family1 w1]. simpl in *.
    destruct (IH family1 w1 F1) as (F2 & L2 & new2 & A2).
    split; [exact F2|]. split; [congruence|].
    exists (new1 ++ new2). exact (at_most_once_trans _ _ _ _ _ _ A1 A2).
Qed.

End Family.

(** C10, as the claim states it, fails for the same reason as C2: under
    a context whose agent has no region for kernel arguments nothing is
    ever stored, so a bind on the kernel and a bind on its clone each
    run [program.finalize]. *)
Lemma clones_refinalize_counterexample :
  ¬ family_finalizes_at_most_once (H := sample_collaborators) 0
      [KBind 0 0%nat; KConfigure 0 (Scalar 64) None None; KBind 1 0%nat]
      one_kernel_world.
Proof.
  intros Hclaim. specialize (Hclaim 0%nat).
  apply Nat.leb_le in Hclaim. vm_compute in Hclaim. discriminate Hclaim.
Qed.

(** C10, amended: a clone made by [configure] holds the very cache
    object of the kernel it was made from (no cache is created, nothing
    is finalized), so over any sequence of reconfigurations, binds and
    calls made on a kernel and on its clones, under any active
    contexts, every member of the family still holds that one cache;
    [program.finalize] is called at most once for every context whose
    agent has a region that supports kernel arguments, the sequence is
    carried through at most once for every context, and a context that
    has a stored entry keeps it and is not finalized again. *)
Theorem clones_share_finalized_cache `{Collaborators} (self c : nat)
    (ops : list kernel_op) (w : World) :
  holds_cache w c self →
  (∀ gs ls st,
     ∃ clone w1,
       HSAKernelBase.configure self gs ls st w = (Ok clone, w1) ∧
       holds_cache w1 c clone ∧ holds_cache w1 c self ∧
       cached_programs w1 = cached_programs w ∧ trace w1 = trace w)
  ∧ let fw := run_kernel_ops ops [self] w in
    Forall (holds_cache fw.2 c) fw.1
    ∧ length (cached_programs fw.2) = length (cached_programs w)
    ∧ (∀ ctx, (completed_finalizations ctx (new_events w fw.2) ≤ 1)%nat)
    ∧ (∀ ctx, has_kernarg_region ctx = true →
              (finalize_calls ctx (new_events w fw.2) ≤ 1)%nat)
    ∧ (∀ ctx e,
         cache_entry w c ctx = Some e →
         cache_entry fw.2 c ctx = Some e ∧
         finalize_calls ctx (new_events w fw.2) = 0%nat ∧
         completed_finalizations ctx (new_events w fw.2) = 0%nat).
Proof.
  intros Hself. split.
  - intros gs ls st.
    destruct (configure_shares_cache self c gs ls st w Hself)
      as (clone & w1 & E & Hc & Hold & P & T).
    exists clone, w1. auto 10.
  - intros fw.
    destruct (run_kernel_ops_inv c ops [self] w) as (F & L & new & A);
      [repeat constructor; exact Hself|].
    fold fw in F, L, A. destruct A as [T K Hh C F'].
    rewrite (new_events_app _ _ _ T).
    split; [exact F|]. split; [exact L|]. split; [intros ctx; apply C|].
    split; [intros ctx Hr; now apply F'|].
    intros ctx e He. destruct (Hh ctx) as [Hc Hf]; [eauto|]. auto.
Qed.

Lemma clones_share_finalized_cache_witness :
  let ops := [KBind 0 1%nat;
              KConfigure 0 (Sequence [64; 2]) (Some (Scalar 8)) None;
              KBind 1 1%nat;
              KGetitem 1 (Scalar 4) (Scalar 16) [];
              KCall 2 1%nat [PyFloat (PyFloatBits 0)];
              KBind 0 1%nat] in
  let fw := run_kernel_ops (H := sample_collaborators) ops [0%nat]
              one_kernel_world in
  holds_cache one_kernel_world 0 0 ∧
  fw.1 = [0; 1; 2]%nat ∧
  Forall (holds_cache fw.2 0) fw.1 ∧
  (finalize_calls 1%nat (new_events one_kernel_world fw.2) ≤ 1)%nat ∧
  finalize_calls 1%nat (trace fw.2) = 1%nat.
Proof.
  intros ops fw.
  assert (Hself : holds_cache one_kernel_world 0 0).
  { eexists _, "k", [], [float64], 48. split; reflexivity. }
  split; [exact Hself|]. split; [reflexivity|].
  destruct (clones_share_finalized_cache (H := sample_collaborators)
              0 0 ops one_kernel_world Hself) as (_ & F & _ & _ & Hf & _).
  split; [exact F|]. split; [apply Hf; reflexivity | reflexivity].
Defined.

(* ------------------------------------------------------------------ *)
(** ** The specialization table                                         *)
(* ------------------------------------------------------------------ *)

Section Specialize.
Context `{Collaborators}.

(** [specialize] on an auto-specializing kernel, step by step. *)
Lemma specialize_unfold (self : nat) (k : kernel_obj) (f d : nat)
    (args : list pyval) (sig : list argtype)
    (t : gmap (list argtype) nat) (w : World) :
  objects w !! self = Some k → impl k = AutoJitHSAKernel f d →
  resolve_argument_types args = Ok sig →
  tables w !! d = Some t →
  AutoJitHSAKernel.specialize self args w =
    match t !! sig with
    | Some kernel => (Ok kernel, w)
    | None =>
        match compile_hsa f sig with
        | Ok cres =>
            (Ok (length (objects w)), after_compile f d sig t cres w)
        | Raise e =>
            (Raise e,
             {| objects := objects w; cached_programs := cached_programs w;
                tables := tables w; current_context := current_context w;
                next_handle := next_handle w;
                trace := trace w ++ [EvCompile f sig] |})
        end
    end.
Proof.
  intros Hk Hi Hr Ht.
  unfold AutoJitHSAKernel.specialize, bind at 1, get_object.
  rewrite Hk, Hi. unfold bind at 1, lift. rewrite Hr.
  unfold bind at 1, get_table. rewrite Ht.
  destruct (t !! sig) as [kernel|]; [reflexivity|].
  unfold bind at 1, compile_kernel, bind at 1, emit.
  unfold bind at 1, lift. simpl.
  destruct (compile_hsa f sig) as [cres|e]; [|reflexivity].
  unfold HSAKernel.__init__.
  destruct (hlc_finalize (cres_llvm_module cres)) as [assembly binary] eqn:Eh.
  unfold bind, _CachedProgram.__init__, new_object,
    AutoJitHSAKernel.definitions_store, ret. simpl.
  rewrite Ht. unfold after_compile. rewrite Eh. reflexivity.
Qed.

Lemma specialize_no_signature (self : nat) (k : kernel_obj) (f d : nat)
    (args : list pyval) (e : exception) (w : World) :
  objects w !! self = Some k → impl k = AutoJitHSAKernel f d →
  resolve_argument_types args = Raise e →
  AutoJitHSAKernel.specialize self args w = (Raise e, w).
Proof.
  intros Hk Hi Hr.
  unfold AutoJitHSAKernel.specialize, bind at 1, get_object.
  rewrite Hk, Hi. unfold bind at 1, lift. now rewrite Hr.
Qed.

End Specialize.

Lemma table_lookup_tables (w : World) (d : nat)
    (t : gmap (list argtype) nat) (sig : list argtype) :
  tables w !! d = Some t → table_lookup w d sig = t !! sig.
Proof. intros E. unfold table_lookup. now rewrite E. Qed.

Section SpecializeStep.
Context `{Collaborators}.

(** The table after a compilation is well formed again and has kept
    what it held. *)
Lemma after_compile_wf (f d : nat) (sig : list argtype)
    (t : gmap (list argtype) nat) (cres : CompileResult) (w : World) :
  tables w !! d = Some t → t !! sig = None → table_wf w d →
  table_wf (after_compile f d sig t cres w) d ∧
  table_lookup (after_compile f d sig t cres w) d sig =
    Some (length (objects w)) ∧
  (∀ sig' k', table_lookup w d sig' = Some k' →
              table_lookup (after_compile f d sig t cres w) d sig' = Some k').
Proof.
  intros Ht Hnone (_ & Hbound & Hinj).
  assert (Hd : (d < length (tables w))%nat) by now apply lookup_lt_Some in Ht.
  assert (Hl : ∀ s, table_lookup (after_compile f d sig t cres w) d s =
                    <[sig := length (objects w)]> t !! s).
  { intros s. unfold table_lookup. simpl.
    now rewrite list_lookup_insert_eq. }
  assert (Hold : ∀ s k', <[sig := length (objects w)]> t !! s = Some k' →
                 (s = sig ∧ k' = length (objects w)) ∨
                 (s ≠ sig ∧ table_lookup w d s = Some k')).
  { intros s k'. rewrite (table_lookup_tables _ _ _ _ Ht).
    destruct (decide (s = sig)) as [->|Hne].
    - rewrite lookup_insert_eq. intros [= <-]. now left.
    - rewrite lookup_insert_ne by congruence. now right. }
  split; [split; [|split]|split].
  - simpl. rewrite list_lookup_insert_eq by exact Hd. eauto.
  - intros s k'. rewrite Hl. intros Hs. simpl. rewrite length_app. simpl.
    destruct (Hold _ _ Hs) as [[_ ->]|[_ Hw]]; [lia|].
    apply Hbound in Hw. lia.
  - intros s1 s2 k'. rewrite !Hl. intros H1 H2.
    destruct (Hold _ _ H1) as [[-> E1]|[N1 W1]],
             (Hold _ _ H2) as [[-> E2]|[N2 W2]].
    + reflexivity.
    + subst k'. apply Hbound in W2. lia.
    + subst k'. apply Hbound in W1. lia.
    + exact (Hinj _ _ _ W1 W2).
  - rewrite Hl. apply lookup_insert_eq.
  - intros sig' k'. rewrite Hl, (table_lookup_tables _ _ _ _ Ht).
    intros Hs. rewrite lookup_insert_ne; [exact Hs|]. congruence.
Qed.

(** One call of [specialize]: the wrapper stays, the table stays well
    formed and keeps its entries, a returned kernel is the one the table
    now holds for the signature, and the compiler was asked once if the
    signature was new and not at all if it was known. *)
Lemma specialize_step (self : nat) (k : kernel_obj) (f d : nat)
    (args : list pyval) (w : World) :
  objects w !! self = Some k → impl k = AutoJitHSAKernel f d →
  table_wf w d →
  let rw := AutoJitHSAKernel.specialize self args w in
  objects rw.2 !! self = Some k ∧
  table_wf rw.2 d ∧
  (∀ sig' k', table_lookup w d sig' = Some k' →
              table_lookup rw.2 d sig' = Some k') ∧
  (∀ sig, resolve_argument_types args = Ok sig →
     (∀ kernel, rw.1 = Ok kernel → table_lookup rw.2 d sig = Some kernel) ∧
     (∀ kernel, table_lookup w d sig = Some kernel → rw = (Ok kernel, w)) ∧
     (is_ok rw.1 = true →
      count_events (is_compile sig) (new_events w rw.2) =
        match table_lookup w d sig with Some _ => 0 | None => 1 end%nat)).
Proof.
  intros Hk Hi Hwf rw. pose proof Hwf as ([t Ht] & Hbound & Hinj).
  destruct (resolve_argument_types args) as [sig|e] eqn:Hr.
  2:{ subst rw. rewrite (specialize_no_signature _ _ _ _ _ _ _ Hk Hi Hr).
      simpl. split; [exact Hk|]. split; [exact Hwf|]. split; [auto|].
      intros sig' [=]. }
  subst rw. rewrite (specialize_unfold _ _ _ _ _ _ _ _ Hk Hi Hr Ht).
  destruct (t !! sig) as [kernel|] eqn:Hs.
  { simpl. split; [exact Hk|]. split; [exact Hwf|]. split; [auto|].
    intros sig' [= <-]. rewrite (table_lookup_tables _ _ _ _ Ht), Hs.
    split; [now intros ? [= <-]|]. split; [now intros ? [= <-]|].
    intros _. unfold new_events. now rewrite drop_all. }
  destruct (compile_hsa f sig) as [cres|e].
  - destruct (after_compile_wf f d sig t cres w Ht Hs Hwf) as (W & L & P).
    simpl. split; [now apply lookup_app_l_Some|]. split; [exact W|].
    split; [exact P|].
    intros sig' [= <-]. rewrite (table_lookup_tables _ _ _ _ Ht), Hs.
    split; [now intros ? [= <-]|]. split; [discriminate|].
    intros _. erewrite new_events_app by reflexivity.
    unfold count_events. simpl. now rewrite bool_decide_eq_true_2.
  - simpl. split; [exact Hk|]. split; [exact Hwf|]. split; [auto|].
    intros sig' [= <-]. rewrite (table_lookup_tables _ _ _ _ Ht), Hs.
    split; [discriminate|]. split; [discriminate|]. discriminate.
Qed.

Lemma run_specialize_keeps (self : nat) (k : kernel_obj) (f d : nat)
    (calls : list (list pyval)) (w : World) :
  objects w !! self = Some k → impl k = AutoJitHSAKernel f d →
  table_wf w d →
  table_wf (run_specialize self calls w) d ∧
  ∀ sig k', table_lookup w d sig = Some k' →
            table_lookup (run_specialize self calls w) d sig = Some k'.
Proof.
  intros Hk Hi. revert w Hk.
  induction calls as [|args calls IH]; intros w Hk Hwf; simpl.
  - auto.
  - destruct (specialize_step self k f d args w Hk Hi Hwf)
      as (Hk1 & Hwf1 & P1 & _).
    destruct (IH _ Hk1 Hwf1) as [Hwf2 P2]. auto.
Qed.

End SpecializeStep.

(** C9: on an auto-specializing kernel, a second call whose arguments
    resolve to the signature of a first call that returned gets the same
    kernel object back and compiles nothing, so a new signature is
    compiled exactly once over the two calls (and a known one not at
    all); two calls with different signatures return two different
    kernel objects, both held by the table afterwards; and whatever the
    table holds it still holds after any further calls. *)
Theorem specialize_compiles_once `{Collaborators} (self : nat)
    (k : kernel_obj) (f d : nat) (w : World) :
  objects w !! self = Some k → impl k = AutoJitHSAKernel f d →
  table_wf w d →
  (∀ args1 args2 sig kernel w1,
     resolve_argument_types args1 = Ok sig →
     resolve_argument_types args2 = Ok sig →
     AutoJitHSAKernel.specialize self args1 w = (Ok kernel, w1) →
     AutoJitHSAKernel.specialize self args2 w1 = (Ok kernel, w1) ∧
     count_events (is_compile sig) (new_events w w1) =
       match table_lookup w d sig with Some _ => 0 | None => 1 end%nat)
  ∧ (∀ args1 args2 sig1 sig2 kernel1 kernel2 w1 w2,
       resolve_argument_types args1 = Ok sig1 →
       resolve_argument_types args2 = Ok sig2 →
       sig1 ≠ sig2 →
       AutoJitHSAKernel.specialize self args1 w = (Ok kernel1, w1) →
       AutoJitHSAKernel.specialize self args2 w1 = (Ok kernel2, w2) →
       kernel1 ≠ kernel2 ∧
       table_lookup w2 d sig1 = Some kernel1 ∧
       table_lookup w2 d sig2 = Some kernel2)
  ∧ (∀ calls sig kernel,
       table_lookup w d sig = Some kernel →
       table_lookup (run_specialize self calls w) d sig = Some kernel).
Proof.
  intros Hk Hi Hwf. split; [|split].
  - intros args1 args2 sig kernel w1 Hr1 Hr2 Hcall.
    destruct (specialize_step self k f d args1 w Hk Hi Hwf)
      as (Hk1 & Hwf1 & _ & Hsig).
    destruct (Hsig sig Hr1) as (Hret & _ & Hcount).
    rewrite Hcall in Hk1, Hwf1, Hret, Hcount. simpl in *.
    split; [|now apply Hcount].
    destruct (specialize_step self k f d args2 w1 Hk1 Hi Hwf1)
      as (_ & _ & _ & Hsig2).
    destruct (Hsig2 sig Hr2) as (_ & Hhit & _).
    apply Hhit, Hret. reflexivity.
  - intros args1 args2 sig1 sig2 kernel1 kernel2 w1 w2 Hr1 Hr2 Hne Hc1 Hc2.
    destruct (specialize_step self k f d args1 w Hk Hi Hwf)
      as (Hk1 & Hwf1 & _ & Hsig1).
    destruct (Hsig1 sig1 Hr1) as (Hret1 & _ & _).
    rewrite Hc1 in Hk1, Hwf1, Hret1. simpl in *.
    destruct (specialize_step self k f d args2 w1 Hk1 Hi Hwf1)
      as (_ & Hwf2 & P2 & Hsig2).
    destruct (Hsig2 sig2 Hr2) as (Hret2 & _ & _).
    rewrite Hc2 in Hwf2, P2, Hret2. simpl in *.
    specialize (Hret1 _ eq_refl). specialize (Hret2 _ eq_refl).
    apply P2 in Hret1.
    split; [|split; assumption].
    intros <-. destruct Hwf2 as (_ & _ & Hinj).
    exact (Hne (Hinj _ _ _ Hret1 Hret2)).
  - intros calls sig kernel Hs.
    now apply (run_specialize_keeps self k f d calls w Hk Hi Hwf).
Qed.

Lemma specialize_compiles_once_witness :
  let w := (AutoJitHSAKernel.__init__ 7 one_kernel_world).2 in
  let r1 := AutoJitHSAKernel.specialize (H := sample_collaborators) 1
              [PyInt 3] w in
  let r2 := AutoJitHSAKernel.specialize (H := sample_collaborators) 1
              [PyInt 5] r1.2 in
  let r3 := AutoJitHSAKernel.specialize (H := sample_collaborators) 1
              [PyFloat (PyFloatBits 0)] r2.2 in
  table_wf w 0 ∧
  r1.1 = Ok 2%nat ∧ r2 = (Ok 2%nat, r1.2) ∧ r3.1 = Ok 3%nat ∧
  count_events (is_compile [Integer true W64]) (new_events w r1.2) = 1%nat ∧
  (2 ≠ 3)%nat.
Proof.
  intros w r1 r2 r3.
  assert (Hwf : table_wf w 0).
  { split; [eexists; reflexivity|].
    split; intros; discriminate. }
  split; [exact Hwf|]. split; [reflexivity|].
  destruct (specialize_compiles_once (H := sample_collaborators) 1 _ 7 0 w
              eq_refl eq_refl Hwf) as (Hsame & _ & _).
  destruct (Hsame [PyInt 3] [PyInt 5] [Integer true W64] 2%nat r1.2
              eq_refl eq_refl eq_refl) as [H2 Hc].
  split; [exact H2|]. split; [reflexivity|]. split; [exact Hc|].
  assert (Hwf1 : table_wf r1.2 0).
  { destruct (specialize_step (H := sample_collaborators) 1 _ 7 0
                [PyInt 3] w eq_refl eq_refl Hwf) as (_ & W & _). exact W. }
  destruct (specialize_compiles_once (H := sample_collaborators) 1 _ 7 0 r1.2
              eq_refl eq_refl Hwf1) as (_ & Hdiff & _).
  destruct (Hdiff [PyInt 5] [PyFloat (PyFloatBits 0)] [Integer true W64]
              [float64] 2%nat 3%nat r1.2 r3.2
              eq_refl eq_refl ltac:(discriminate) eq_refl eq_refl)
    as (Hne & _). exact Hne.
Defined.

(* ------------------------------------------------------------------ *)
(** ** Further properties of the padding and of the layout              *)
(* ------------------------------------------------------------------ *)

(** X1: a zero alignment raises [ZeroDivisionError]; for a positive
    alignment the padding returned is the least non-negative amount
    that brings the offset to a multiple of the alignment. *)
Theorem calc_padding_least (align base : Z) :
  (align = 0 → _calc_padding_for_alignment align base = Raise ZeroDivisionError)
  ∧ (0 < align →
     ∃ pad,
       _calc_padding_for_alignment align base = Ok pad ∧
       0 ≤ pad < align ∧
       (base + pad) mod align = 0 ∧
       ∀ p, 0 ≤ p → (base + p) mod align = 0 → pad ≤ p).
Proof.
  split.
  - intros ->. reflexivity.
  - intros Ha.
    destruct (_calc_padding_for_alignment align base) as [pad|e] eqn:E.
    2:{ rewrite calc_padding_nonzero in E by lia. discriminate. }
    destruct (calc_padding_aligns _ _ _ Ha E) as [Hal Hb].
    exists pad. split; [reflexivity|]. split; [exact Hb|]. split; [exact Hal|].
    intros p Hp Hpal.
    destruct (Z_lt_le_dec p pad) as [Hlt|]; [exfalso|assumption].
    apply Z.mod_divide in Hal, Hpal; try lia.
    destruct Hal as [q1 H1], Hpal as [q2 H2].
    assert (pad - p = (q1 - q2) * align) by lia.
    assert (0 < pad - p < align) by lia.
    assert (0 < q1 - q2) by nia.
    nia.
Qed.

Lemma calc_padding_least_witness :
  0 < 8 ∧
  ∃ pad, _calc_padding_for_alignment 8 52 = Ok pad ∧ 0 ≤ pad < 8 ∧
         (52 + pad) mod 8 = 0.
Proof.
  split; [lia|].
  destruct (calc_padding_least 8 52) as [_ H].
  destruct (H ltac:(lia)) as (pad & E & Hb & Hal & _).
  exists pad. auto.
Defined.

Lemma total_size_nonneg (cells : list cell) : 0 ≤ total_size cells.
Proof.
  induction cells as [|av cells IH]; simpl; [lia|].
  pose proof (sizeof_pos av). lia.
Qed.

Lemma well_placed_bounds (stored : list (Z * cell)) (start stop : Z) :
  well_placed start stored stop →
  start + total_size stored.*2 ≤ stop ∧
  stop ≤ start + 2 * total_size stored.*2 - Z.of_nat (length stored).
Proof.
  revert start. induction stored as [|[offset av] stored IH]; intros start.
  - simpl. intros ->. lia.
  - intros (Hoff & _ & Hrest). apply IH in Hrest.
    rewrite fmap_cons. cbn [length].
    change (total_size ((offset, av).2 :: stored.*2))
      with (sizeof av + total_size stored.*2).
    rewrite Nat2Z.inj_succ. lia.
Qed.

(** X2: the store loop of [__call__] never raises; it stores the scalars
    in their order, each at the first multiple of its own size at or
    after the end of the scalar before it (so no two overlap and none
    lies before the starting offset), it leaves the size of the buffer
    alone, and the offset it ends at exceeds the starting offset by at
    least the bytes of the scalars and by less than twice as much. *)
Theorem insert_arguments_layout (cells : list cell) (base : Z)
    (kernargs : buffer) :
  ∃ base' stored,
    insert_arguments cells base kernargs =
      Ok (base',
          {| buf_id := buf_id kernargs; buf_size := buf_size kernargs;
             buf_cells := buf_cells kernargs ++ stored |}) ∧
    stored.*2 = cells ∧
    well_placed base stored base' ∧
    base + total_size cells ≤ base' ∧
    base' ≤ base + 2 * total_size cells - Z.of_nat (length cells).
Proof.
  destruct (insert_arguments_placed cells base kernargs)
    as (base' & stored & E & Hcells & Hplaced).
  exists base', stored. split; [exact E|]. split; [exact Hcells|].
  split; [exact Hplaced|].
  destruct (well_placed_bounds _ _ _ Hplaced) as [Hlo Hhi].
  rewrite Hcells in Hlo, Hhi.
  assert (Hlen : length stored = length cells)
    by (rewrite <- Hcells; now rewrite length_fmap).
  rewrite Hlen in Hhi. split; [exact Hlo | exact Hhi].
Qed.

(** X3: when all scalars have the same size and the starting offset is
    a multiple of it, no padding is inserted: scalar [i] is stored at
    [base + size * i] and the loop ends at [base + size * n]. *)
Theorem insert_arguments_no_padding (s : Z) (cells : list cell) (base : Z)
    (kernargs : buffer) :
  Forall (λ av, sizeof av = s) cells → base mod s = 0 →
  ∃ kernargs',
    insert_arguments cells base kernargs =
      Ok (base + s * Z.of_nat (length cells), kernargs') ∧
    buf_cells kernargs' =
      buf_cells kernargs ++
      imap (λ i av, (base + s * Z.of_nat i, av)) cells.
Proof.
  intros Hall. revert base kernargs.
  induction Hall as [|av cells Hs _ IH]; intros base kernargs Hbase.
  - exists kernargs. simpl. split; [f_equal; f_equal; lia|].
    now rewrite app_nil_r.
  - pose proof (sizeof_pos av) as Hpos. simpl.
    rewrite calc_padding_nonzero by lia. rewrite Hs, Hbase. simpl.
    destruct (IH (base + 0 + s) (buffer_write kernargs (base + 0) av))
      as (kernargs' & -> & Hcells).
    { replace (base + 0 + s) with (base + 1 * s) by lia.
      rewrite Z.mod_add by lia. exact Hbase. }
    exists kernargs'. split; [f_equal; f_equal; lia|].
    rewrite Hcells. simpl. rewrite <- app_assoc. simpl.
    f_equal. f_equal; [f_equal; lia|].
    apply imap_ext. intros i x _. simpl. f_equal. lia.
Qed.

Lemma insert_arguments_no_padding_witness :
  let cells := [c_void_p 0; c_ssize_t 6; c_double (PyFloatBits 0)] in
  let kernargs := {| buf_id := 0; buf_size := 72; buf_cells := [] |} in
  Forall (λ av, sizeof av = 8) cells ∧ 48 mod 8 = 0 ∧
  ∃ kernargs',
    insert_arguments cells 48 kernargs = Ok (72, kernargs') ∧
    (buf_cells kernargs').*1 = [48; 56; 64].
Proof.
  intros cells kernargs.
  assert (Hall : Forall (λ av, sizeof av = 8) cells) by (repeat constructor).
  split; [exact Hall|]. split; [reflexivity|].
  destruct (insert_arguments_no_padding 8 cells 48 kernargs Hall eq_refl)
    as (kernargs' & E & Hc).
  exists kernargs'. split; [exact E|]. now rewrite Hc.
Defined.

(* ------------------------------------------------------------------ *)
(** ** Further properties of the marshaller                             *)
(* ------------------------------------------------------------------ *)

Lemma total_size_app (l1 l2 : list cell) :
  total_size (l1 ++ l2) = total_size l1 + total_size l2.
Proof. induction l1 as [|av l1 IH]; simpl; lia. Qed.

Lemma total_size_ssize_t (dims : list Z) :
  total_size (c_ssize_t <$> dims) = sizeof_void_p * Z.of_nat (length dims).
Proof.
  induction dims as [|d dims IH]; [reflexivity|].
  rewrite fmap_cons. change (total_size (c_ssize_t d :: (c_ssize_t <$> dims)))
    with (sizeof (c_ssize_t d) + total_size (c_ssize_t <$> dims)).
  rewrite IH. cbn [length]. rewrite Nat2Z.inj_succ.
  change (sizeof (c_ssize_t d)) with 8. unfold sizeof_void_p. lia.
Qed.

(** X4: a value that is an instance of its declared type always packs;
    the scalars are appended after what the list already holds, and
    their number and their bytes are fixed by the type: [4 + 2 * ndim]
    pointer-sized scalars for an array, one scalar of the type's width
    for an integer, a float or a boolean, two for a complex number. *)
Theorem unpack_argument_shape (ty : argtype) (val : pyval) :
  instance_of ty val →
  ∃ cells,
    (∀ kernelargs,
       _unpack_argument ty val kernelargs = Ok (kernelargs ++ cells)) ∧
    length cells = packed_count ty ∧
    total_size cells = packed_bytes ty.
Proof.
  destruct ty as [d r l|s bw| | | | | |name], val as [a|z|x|bl|re im|s'];
    simpl; try contradiction; intros Hi.
  - destruct Hi as [Hwf Hr]. exists (array_cells a).
    split; [intros acc; exact (unpack_array d r l a acc Hwf)|].
    destruct Hwf as [Hshape Hstrides]. unfold array_cells.
    split.
    + rewrite !length_app, !length_fmap, Hshape, Hstrides, Hr. simpl.
      now rewrite Nat.add_0_r.
    + rewrite !total_size_app, !total_size_ssize_t, Hshape, Hstrides, Hr.
      cbn. unfold sizeof_void_p. lia.
  - eexists. split; [intros acc; reflexivity|].
    split; [reflexivity | now destruct bw].
  - eexists. split; [intros acc; reflexivity|]. split; reflexivity.
  - eexists. split; [intros acc; reflexivity|]. split; reflexivity.
  - eexists. split; [intros acc; reflexivity|]. split; reflexivity.
  - exists [c_float re; c_float im].
    split; [intros acc; reflexivity|]. split; reflexivity.
  - exists [c_double re; c_double im].
    split; [intros acc; reflexivity|]. split; reflexivity.
Qed.

Lemma unpack_argument_shape_witness :
  let a := {| nd_size := 6; nd_itemsize := 4; nd_data := 4096;
              nd_ndim := 2; nd_shape := [2; 3]; nd_strides := [12; 4] |} in
  instance_of (Array float32 2 "C") (PyArray a) ∧
  ∃ cells,
    _unpack_argument (Array float32 2 "C") (PyArray a) [] = Ok cells ∧
    length cells = 8%nat ∧ total_size cells = 64.
Proof.
  intros a.
  assert (Hi : instance_of (Array float32 2 "C") (PyArray a))
    by (repeat split).
  split; [exact Hi|].
  destruct (unpack_argument_shape _ _ Hi) as (cells & Hc & Hn & Hb).
  exists cells. split; [exact (Hc [])|]. split; [exact Hn | exact Hb].
Defined.

Lemma append_axes_acc (dims : list Z) (axes : list nat) (acc : list cell) :
  append_axes dims axes acc =
    match append_axes dims axes [] with
    | Ok new => Ok (acc ++ new)
    | Raise e => Raise e
    end.
Proof.
  revert acc. induction axes as [|ax axes IH]; intros acc; simpl.
  - now rewrite app_nil_r.
  - destruct (dims !! ax) as [d|]; [|reflexivity].
    rewrite (IH (acc ++ [c_ssize_t d])), (IH [c_ssize_t d]).
    destruct (append_axes dims axes []) as [new|e]; [|reflexivity].
    now rewrite <- app_assoc.
Qed.

Lemma unpack_argument_acc (ty : argtype) (val : pyval) (acc : list cell) :
  _unpack_argument ty val acc =
    match _unpack_argument ty val [] with
    | Ok new => Ok (acc ++ new)
    | Raise e => Raise e
    end.
Proof.
  destruct ty as [d r l|s bw| | | | | |name]; simpl; try reflexivity;
    try (repeat match goal with
                | |- context [match ?r with Ok _ => _ | Raise _ => _ end] =>
                    destruct r
                end; reflexivity).
  destruct val as [a|z|x|bl|re im|s']; try reflexivity.
  rewrite (append_axes_acc (nd_shape a) _ (_ ++ _)).
  rewrite (append_axes_acc (nd_shape a) _ [_; _; _; _]).
  destruct (append_axes (nd_shape a) (range (nd_ndim a)) []) as [s1|e];
    [|reflexivity].
  rewrite (append_axes_acc (nd_strides a) _ (_ ++ s1)).
  rewrite (append_axes_acc (nd_strides a) _ ([_; _; _; _] ++ s1)).
  destruct (append_axes (nd_strides a) (range (nd_ndim a)) []) as [s2|e];
    [|reflexivity].
  f_equal. rewrite <- !app_assoc. reflexivity.
Qed.

(** X5: what an argument expands to does not depend on the arguments
    before it: expanding onto a list that already holds scalars gives
    those scalars followed by the expansion onto the empty list, and
    raises exactly when that one raises; the expansion of two argument
    lists one after the other is the expansion of the second onto the
    result of the first, and stops at the first argument that raises. *)
Theorem unpack_arguments_compose (typed_args more : list (argtype * pyval))
    (acc : list cell) :
  unpack_arguments typed_args acc =
    match unpack_arguments typed_args [] with
    | Ok new => Ok (acc ++ new)
    | Raise e => Raise e
    end
  ∧ unpack_arguments (typed_args ++ more) acc =
      match unpack_arguments typed_args acc with
      | Ok cells => unpack_arguments more cells
      | Raise e => Raise e
      end.
Proof.
  split.
  - revert acc. induction typed_args as [|[ty val] rest IH]; intros acc; simpl.
    + now rewrite app_nil_r.
    + rewrite (unpack_argument_acc ty val acc).
      destruct (_unpack_argument ty val []) as [new1|e]; [|reflexivity].
      rewrite (IH (acc ++ new1)), (IH new1).
      destruct (unpack_arguments rest []) as [new2|e]; [|reflexivity].
      now rewrite <- app_assoc.
  - revert acc. induction typed_args as [|[ty val] rest IH]; intros acc; simpl.
    + reflexivity.
    + destruct (_unpack_argument ty val acc) as [cells|e]; [apply IH|].
      reflexivity.
Qed.

(* ------------------------------------------------------------------ *)
(** ** Further properties of the kernel object                          *)
(* ------------------------------------------------------------------ *)

Lemma zip_take_l {A B} (l : list A) (k : list B) :
  zip l k = zip l (take (length l) k).
Proof.
  revert k. induction l as [|x l IH]; intros [|y k]; simpl; try reflexivity.
  now rewrite <- IH.
Qed.

(** X6: [__call__] pairs the declared types with the arguments by [zip]:
    arguments beyond the number of declared types are dropped without
    any error, and the call behaves as if they had not been passed. *)
Theorem call_ignores_surplus `{Collaborators} (self : nat) (k : kernel_obj)
    (n : string) (b : Binary) (tys : list argtype) (inj : Z) (c : nat)
    (args : list pyval) (w : World) :
  objects w !! self = Some k → impl k = HSAKernel n b tys inj c →
  HSAKernel.__call__ self args w =
    HSAKernel.__call__ self (take (length tys) args) w.
Proof.
  intros Hk Hi.
  rewrite !(call_unfold _ _ _ _ _ _ _ _ _ Hk Hi).
  now rewrite <- zip_take_l.
Qed.

Lemma call_ignores_surplus_witness :
  objects one_kernel_world !! 0%nat =
    Some (HSAKernelBase.__init__ (HSAKernel "k" [] [float64] 48 0)) ∧
  HSAKernel.__call__ (H := sample_collaborators) 0
    [PyFloat (PyFloatBits 0); PyInt 7; PyOther "x"] one_kernel_world =
  HSAKernel.__call__ (H := sample_collaborators) 0
    [PyFloat (PyFloatBits 0)] one_kernel_world.
Proof.
  split; [reflexivity|].
  exact (call_ignores_surplus (H := sample_collaborators) 0 _ "k" [] [float64]
           48 0 [PyFloat (PyFloatBits 0); PyInt 7; PyOther "x"]
           one_kernel_world eq_refl eq_refl).
Defined.

Lemma count_events_quiet (tr : list event) :
  quiet tr →
  count_events is_allocate tr = 0%nat ∧ count_events is_free tr = 0%nat ∧
  count_events is_dispatch tr = 0%nat.
Proof.
  unfold count_events.
  induction 1 as [|e tr (Ha & Hf & Hd) _ IH]; simpl; [auto|].
  now rewrite Ha, Hf, Hd.
Qed.

Section BindResult.
Context `{Collaborators}.

(** What [get] hands back is the entry its cache then holds for the
    active context; the driver is only asked to finalize. *)
Lemma get_result (self : nat) (w : World) :
  ∃ new,
    trace (_CachedProgram.get self w).2 = trace w ++ new ∧ quiet new ∧
    (next_handle w ≤ next_handle (_CachedProgram.get self w).2)%nat ∧
    ∀ ctx e,
      (_CachedProgram.get self w).1 = Ok (ctx, e) →
      ctx = current_context w ∧
      cache_entry (_CachedProgram.get self w).2 self ctx = Some e.
Proof.
  destruct (cached_programs w !! self) as [cp|] eqn:E1.
  2:{ exists []. rewrite (get_unbound _ _ E1). simpl. rewrite app_nil_r.
      split; [reflexivity|]. split; [constructor|]. split; [lia|].
      intros ctx e [=]. }
  destruct (_cache cp !! current_context w) as [e|] eqn:E2.
  { exists []. rewrite (get_hit _ _ _ _ E1 E2). simpl. rewrite app_nil_r.
    split; [reflexivity|]. split; [constructor|]. split; [lia|].
    intros ctx e' [= <- <-]. split; [reflexivity|].
    now rewrite (cache_entry_lookup _ _ _ _ E1). }
  destruct (List.filter supports_kernargs (agent_regions (current_context w)))
    as [|r rs] eqn:E3.
  - eexists. rewrite (get_miss_no_region _ _ _ E1 E2 E3). simpl.
    split; [reflexivity|]. split; [repeat constructor|]. split; [lia|].
    intros ctx e [=].
  - eexists. rewrite (get_miss _ _ _ _ _ E1 E2 E3). simpl.
    split; [reflexivity|]. split; [repeat constructor|]. split; [lia|].
    intros ctx e [= <- <-]. split; [reflexivity|].
    unfold cache_entry. simpl.
    rewrite list_lookup_insert_eq by now apply lookup_lt_Some in E1.
    simpl. apply lookup_insert_eq.
Qed.

End BindResult.

(** X7: when [bind] returns, the context is the active one, the code
    descriptor and the region are those of the entry the kernel's cache
    holds for it, and the buffer is a new one taken from that region by
    the last driver call made: its size is the segment size the
    descriptor reports, and it holds exactly the six zeroed pointer
    cells of the header, at offsets 0, 8, ..., 40. *)
Theorem bind_returns `{Collaborators} (self : nat) (k : kernel_obj)
    (n : string) (b : Binary) (tys : list argtype) (inj : Z) (c : nat)
    (w w_b : World) (ctx : Context) (cd : CodeDesc) (kernargs : buffer)
    (region : Region) :
  objects w !! self = Some k → impl k = HSAKernel n b tys inj c →
  HSAKernel.bind self w = (Ok (ctx, cd, kernargs, region), w_b) →
  ctx = current_context w
  ∧ (∃ e, cache_entry w_b c ctx = Some e ∧ code_desc e = cd ∧
          kernarg_region e = region)
  ∧ buf_size kernargs = kernarg_segment_byte_size cd
  ∧ 0 ≤ buf_size kernargs
  ∧ buf_cells kernargs =
      [(0, c_void_p 0); (8, c_void_p 0); (16, c_void_p 0);
       (24, c_void_p 0); (32, c_void_p 0); (40, c_void_p 0)]
  ∧ (next_handle w ≤ buf_id kernargs < next_handle w_b)%nat
  ∧ ∃ tr, trace w_b =
          tr ++ [EvAllocate region (buf_size kernargs) (buf_id kernargs)].
Proof.
  intros Hk Hi Hb. rewrite (bind_unfold _ _ _ _ _ _ _ _ Hk Hi) in Hb.
  destruct (get_result c w) as (new & T & _ & Hh & Hres).
  destruct (_CachedProgram.get c w) as [[[ctx' entry]|e] w1]; [|discriminate].
  simpl in *. destruct (Hres _ _ eq_refl) as [-> He].
  destruct (Z.ltb_spec (kernarg_segment_byte_size (code_desc entry)) 0)
    as [|Hpos]; [discriminate|].
  injection Hb as <- <- <- <- <-.
  split; [reflexivity|].
  split; [exists entry; auto|].
  split; [reflexivity|]. split; [exact Hpos|]. split; [reflexivity|].
  split; [simpl; lia|]. eexists. reflexivity.
Qed.

Lemma bind_returns_witness :
  let r := {| region_id := 1; supports_kernargs := true |} in
  let cd := {| cd_program := 0; cd_symbol_offset := 16;
               kernarg_segment_byte_size := 56 |} in
  let w_b := (HSAKernel.bind (H := sample_collaborators) 0
                one_kernel_world).2 in
  HSAKernel.bind (H := sample_collaborators) 0 one_kernel_world =
    (Ok (1%nat, cd, bound_buffer 1 56, r), w_b) ∧
  buf_size (bound_buffer 1 56) = 56 ∧
  ∃ e, cache_entry w_b 0 1%nat = Some e ∧ code_desc e = cd.
Proof.
  intros r cd w_b.
  assert (Hb : HSAKernel.bind (H := sample_collaborators) 0 one_kernel_world =
               (Ok (1%nat, cd, bound_buffer 1 56, r), w_b))
    by (vm_compute; reflexivity).
  split; [exact Hb|].
  destruct (bind_returns (H := sample_collaborators) 0
              (HSAKernelBase.__init__ (HSAKernel "k" [] [float64] 48 0))
              "k" [] [float64] 48 0 one_kernel_world w_b 1%nat cd
              (bound_buffer 1 56) r eq_refl eq_refl Hb)
    as (_ & (e & He & Hcd & _) & Hs & _).
  split; [exact Hs|]. exists e. split; [exact He | exact Hcd].
Defined.

(** X8: a call that returns has taken one buffer from the region,
    dispatched it with the [local_size] and [global_size] of the object
    it was made on, and given that same buffer back to that same region,
    in this order and as its last three driver calls; a call that raises
    has dispatched nothing and has given nothing back, also when it had
    already taken a buffer. *)
Theorem call_allocates_dispatches_frees `{Collaborators} (self : nat)
    (k : kernel_obj) (n : string) (b : Binary) (tys : list argtype)
    (inj : Z) (c : nat) (args : list pyval) (w : World) :
  objects w !! self = Some k → impl k = HSAKernel n b tys inj c →
  ∃ new,
    trace (HSAKernel.__call__ self args w).2 = trace w ++ new ∧
    match (HSAKernel.__call__ self args w).1 with
    | Ok _ =>
        count_events is_allocate new = 1%nat ∧
        count_events is_dispatch new = 1%nat ∧
        count_events is_free new = 1%nat ∧
        ∃ tr ctx cd kernargs region,
          new = tr ++ [EvAllocate region (buf_size kernargs) (buf_id kernargs);
                       EvDispatch ctx cd kernargs (local_size k)
                         (global_size k);
                       EvFree region (buf_id kernargs)]
    | Raise _ =>
        (count_events is_allocate new ≤ 1)%nat ∧
        count_events is_dispatch new = 0%nat ∧
        count_events is_free new = 0%nat
    end.
Proof.
  intros Hk Hi.
  rewrite (call_unfold _ _ _ _ _ _ _ _ _ Hk Hi),
          (bind_unfold _ _ _ _ _ _ _ _ Hk Hi).
  destruct (get_result c w) as (new1 & T & Q & _).
  destruct (count_events_quiet _ Q) as (Qa & Qf & Qd).
  destruct (_CachedProgram.get c w) as [[[ctx entry]|e] w1]; simpl in *.
  2:{ exists new1. split; [exact T|]. rewrite Qa, Qf, Qd. auto with arith. }
  destruct (kernarg_segment_byte_size (code_desc entry) <? 0); simpl.
  { exists new1. split; [exact T|]. rewrite Qa, Qf, Qd. auto with arith. }
  set (alloc := EvAllocate (kernarg_region entry)
                  (kernarg_segment_byte_size (code_desc entry))
                  (next_handle w1)).
  assert (Hraise :
    trace (after_allocate (kernarg_region entry)
             (kernarg_segment_byte_size (code_desc entry)) w1) =
      trace w ++ (new1 ++ [alloc]) ∧
    (count_events is_allocate (new1 ++ [alloc]) ≤ 1)%nat ∧
    count_events is_dispatch (new1 ++ [alloc]) = 0%nat ∧
    count_events is_free (new1 ++ [alloc]) = 0%nat).
  { split; [simpl; now rewrite T, <- app_assoc|].
    rewrite !count_events_app, Qa, Qf, Qd. unfold count_events. simpl.
    split; [lia|]. split; reflexivity. }
  destruct Hraise as (Tr & Ra & Rd & Rf).
  destruct (unpack_arguments (zip tys args) []) as [cells|e];
    [|exists (new1 ++ [alloc]); simpl;
      split; [exact Tr | split; [exact Ra | split; [exact Rd | exact Rf]]]].
  destruct (insert_arguments_ok cells inj
              (bound_buffer (next_handle w1)
                 (kernarg_segment_byte_size (code_desc entry))))
    as (base & stored & -> & _).
  match goal with
  | |- context [if ?cond then _ else _] => destruct cond
  end; [|exists (new1 ++ [alloc]); simpl;
      split; [exact Tr | split; [exact Ra | split; [exact Rd | exact Rf]]]].
  match goal with
  | |- context [after_dispatch _ _ ?ka _ _ _] => set (kernargs' := ka)
  end.
  exists (new1 ++ [alloc;
                   EvDispatch ctx (code_desc entry) kernargs' (local_size k)
                     (global_size k);
                   EvFree (kernarg_region entry) (buf_id kernargs')]).
  split.
  - simpl. rewrite T, <- !app_assoc. reflexivity.
  - simpl. rewrite !count_events_app, Qa, Qf, Qd.
    split; [reflexivity|]. split; [reflexivity|]. split; [reflexivity|].
    exists new1, ctx, (code_desc entry), kernargs', (kernarg_region entry).
    reflexivity.
Qed.

Lemma call_allocates_dispatches_frees_witness :
  let call := HSAKernel.__call__ (H := sample_collaborators) 0
                [PyFloat (PyFloatBits 0)] one_kernel_world in
  objects one_kernel_world !! 0%nat =
    Some (HSAKernelBase.__init__ (HSAKernel "k" [] [float64] 48 0)) ∧
  call.1 = Ok tt ∧
  ∃ new, trace call.2 = trace one_kernel_world ++ new ∧
         count_events is_allocate new = 1%nat ∧
         count_events is_free new = 1%nat.
Proof.
  intros call. split; [reflexivity|].
  assert (Hok : call.1 = Ok tt) by (vm_compute; reflexivity).
  split; [exact Hok|].
  destruct (call_allocates_dispatches_frees (H := sample_collaborators) 0
              (HSAKernelBase.__init__ (HSAKernel "k" [] [float64] 48 0))
              "k" [] [float64] 48 0 [PyFloat (PyFloatBits 0)]
              one_kernel_world eq_refl eq_refl) as (new & T & Hm).
  fold call in T, Hm. rewrite Hok in Hm.
  destruct Hm as (Ha & _ & Hf & _).
  exists new. split; [exact T|]. split; [exact Ha | exact Hf].
Defined.

(* ------------------------------------------------------------------ *)
(** ** Further properties of the configuration protocol                 *)
(* ------------------------------------------------------------------ *)

(** X9: configurations do not accumulate: configuring a clone gives an
    object with exactly the attribute values that configuring the
    original with the same arguments gives.  Nothing of the earlier
    configuration is kept; a [local_size] or a [stream] that is not
    passed is stored as [None], whatever it was before. *)
Theorem configure_not_cumulative (self : nat) (k : kernel_obj)
    (gs1 gs2 : size_arg) (ls1 ls2 : option size_arg)
    (st1 st2 : option Stream) (w : World) :
  objects w !! self = Some k →
  ∃ c1 w1 c2 w2 w2' k2,
    HSAKernelBase.configure self gs1 ls1 st1 w = (Ok c1, w1) ∧
    HSAKernelBase.configure c1 gs2 ls2 st2 w1 = (Ok c2, w2) ∧
    HSAKernelBase.configure self gs2 ls2 st2 w = (Ok c1, w2') ∧
    objects w2 !! c2 = Some k2 ∧ objects w2' !! c1 = Some k2 ∧
    impl k2 = impl k ∧ stream k2 = st2 ∧
    (ls2 = None → local_size k2 = None ∧ global_size k2 = _ensure_list gs2).
Proof.
  intros Hk.
  pose proof (configure_bound self k gs1 ls1 st1 w Hk) as E1.
  set (w1 := with_objects (objects w ++ [configured k gs1 ls1 st1]) w) in *.
  assert (Hc1 : objects w1 !! length (objects w) =
                Some (configured k gs1 ls1 st1))
    by (simpl; now rewrite list_lookup_middle).
  pose proof (configure_bound _ _ gs2 ls2 st2 w1 Hc1) as E2.
  pose proof (configure_bound self k gs2 ls2 st2 w Hk) as E3.
  eexists _, _, _, _, _, (configured k gs2 ls2 st2).
  split; [exact E1|]. split; [exact E2|]. split; [exact E3|].
  split.
  - simpl. rewrite list_lookup_middle by reflexivity.
    f_equal. unfold configured. now destruct ls1, ls2.
  - split; [simpl; now rewrite list_lookup_middle|].
    unfold configured.
    split; [now destruct ls2|]. split; [now destruct ls2|].
    intros ->. split; reflexivity.
Qed.

Lemma configure_not_cumulative_witness :
  objects one_kernel_world !! 0%nat =
    Some (HSAKernelBase.__init__ (HSAKernel "k" [] [float64] 48 0)) ∧
  ∃ c1 w1 c2 w2 k2,
    HSAKernelBase.configure 0 (Sequence [64; 2]) (Some (Scalar 8))
      (Some 3%nat) one_kernel_world = (Ok c1, w1) ∧
    HSAKernelBase.configure c1 (Scalar 5) None None w1 = (Ok c2, w2) ∧
    objects w2 !! c2 = Some k2 ∧
    stream k2 = None ∧ local_size k2 = None ∧ global_size k2 = [5].
Proof.
  split; [reflexivity|].
  destruct (configure_not_cumulative 0 _ (Sequence [64; 2]) (Scalar 5)
              (Some (Scalar 8)) None (Some 3%nat) None one_kernel_world
              eq_refl)
    as (c1 & w1 & c2 & w2 & _ & k2 & E1 & E2 & _ & Hk2 & _ & _ & Hs & Hl).
  destruct (Hl eq_refl) as [Hl1 Hg].
  exists c1, w1, c2, w2, k2. auto 10.
Defined.

(** X10: [_ensure_size_or_append] only ever appends ones: the list it
    was given is kept as a prefix, the result has [max(len(val), size)]
    entries, and a list that already has [size] entries or more is left
    as it is (it is never cut). *)
Theorem ensure_size_or_append_appends (val : list Z) (size : nat) :
  (∃ ones,
     _ensure_size_or_append val size = val ++ ones ∧
     Forall (λ x, x = 1) ones ∧
     length ones = (size - length val)%nat)
  ∧ length (_ensure_size_or_append val size) = Nat.max (length val) size
  ∧ ((size ≤ length val)%nat → _ensure_size_or_append val size = val)
  ∧ _ensure_size_or_append (_ensure_size_or_append val size) size =
      _ensure_size_or_append val size.
Proof.
  rewrite !ensure_size_or_append_pad. split; [|split; [|split]].
  - exists (replicate (size - length val) 1). split; [reflexivity|].
    split; [|apply length_replicate].
    now apply Forall_replicate.
  - apply length_pad_ones.
  - apply pad_ones_id.
  - apply pad_ones_id. rewrite length_pad_ones. lia.
Qed.

(* ------------------------------------------------------------------ *)
(** ** Further properties of the finalized-program cache                *)
(* ------------------------------------------------------------------ *)

Section CacheEntries.
Context `{Collaborators}.

(** An entry the cache holds after [get] was there before, or was made
    by this call for the active context from the next program handle. *)
Lemma get_entries (self : nat) (w : World) :
  (next_handle w ≤ next_handle (_CachedProgram.get self w).2)%nat ∧
  ∀ ctx e,
    cache_entry (_CachedProgram.get self w).2 self ctx = Some e →
    cache_entry w self ctx = Some e ∨
    (ctx = current_context w ∧ cache_entry w self ctx = None ∧
     program e = next_handle w ∧
     next_handle (_CachedProgram.get self w).2 = S (next_handle w) ∧
     cd_program (code_desc e) = program e ∧
     head (List.filter supports_kernargs (agent_regions ctx)) =
       Some (kernarg_region e)).
Proof.
  destruct (cached_programs w !! self) as [cp|] eqn:E1.
  2:{ rewrite (get_unbound _ _ E1). simpl. split; [lia | auto]. }
  destruct (_cache cp !! current_context w) as [e0|] eqn:E2.
  { rewrite (get_hit _ _ _ _ E1 E2). simpl. split; [lia | auto]. }
  destruct (List.filter supports_kernargs (agent_regions (current_context w)))
    as [|r rs] eqn:E3.
  - rewrite (get_miss_no_region _ _ _ E1 E2 E3). simpl. split; [lia|].
    intros ctx e He. left. exact He.
  - rewrite (get_miss _ _ _ _ _ E1 E2 E3). simpl. split; [lia|].
    intros ctx e. unfold cache_entry at 1. simpl.
    rewrite list_lookup_insert_eq by now apply lookup_lt_Some in E1.
    simpl. destruct (decide (current_context w = ctx)) as [<-|Hne].
    + rewrite lookup_insert_eq. intros [= <-]. right.
      rewrite (cache_entry_lookup _ _ _ _ E1), E3. auto 10.
    + rewrite lookup_insert_ne by exact Hne. intros He. left.
      now rewrite (cache_entry_lookup _ _ _ _ E1).
Qed.

Lemma get_cache_wf (self : nat) (w : World) :
  cache_wf w self → cache_wf (_CachedProgram.get self w).2 self.
Proof.
  intros [Hent Hinj]. destruct (get_entries self w) as [Hmono Hfrom].
  split.
  - intros ctx e He. destruct (Hfrom _ _ He) as [Hold|Hnew].
    + destruct (Hent _ _ Hold) as (Hp & Hcd & Hr). split; [lia | auto].
    + destruct Hnew as (_ & _ & Hp & Hn & Hcd & Hr). split; [lia | auto].
  - intros ctx1 ctx2 e1 e2 He1 He2 Heq.
    destruct (Hfrom _ _ He1) as [Ho1|(-> & _ & Hp1 & _)],
             (Hfrom _ _ He2) as [Ho2|(-> & _ & Hp2 & _)].
    + exact (Hinj _ _ _ _ Ho1 Ho2 Heq).
    + destruct (Hent _ _ Ho1) as (Hlt & _). lia.
    + destruct (Hent _ _ Ho2) as (Hlt & _). lia.
    + reflexivity.
Qed.

Lemma run_gets_cache_wf (self : nat) (ctxs : list Context) (w : World) :
  cache_wf w self → cache_wf (run_gets self ctxs w) self.
Proof.
  revert w. induction ctxs as [|ctx ctxs IH]; intros w Hwf; simpl.
  - exact Hwf.
  - apply IH, get_cache_wf. exact Hwf.
Qed.

End CacheEntries.

(** X11: the entries of a cache stay well formed over any sequence of
    [get] calls: the region of an entry is the first region of the
    context's agent that takes kernel arguments (so it is one of the
    agent's regions and does take them), its code descriptor belongs to
    its program, and two contexts never share a program. *)
Theorem cache_entries_well_formed `{Collaborators} (self : nat)
    (ctxs : list Context) (w : World) :
  cache_wf w self →
  let w' := run_gets self ctxs w in
  cache_wf w' self
  ∧ (∀ ctx e,
       cache_entry w' self ctx = Some e →
       supports_kernargs (kernarg_region e) = true ∧
       kernarg_region e ∈ agent_regions ctx ∧
       cd_program (code_desc e) = program e)
  ∧ (∀ ctx1 ctx2 e1 e2,
       cache_entry w' self ctx1 = Some e1 →
       cache_entry w' self ctx2 = Some e2 →
       ctx1 ≠ ctx2 → program e1 ≠ program e2).
Proof.
  intros Hwf w'. pose proof (run_gets_cache_wf self ctxs w Hwf) as Hwf'.
  fold w' in Hwf'. split; [exact Hwf'|]. destruct Hwf' as [Hent Hinj]. split.
  - intros ctx e He. destruct (Hent _ _ He) as (_ & Hcd & Hr).
    destruct (List.filter supports_kernargs (agent_regions ctx))
      as [|r rs] eqn:Ef; [discriminate|].
    injection Hr as ->.
    assert (Hin : In (kernarg_region e)
                    (List.filter supports_kernargs (agent_regions ctx)))
      by (rewrite Ef; now left).
    apply filter_In in Hin as [Hin Hs].
    split; [exact Hs|]. split; [now apply list_elem_of_In | exact Hcd].
  - intros ctx1 ctx2 e1 e2 He1 He2 Hne Heq.
    exact (Hne (Hinj _ _ _ _ He1 He2 Heq)).
Qed.

Lemma cache_entries_well_formed_witness :
  let w' := run_gets (H := sample_collaborators) 0 [1; 2; 0; 1]%nat
              one_kernel_world in
  cache_wf (H := sample_collaborators) one_kernel_world 0 ∧
  ∃ e1 e2,
    cache_entry w' 0 1%nat = Some e1 ∧ cache_entry w' 0 2%nat = Some e2 ∧
    program e1 ≠ program e2 ∧
    supports_kernargs (kernarg_region e1) = true.
Proof.
  intros w'.
  assert (Hwf : cache_wf (H := sample_collaborators) one_kernel_world 0)
    by (split; intros; discriminate).
  split; [exact Hwf|].
  destruct (cache_entries_well_formed (H := sample_collaborators) 0
              [1; 2; 0; 1]%nat one_kernel_world Hwf) as (_ & Hreg & Hdist).
  fold w' in Hreg, Hdist.
  assert (He1 : is_Some (cache_entry w' 0 1%nat))
    by (vm_compute; eauto).
  assert (He2 : is_Some (cache_entry w' 0 2%nat))
    by (vm_compute; eauto).
  destruct He1 as [e1 He1], He2 as [e2 He2].
  exists e1, e2. split; [exact He1|]. split; [exact He2|].
  split; [apply (Hdist _ _ _ _ He1 He2); discriminate|].
  apply (Hreg _ _ He1).
Defined.

Lemma del_released (self : nat) (w : World) (cp : _CachedProgram)
    (p : nat) :
  cached_programs w !! self = Some cp →
  EvRelease p ∈
    ((λ ent : Context * _CacheEntry, EvRelease (program ent.2))
       <$> map_to_list (_cache cp)) ↔
  ∃ ctx e, cache_entry w self ctx = Some e ∧ program e = p.
Proof.
  intros E. rewrite list_elem_of_fmap. split.
  - intros ([ctx e] & [= ->] & Hin). exists ctx, e.
    apply elem_of_map_to_list in Hin.
    now rewrite (cache_entry_lookup _ _ _ _ E).
  - intros (ctx & e & He & <-). exists (ctx, e). split; [reflexivity|].
    apply elem_of_map_to_list.
    now rewrite (cache_entry_lookup _ _ _ _ E) in He.
Qed.

(** X12: on teardown every program the cache holds is released, each
    exactly once, and nothing else is: the releases are as many as the
    contexts that have an entry, a handle is released if and only if it
    is the program of an entry, and no handle is released twice. *)
Theorem del_releases_each_program_once `{Collaborators} (self : nat)
    (cp : _CachedProgram) (w : World) :
  cached_programs w !! self = Some cp → cache_wf w self →
  ∃ released,
    _CachedProgram__del__ self w = Ok released ∧
    length released = size (_cache cp) ∧
    NoDup released ∧
    ∀ p, EvRelease p ∈ released ↔
         ∃ ctx e, cache_entry w self ctx = Some e ∧ program e = p.
Proof.
  intros E [_ Hinj]. unfold _CachedProgram__del__. rewrite E.
  eexists. split; [reflexivity|].
  split; [now rewrite length_fmap, length_map_to_list|].
  split; [|intros p; now apply del_released].
  apply NoDup_fmap_2_strong; [|apply NoDup_map_to_list].
  intros [ctx1 e1] [ctx2 e2] H1 H2 [= Heq].
  apply elem_of_map_to_list in H1, H2.
  assert (ctx1 = ctx2) as ->.
  { apply (Hinj ctx1 ctx2 e1 e2); [| |exact Heq];
      now rewrite (cache_entry_lookup _ _ _ _ E). }
  congruence.
Qed.

Lemma del_releases_each_program_once_witness :
  let w := run_gets (H := sample_collaborators) 0 [1; 2; 1]%nat
             one_kernel_world in
  is_Some (cached_programs w !! 0%nat) ∧
  cache_wf (H := sample_collaborators) w 0 ∧
  ∃ released,
    _CachedProgram__del__ 0 w = Ok released ∧ length released = 2%nat ∧
    NoDup released.
Proof.
  intros w.
  assert (Hcp : is_Some (cached_programs w !! 0%nat)) by (vm_compute; eauto).
  assert (Hwf : cache_wf (H := sample_collaborators) w 0).
  { apply run_gets_cache_wf. split; intros; discriminate. }
  split; [exact Hcp|]. split; [exact Hwf|].
  destruct Hcp as [cp Hcp].
  destruct (del_releases_each_program_once (H := sample_collaborators)
              0 cp w Hcp Hwf) as (released & E & Hlen & Hnd & _).
  exists released. split; [exact E|]. split; [|exact Hnd].
  rewrite Hlen. vm_compute in Hcp. injection Hcp as <-.
  vm_compute. reflexivity.
Defined.

Section Leak.
Context `{Collaborators}.

(** A handle below the driver's next one that no entry holds is held by
    no entry after further [get] calls either. *)
Lemma run_gets_never_holds (self p : nat) (ctxs : list Context) (w : World) :
  (p < next_handle w)%nat →
  (∀ ctx e, cache_entry w self ctx = Some e → program e ≠ p) →
  ∀ ctx e,
    cache_entry (run_gets self ctxs w) self ctx = Some e → program e ≠ p.
Proof.
  revert w. induction ctxs as [|c ctxs IH]; intros w Hp Hno; simpl.
  - exact Hno.
  - destruct (get_entries self (set_context c w)) as [Hmono Hfrom].
    apply IH.
    + simpl in Hmono. lia.
    + intros ctx e He. destruct (Hfrom _ _ He) as [Hold|Hnew].
      * exact (Hno _ _ Hold).
      * destruct Hnew as (_ & _ & -> & _). simpl. lia.
Qed.

Lemma get_index_error (self : nat) (w : World) :
  (_CachedProgram.get self w).1 = Raise IndexError →
  EvCreateProgram (current_context w) (next_handle w)
    ∈ new_events w (_CachedProgram.get self w).2 ∧
  next_handle (_CachedProgram.get self w).2 = S (next_handle w) ∧
  cached_programs (_CachedProgram.get self w).2 = cached_programs w.
Proof.
  destruct (cached_programs w !! self) as [cp|] eqn:E1.
  2:{ rewrite (get_unbound _ _ E1). discriminate. }
  destruct (_cache cp !! current_context w) as [e0|] eqn:E2.
  { rewrite (get_hit _ _ _ _ E1 E2). discriminate. }
  destruct (List.filter supports_kernargs (agent_regions (current_context w)))
    as [|r rs] eqn:E3.
  - rewrite (get_miss_no_region _ _ _ E1 E2 E3). simpl. intros _.
    split; [|split; reflexivity].
    erewrite new_events_app by reflexivity.
    unfold finalization_events. set_solver.
  - rewrite (get_miss _ _ _ _ _ E1 E2 E3). discriminate.
Qed.

End Leak.

(** X13: when [get] fails because the agent has no region that takes
    kernel arguments, the program it had the driver create is held by no
    entry, then or after any further [get] calls, so teardown never
    releases it. *)
Theorem failed_finalization_is_never_released `{Collaborators} (self : nat)
    (ctx : Context) (w : World) :
  cache_wf w self →
  (_CachedProgram.get self (set_context ctx w)).1 = Raise IndexError →
  let w1 := (_CachedProgram.get self (set_context ctx w)).2 in
  EvCreateProgram ctx (next_handle w) ∈ new_events w w1
  ∧ ∀ ctxs released,
      _CachedProgram__del__ self (run_gets self ctxs w1) = Ok released →
      EvRelease (next_handle w) ∉ released.
Proof.
  intros [Hent _] Hraise w1.
  destruct (get_index_error self (set_context ctx w) Hraise)
    as (Hin & Hnext & Hcps).
  fold w1 in Hin, Hnext, Hcps. simpl in Hin, Hnext.
  split; [exact Hin|].
  intros ctxs released Hdel Hrel.
  unfold _CachedProgram__del__ in Hdel.
  destruct (cached_programs (run_gets self ctxs w1) !! self) as [cp|] eqn:E;
    [|discriminate].
  injection Hdel as <-.
  apply (del_released _ _ _ _ E) in Hrel as (c & e & He & Hp).
  revert Hp.
  apply (run_gets_never_holds self (next_handle w) ctxs w1) with (ctx := c);
    [lia| |exact He].
  intros c' e' He'. unfold cache_entry in He'. rewrite Hcps in He'.
  destruct (Hent c' e' He') as (Hlt & _). lia.
Qed.

Lemma failed_finalization_is_never_released_witness :
  let w1 := (_CachedProgram.get (H := sample_collaborators) 0
               (set_context 0%nat one_kernel_world)).2 in
  cache_wf (H := sample_collaborators) one_kernel_world 0 ∧
  (_CachedProgram.get (H := sample_collaborators) 0
     (set_context 0%nat one_kernel_world)).1 = Raise IndexError ∧
  EvCreateProgram 0%nat 0 ∈ new_events one_kernel_world w1 ∧
  _CachedProgram__del__ 0
    (run_gets (H := sample_collaborators) 0 [1; 0]%nat w1) =
    Ok [EvRelease 1] ∧
  EvRelease 0 ∉ [EvRelease 1].
Proof.
  intros w1.
  assert (Hwf : cache_wf (H := sample_collaborators) one_kernel_world 0)
    by (split; intros; discriminate).
  assert (Hraise : (_CachedProgram.get (H := sample_collaborators) 0
                      (set_context 0%nat one_kernel_world)).1 = Raise IndexError)
    by (vm_compute; reflexivity).
  assert (Hdel : _CachedProgram__del__ 0
                   (run_gets (H := sample_collaborators) 0 [1; 0]%nat w1) =
                 Ok [EvRelease 1]) by (vm_compute; reflexivity).
  split; [exact Hwf|]. split; [exact Hraise|].
  destruct (failed_finalization_is_never_released (H := sample_collaborators)
              0 0%nat one_kernel_world Hwf Hraise) as [Hin Hnever].
  split; [exact Hin|]. split; [exact Hdel|].
  exact (Hnever [1; 0]%nat _ Hdel).
Defined.

(* ------------------------------------------------------------------ *)
(** ** Further properties of compilation and specialization             *)
(* ------------------------------------------------------------------ *)

Section CompileKernel.
Context `{Collaborators}.

(** [compile_kernel], step by step. *)
Lemma compile_kernel_unfold (f : nat) (sig : list argtype) (w : World) :
  compile_kernel f sig w =
    match compile_hsa f sig with
    | Ok cres => (Ok (length (objects w)), after_compile_kernel f sig cres w)
    | Raise e =>
        (Raise e,
         {| objects := objects w; cached_programs := cached_programs w;
            tables := tables w; current_context := current_context w;
            next_handle := next_handle w;
            trace := trace w ++ [EvCompile f sig] |})
    end.
Proof.
  unfold compile_kernel, bind at 1, emit. unfold bind at 1, lift. simpl.
  destruct (compile_hsa f sig) as [cres|e]; [|reflexivity].
  unfold HSAKernel.__init__, after_compile_kernel, compiled_kernel.
  destruct (hlc_finalize (cres_llvm_module cres)) as [assembly binary].
  reflexivity.
Qed.

End CompileKernel.

(** X14: every [compile_kernel] that returns makes a new kernel object
    with the default configuration and a new cache of its own that holds
    nothing, and asks nothing of the device driver.  Two compilations,
    even of the same function for the same signature, give two objects
    with two caches, and binding the first leaves the cache of the
    second empty: kernels compiled separately are finalized
    separately. *)
Theorem compile_kernel_own_cache `{Collaborators} (f : nat)
    (sig : list argtype) (k1 k2 : nat) (w w1 w2 : World) :
  compile_kernel f sig w = (Ok k1, w1) →
  compile_kernel f sig w1 = (Ok k2, w2) →
  k1 ≠ k2
  ∧ new_events w w2 = [EvCompile f sig; EvCompile f sig]
  ∧ ∃ cres c1 c2,
      compile_hsa f sig = Ok cres ∧ c1 ≠ c2 ∧
      objects w2 !! k1 = Some (compiled_kernel cres c1) ∧
      objects w2 !! k2 = Some (compiled_kernel cres c2) ∧
      global_size (compiled_kernel cres c1) = [1] ∧
      local_size (compiled_kernel cres c1) = Some [1] ∧
      stream (compiled_kernel cres c1) = None ∧
      (∀ ctx, cache_entry w2 c1 ctx = None ∧ cache_entry w2 c2 ctx = None) ∧
      (∀ ctx, cache_entry (HSAKernel.bind k1 (set_context ctx w2)).2 c2 ctx
              = None).
Proof.
  rewrite !compile_kernel_unfold.
  destruct (compile_hsa f sig) as [cres|e]; [|discriminate].
  intros [= <- <-] [= <- <-].
  split; [simpl; rewrite length_app; simpl; lia|].
  split; [erewrite new_events_app;
          [reflexivity | simpl; now rewrite <- app_assoc]|].
  exists cres, (length (cached_programs w)), (S (length (cached_programs w))).
  split; [reflexivity|]. split; [lia|].
  assert (Hk1 : objects (after_compile_kernel f sig cres
                           (after_compile_kernel f sig cres w))
                  !! length (objects w) =
                Some (compiled_kernel cres (length (cached_programs w)))).
  { simpl. rewrite <- app_assoc. simpl. now rewrite list_lookup_middle. }
  split; [exact Hk1|].
  split.
  { simpl. rewrite list_lookup_middle by reflexivity.
    rewrite length_app. simpl. do 3 f_equal. lia. }
  split; [reflexivity|]. split; [reflexivity|]. split; [reflexivity|].
  assert (Hc2 : ∀ w', cached_programs w' =
                        (cached_programs w ++
                         [{| _entry_name := cres_name cres;
                             _binary := (hlc_finalize
                                           (cres_llvm_module cres)).2;
                             _cache := ∅ |}]) ++
                        [{| _entry_name := cres_name cres;
                            _binary := (hlc_finalize
                                          (cres_llvm_module cres)).2;
                            _cache := ∅ |}] →
                ∀ ctx, cache_entry w' (S (length (cached_programs w))) ctx
                       = None).
  { intros w' E ctx. unfold cache_entry. rewrite E.
    rewrite list_lookup_middle by (rewrite length_app; simpl; lia).
    apply lookup_empty. }
  split.
  - intros ctx. split; [|now apply Hc2].
    unfold cache_entry. simpl. rewrite <- app_assoc. simpl.
    rewrite list_lookup_middle by reflexivity. apply lookup_empty.
  - intros ctx.
    set (w2 := after_compile_kernel f sig cres
                 (after_compile_kernel f sig cres w)).
    assert (Hk : objects (set_context ctx w2) !! length (objects w) =
                 Some (compiled_kernel cres (length (cached_programs w))))
      by exact Hk1.
    rewrite (bind_unfold _ _ _ _ _ _ _ _ Hk eq_refl).
    destruct (get_frame (length (cached_programs w)) (set_context ctx w2))
      as (new & _ & _ & _ & _ & _ & _ & Hother).
    specialize (Hother (S (length (cached_programs w))) ltac:(lia)).
    assert (Hnone : cache_entry (set_context ctx w2)
                      (S (length (cached_programs w))) ctx = None)
      by now apply Hc2.
    unfold cache_entry in *.
    destruct (_CachedProgram.get (length (cached_programs w))
                (set_context ctx w2)) as [[[ctx' entry]|e] w3]; simpl in *.
    + destruct (kernarg_segment_byte_size (code_desc entry) <? 0); simpl;
        now rewrite Hother.
    + now rewrite Hother.
Qed.

Lemma compile_kernel_own_cache_witness :
  let r1 := compile_kernel (H := sample_collaborators) 7 [float64]
              one_kernel_world in
  let r2 := compile_kernel (H := sample_collaborators) 7 [float64] r1.2 in
  r1 = (Ok 1%nat, r1.2) ∧ r2 = (Ok 2%nat, r2.2) ∧ (1 ≠ 2)%nat ∧
  new_events one_kernel_world r2.2 =
    [EvCompile 7 [float64]; EvCompile 7 [float64]].
Proof.
  intros r1 r2.
  assert (H1 : r1 = (Ok 1%nat, r1.2)) by (vm_compute; reflexivity).
  assert (H2 : r2 = (Ok 2%nat, r2.2)) by (vm_compute; reflexivity).
  split; [exact H1|]. split; [exact H2|].
  destruct (compile_kernel_own_cache (H := sample_collaborators) 7 [float64]
              1 2 one_kernel_world r1.2 r2.2 H1 H2) as (Hne & Hev & _).
  split; [exact Hne | exact Hev].
Defined.

Lemma table_wf_grow (w : World) (d : nat) (more : list kernel_obj) :
  table_wf w d → table_wf (with_objects (objects w ++ more) w) d.
Proof.
  intros (Hs & Hb & Hi). split; [exact Hs|]. split; [|exact Hi].
  intros sig k Hk. simpl. rewrite length_app.
  specialize (Hb sig k Hk). lia.
Qed.

Section SpecializeFrame.
Context `{Collaborators}.

(** [specialize] writes to no object that exists: at most it adds one. *)
Lemma specialize_objects_grow (self : nat) (args : list pyval) (w : World) :
  ∃ more,
    objects (AutoJitHSAKernel.specialize self args w).2 = objects w ++ more.
Proof.
  unfold AutoJitHSAKernel.specialize, bind at 1, get_object.
  destruct (objects w !! self) as [k|];
    [|exists []; simpl; now rewrite app_nil_r].
  destruct (impl k) as [n b tys inj c|f d];
    [exists []; simpl; now rewrite app_nil_r|].
  unfold bind at 1, lift.
  destruct (resolve_argument_types args) as [sig|e];
    [|exists []; simpl; now rewrite app_nil_r].
  unfold bind at 1, get_table.
  destruct (tables w !! d) as [t|] eqn:Ht;
    [|exists []; simpl; now rewrite app_nil_r].
  destruct (t !! sig) as [kernel|];
    [exists []; simpl; now rewrite app_nil_r|].
  unfold bind at 1. rewrite compile_kernel_unfold.
  destruct (compile_hsa f sig) as [cres|e];
    [|exists []; simpl; now rewrite app_nil_r].
  unfold bind, AutoJitHSAKernel.definitions_store, ret. simpl. rewrite Ht.
  simpl. eexists. reflexivity.
Qed.

End SpecializeFrame.

(** X15: a clone of an auto-specializing kernel made by [configure]
    shares the table of specializations with the kernel it was made
    from: a kernel compiled through the clone is what a later
    [specialize] on the original returns for the same signature,
    without compiling again. *)
Theorem specializations_shared_with_clones `{Collaborators} (self : nat)
    (k : kernel_obj) (f d : nat) (gs : size_arg) (ls : option size_arg)
    (st : option Stream) (w : World) :
  objects w !! self = Some k → impl k = AutoJitHSAKernel f d →
  table_wf w d →
  ∃ clone w1,
    HSAKernelBase.configure self gs ls st w = (Ok clone, w1) ∧
    clone ≠ self ∧
    (∃ kc, objects w1 !! clone = Some kc ∧ impl kc = AutoJitHSAKernel f d) ∧
    ∀ args1 args2 sig kernel w2,
      resolve_argument_types args1 = Ok sig →
      resolve_argument_types args2 = Ok sig →
      AutoJitHSAKernel.specialize clone args1 w1 = (Ok kernel, w2) →
      AutoJitHSAKernel.specialize self args2 w2 = (Ok kernel, w2).
Proof.
  intros Hk Hi Hwf.
  exists (length (objects w)),
         (with_objects (objects w ++ [configured k gs ls st]) w).
  split; [exact (configure_bound _ _ _ _ _ _ Hk)|].
  split; [apply lookup_lt_Some in Hk; lia|].
  assert (Hkc : objects (with_objects (objects w ++ [configured k gs ls st]) w)
                  !! length (objects w) = Some (configured k gs ls st))
    by (simpl; now rewrite list_lookup_middle).
  assert (Hic : impl (configured k gs ls st) = AutoJitHSAKernel f d)
    by (rewrite <- Hi; unfold configured; now destruct ls).
  split; [eauto|].
  intros args1 args2 sig kernel w2 Hr1 Hr2 Hcall.
  pose proof (table_wf_grow w d [configured k gs ls st] Hwf) as Hwf1.
  destruct (specialize_step _ _ f d args1 _ Hkc Hic Hwf1)
    as (_ & Hwf2 & _ & Hsig).
  destruct (Hsig sig Hr1) as (Hret & _ & _).
  destruct (specialize_objects_grow (length (objects w)) args1
              (with_objects (objects w ++ [configured k gs ls st]) w))
    as [more Hobjs].
  rewrite Hcall in Hwf2, Hret, Hobjs. simpl in *.
  assert (Hk2 : objects w2 !! self = Some k).
  { rewrite Hobjs. now do 2 apply lookup_app_l_Some. }
  destruct (specialize_step self k f d args2 w2 Hk2 Hi Hwf2)
    as (_ & _ & _ & Hsig2).
  destruct (Hsig2 sig Hr2) as (_ & Hhit & _).
  apply Hhit, Hret. reflexivity.
Qed.

Lemma specializations_shared_with_clones_witness :
  let w := (AutoJitHSAKernel.__init__ 7 one_kernel_world).2 in
  let w1 := (HSAKernelBase.configure 1 (Scalar 64) (Some (Scalar 8)) None
               w).2 in
  let r1 := AutoJitHSAKernel.specialize (H := sample_collaborators) 2
              [PyInt 3] w1 in
  table_wf w 0 ∧
  HSAKernelBase.configure 1 (Scalar 64) (Some (Scalar 8)) None w =
    (Ok 2%nat, w1) ∧
  r1 = (Ok 3%nat, r1.2) ∧
  AutoJitHSAKernel.specialize (H := sample_collaborators) 1 [PyInt 5] r1.2 =
    (Ok 3%nat, r1.2).
Proof.
  intros w w1 r1.
  assert (Hwf : table_wf w 0).
  { split; [eexists; reflexivity|]. split; intros; discriminate. }
  assert (Hc : HSAKernelBase.configure 1 (Scalar 64) (Some (Scalar 8)) None
                 w = (Ok 2%nat, w1)) by (vm_compute; reflexivity).
  assert (H1 : r1 = (Ok 3%nat, r1.2)) by (vm_compute; reflexivity).
  split; [exact Hwf|]. split; [exact Hc|]. split; [exact H1|].
  destruct (specializations_shared_with_clones (H := sample_collaborators)
              1 _ 7 0 (Scalar 64) (Some (Scalar 8)) None w
              eq_refl eq_refl Hwf) as (clone & w1' & Hc' & _ & _ & Hshare).
  rewrite Hc in Hc'. injection Hc' as <- <-.
  exact (Hshare [PyInt 3] [PyInt 5] [Integer true W64] 3%nat r1.2
           eq_refl eq_refl H1).
Defined.

Section ResolveOrder.
Context `{Collaborators}.

Lemma resolve_argument_types_first_failure (pre post : list pyval)
    (a : pyval) (tys : list argtype) (e : exception) :
  resolve_argument_types pre = Ok tys →
  resolve_argument_type a = Raise e →
  resolve_argument_types (pre ++ a :: post) = Raise e.
Proof.
  revert tys. induction pre as [|x pre IH]; intros tys Hpre Ha; simpl.
  - now rewrite Ha.
  - simpl in Hpre. destruct (resolve_argument_type x) as [ty|e']; [|discriminate].
    destruct (resolve_argument_types pre) as [tys'|e']; [|discriminate].
    now rewrite (IH _ eq_refl Ha).
Qed.

End ResolveOrder.

(** X16: the arguments are resolved before anything else is done: when
    the resolver raises for an argument and answered for those before
    it, [specialize] and [__call__] raise that exception and leave the
    world untouched; nothing is compiled, bound or allocated. *)
Theorem unresolved_argument_stops_early `{Collaborators} (self : nat)
    (k : kernel_obj) (f d : nat) (pre post : list pyval) (a : pyval)
    (tys : list argtype) (e : exception) (w : World) :
  objects w !! self = Some k → impl k = AutoJitHSAKernel f d →
  resolve_argument_types pre = Ok tys →
  resolve_argument_type a = Raise e →
  AutoJitHSAKernel.specialize self (pre ++ a :: post) w = (Raise e, w)
  ∧ AutoJitHSAKernel.__call__ self (pre ++ a :: post) w = (Raise e, w).
Proof.
  intros Hk Hi Hpre Ha.
  pose proof (resolve_argument_types_first_failure pre post a tys e Hpre Ha)
    as Hr.
  pose proof (specialize_no_signature _ _ _ _ _ _ _ Hk Hi Hr) as Hs.
  split; [exact Hs|].
  unfold AutoJitHSAKernel.__call__, bind at 1. now rewrite Hs.
Qed.

Lemma unresolved_argument_stops_early_witness :
  let w := (AutoJitHSAKernel.__init__ 7 one_kernel_world).2 in
  let args := [PyInt 3; PyOther "object()"; PyFloat (PyFloatBits 0)] in
  resolve_argument_types (H := sample_collaborators) [PyInt 3] =
    Ok [Integer true W64] ∧
  AutoJitHSAKernel.__call__ (H := sample_collaborators) 1 args w =
    (Raise (CollaboratorFault "UnresolvedType"), w).
Proof.
  intros w args. split; [reflexivity|].
  destruct (unresolved_argument_stops_early (H := sample_collaborators) 1 _ 7 0
              [PyInt 3] [PyFloat (PyFloatBits 0)] (PyOther "object()")
              [Integer true W64] (CollaboratorFault "UnresolvedType") w
              eq_refl eq_refl eq_refl eq_refl) as [_ Hc].
  exact Hc.
Defined.

(** X17: a compilation that raises is not remembered: [specialize]
    raises the pipeline's exception after having asked it once, stores
    nothing in the table and creates no object, and the next call with
    the same signature asks the pipeline again. *)
Theorem failed_compile_is_not_cached `{Collaborators} (self : nat)
    (k : kernel_obj) (f d : nat) (args : list pyval) (sig : list argtype)
    (t : gmap (list argtype) nat) (e : exception) (w : World) :
  objects w !! self = Some k → impl k = AutoJitHSAKernel f d →
  resolve_argument_types args = Ok sig →
  tables w !! d = Some t → t !! sig = None →
  compile_hsa f sig = Raise e →
  let rw := AutoJitHSAKernel.specialize self args w in
  let rw' := AutoJitHSAKernel.specialize self args rw.2 in
  rw.1 = Raise e
  ∧ objects rw.2 = objects w ∧ tables rw.2 = tables w
  ∧ cached_programs rw.2 = cached_programs w
  ∧ trace rw.2 = trace w ++ [EvCompile f sig]
  ∧ rw'.1 = Raise e
  ∧ trace rw'.2 = trace w ++ [EvCompile f sig; EvCompile f sig].
Proof.
  intros Hk Hi Hr Ht Hs Hc rw rw'. subst rw'. subst rw.
  rewrite (specialize_unfold _ _ _ _ _ _ _ _ Hk Hi Hr Ht), Hs, Hc. simpl.
  do 5 (split; [reflexivity|]).
  match goal with
  | |- context [AutoJitHSAKernel.specialize self args ?w1] =>
      rewrite (specialize_unfold self k f d args sig t w1 Hk Hi Hr Ht)
  end.
  rewrite Hs, Hc. simpl. split; [reflexivity|].
  now rewrite <- app_assoc.
Qed.

Lemma failed_compile_is_not_cached_witness :
  let w := (AutoJitHSAKernel.__init__ 7 one_kernel_world).2 in
  let rw := AutoJitHSAKernel.specialize (H := rejecting_collaborators) 1
              [PyBool true] w in
  let rw' := AutoJitHSAKernel.specialize (H := rejecting_collaborators) 1
               [PyBool true] rw.2 in
  compile_hsa (Collaborators := rejecting_collaborators) 7 [boolean] =
    Raise (CollaboratorFault "TypingError") ∧
  rw.1 = Raise (CollaboratorFault "TypingError") ∧
  tables rw.2 = tables w ∧
  trace rw'.2 = trace w ++ [EvCompile 7 [boolean]; EvCompile 7 [boolean]].
Proof.
  intros w rw rw'. split; [reflexivity|].
  destruct (failed_compile_is_not_cached (H := rejecting_collaborators) 1 _ 7 0
              [PyBool true] [boolean] ∅ (CollaboratorFault "TypingError") w
              eq_refl eq_refl eq_refl eq_refl eq_refl eq_refl)
    as (H1 & _ & Ht & _ & _ & _ & H2).
  split; [exact H1|]. split; [exact Ht | exact H2].
Defined.

(** X18: a call on an auto-specializing kernel that returns has
    dispatched with the configuration of the wrapper it was made on
    ([global_size], [local_size] as [configure] stores them), not with
    that of the kernel object held in the table; and every kernel
    object that existed before the call still has the attribute values
    it had ([global_size], [local_size], [stream] and what its subclass
    added): the specialized kernel is configured through a clone.  (The
    table of specializations and the program cache of the kernel are
    not among these attributes' values: the call may write to both.) *)
Theorem autojit_call_uses_wrapper_configuration `{Collaborators} (self : nat)
    (k : kernel_obj) (f d : nat) (args : list pyval) (w w' : World) :
  objects w !! self = Some k → impl k = AutoJitHSAKernel f d →
  AutoJitHSAKernel.__call__ self args w = (Ok tt, w') →
  let cfg := configured k (Sequence (global_size k))
               (Sequence <$> local_size k) (stream k) in
  (∃ tr ctx cd kernargs region,
     trace w' =
       tr ++ [EvDispatch ctx cd kernargs (local_size cfg) (global_size cfg);
              EvFree region (buf_id kernargs)])
  ∧ (∀ o ko, objects w !! o = Some ko → objects w' !! o = Some ko).
Proof.
  intros Hk Hi Hcall cfg.
  unfold AutoJitHSAKernel.__call__, bind at 1 in Hcall.
  destruct (specialize_objects_grow self args w) as [more Hobjs].
  destruct (AutoJitHSAKernel.specialize self args w) as [[kernel|e] w1];
    [|discriminate].
  simpl in Hobjs.
  assert (Hk1 : objects w1 !! self = Some k)
    by (rewrite Hobjs; now apply lookup_app_l_Some).
  unfold bind at 1, get_object in Hcall. rewrite Hk1 in Hcall.
  unfold bind at 1 in Hcall.
  destruct (objects w1 !! kernel) as [kk|] eqn:Hkk.
  2:{ rewrite (configure_unbound _ _ _ _ _ Hkk) in Hcall. discriminate. }
  rewrite (configure_bound _ _ _ _ _ _ Hkk) in Hcall.
  set (kcfg := configured kk (Sequence (global_size k))
                 (Sequence <$> local_size k) (stream k)) in *.
  set (w2 := with_objects (objects w1 ++ [kcfg]) w1) in *.
  assert (Hcfg : objects w2 !! length (objects w1) = Some kcfg)
    by (simpl; now rewrite list_lookup_middle).
  assert (Hsizes : local_size kcfg = local_size cfg ∧
                   global_size kcfg = global_size cfg)
    by (unfold kcfg, cfg, configured; now destruct (local_size k)).
  assert (Himpl : impl kcfg = impl kk)
    by (unfold kcfg, configured; now destruct (local_size k)).
  destruct (impl kk) as [n b tys inj c|f' d'] eqn:Hikk.
  2:{ unfold HSAKernel.__call__, bind at 1, get_object in Hcall.
      rewrite Hcfg, Himpl in Hcall. discriminate. }
  rewrite (call_unfold _ _ _ _ _ _ _ _ _ Hcfg Himpl) in Hcall.
  destruct (bind_effect _ _ _ _ _ _ _ _ Hcfg Himpl) as (_ & _ & _ & O & _).
  destruct (HSAKernel.bind (length (objects w1)) w2)
    as [[[[[ctx cd] kernargs] region]|e] w_b]; [|discriminate].
  destruct (unpack_arguments (zip tys args) []) as [cells|e]; [|discriminate].
  destruct (insert_arguments cells inj kernargs) as [[base kernargs']|e];
    [|discriminate].
  destruct (base =? buf_size kernargs'); [|discriminate].
  injection Hcall as <-. destruct Hsizes as [<- <-]. split.
  - exists (trace w_b), ctx, cd, kernargs', region. reflexivity.
  - intros o ko Ho. simpl in *. rewrite O, Hobjs.
    now do 2 apply lookup_app_l_Some.
Qed.

Lemma autojit_call_uses_wrapper_configuration_witness :
  let w0 := (AutoJitHSAKernel.__init__ 7 one_kernel_world).2 in
  let w := (HSAKernelBase.configure 1 (Sequence [64; 2]) (Some (Scalar 8))
              None w0).2 in
  let call := AutoJitHSAKernel.__call__ (H := sample_collaborators) 2
                [PyFloat (PyFloatBits 0)] w in
  call = (Ok tt, call.2) ∧
  ∃ tr ctx cd kernargs region,
    trace call.2 =
      tr ++ [EvDispatch ctx cd kernargs (Some [8; 1]) [64; 2];
             EvFree region (buf_id kernargs)].
Proof.
  intros w0 w call.
  assert (Hc : call = (Ok tt, call.2)) by (vm_compute; reflexivity).
  split; [exact Hc|].
  destruct (autojit_call_uses_wrapper_configuration
              (H := sample_collaborators) 2
              {| global_size := [64; 2]; local_size := Some [8; 1];
                 stream := None; impl := AutoJitHSAKernel 7 0 |}
              7 0 [PyFloat (PyFloatBits 0)] w call.2 eq_refl eq_refl Hc)
    as [Hd _].
  exact Hd.
Defined.

(** X19: the buffer a call that returns has dispatched holds the six
    zeroed header cells followed by the scalars the arguments expand
    to, in their order and nothing else; the scalars are laid out from
    [_injectedargsize] on, each at the first multiple of its size after
    the one before, and the last one ends exactly at the end of the
    buffer, whose size is the segment size the code descriptor
    reports. *)
Theorem dispatched_buffer_layout `{Collaborators} (self : nat)
    (k : kernel_obj) (n : string) (b : Binary) (tys : list argtype)
    (inj : Z) (c : nat) (args : list pyval) (w w' : World) :
  objects w !! self = Some k → impl k = HSAKernel n b tys inj c →
  HSAKernel.__call__ self args w = (Ok tt, w') →
  ∃ tr ctx cd kernargs region cells stored,
    trace w' =
      tr ++ [EvDispatch ctx cd kernargs (local_size k) (global_size k);
             EvFree region (buf_id kernargs)] ∧
    unpack_arguments (zip tys args) [] = Ok cells ∧
    buf_cells kernargs =
      [(0, c_void_p 0); (8, c_void_p 0); (16, c_void_p 0);
       (24, c_void_p 0); (32, c_void_p 0); (40, c_void_p 0)] ++ stored ∧
    stored.*2 = cells ∧
    well_placed inj stored (buf_size kernargs) ∧
    buf_size kernargs = kernarg_segment_byte_size cd.
Proof.
  intros Hk Hi Hcall.
  rewrite (call_unfold _ _ _ _ _ _ _ _ _ Hk Hi) in Hcall.
  destruct (HSAKernel.bind self w)
    as [[[[[ctx cd] kernargs] region]|e] w_b] eqn:Hb; [|discriminate].
  assert (Hbuf : buf_size kernargs = kernarg_segment_byte_size cd ∧
                 buf_cells kernargs =
                   [(0, c_void_p 0); (8, c_void_p 0); (16, c_void_p 0);
                    (24, c_void_p 0); (32, c_void_p 0); (40, c_void_p 0)]).
  { rewrite (bind_unfold _ _ _ _ _ _ _ _ Hk Hi) in Hb.
    destruct (_CachedProgram.get c w) as [[[ctx' entry]|e] w1];
      [|discriminate].
    simpl in Hb.
    destruct (kernarg_segment_byte_size (code_desc entry) <? 0);
      [discriminate|].
    injection Hb as _ <- <- _ _. split; reflexivity. }
  destruct Hbuf as [Hsize Hhead].
  destruct (unpack_arguments (zip tys args) []) as [cells|e]; [|discriminate].
  destruct (insert_arguments_placed cells inj kernargs)
    as (base & stored & E & Hst & Hpl).
  rewrite E in Hcall.
  destruct (Z.eqb_spec base
              (buf_size {| buf_id := buf_id kernargs;
                           buf_size := buf_size kernargs;
                           buf_cells := buf_cells kernargs ++ stored |}))
    as [Heq|]; [|discriminate].
  injection Hcall as <-. simpl in Heq. subst base.
  eexists (trace w_b), ctx, cd, _, region, cells, stored.
  split; [reflexivity|]. split; [reflexivity|]. simpl.
  split; [now rewrite Hhead|]. split; [exact Hst|].
  split; [exact Hpl | exact Hsize].
Qed.

Lemma dispatched_buffer_layout_witness :
  let call := HSAKernel.__call__ (H := sample_collaborators) 0
                [PyFloat (PyFloatBits 0)] one_kernel_world in
  objects one_kernel_world !! 0%nat =
    Some (HSAKernelBase.__init__ (HSAKernel "k" [] [float64] 48 0)) ∧
  call = (Ok tt, call.2) ∧
  ∃ cd kernargs stored,
    buf_size kernargs = kernarg_segment_byte_size cd ∧
    stored.*2 = [c_double (PyFloatBits 0)] ∧
    well_placed 48 stored (buf_size kernargs).
Proof.
  intros call. split; [reflexivity|].
  assert (Hc : call = (Ok tt, call.2)) by (vm_compute; reflexivity).
  split; [exact Hc|].
  destruct (dispatched_buffer_layout (H := sample_collaborators) 0
              (HSAKernelBase.__init__ (HSAKernel "k" [] [float64] 48 0))
              "k" [] [float64] 48 0 [PyFloat (PyFloatBits 0)]
              one_kernel_world call.2 eq_refl eq_refl Hc)
    as (tr & ctx & cd & kernargs & region & cells & stored
        & Ht & Hu & _ & Hst & Hpl & Hsz).
  injection Hu as <-.
  exists cd, kernargs, stored.
  split; [exact Hsz|]. split; [exact Hst | exact Hpl].
Defined.
